(** * JwelryAdmin: catalog connector, rate fetcher and catalog routes

    A shallow embedding of the server side of the jewelry admin panel:
    - [server/storage.ts]  : the directory store ([MongoDBStorage]) and the
      per-shop catalog helpers ([connectToShopDB], [getShopProducts], ...);
    - [server/mongodb.ts]  : [objectIdToString], [stringToObjectId];
    - the IBJA rate scraper ([scrapeIBJARates]) with its one-hour cache;
    - [server/routes.ts]   : the six shop-catalog route handlers.

    Conventions.
    - A JavaScript string is a Rocq [string] holding its UTF-8 encoding.
      The separators the code splits on ('/', '?', ',') are ASCII, so
      splitting bytes and splitting UTF-16 code units agree.
    - Asynchronous functions are functions in a state-and-exception monad:
      awaiting is sequencing, a rejected promise is a thrown exception.
    - The MongoDB driver, cheerio, fetch and zod are outside the repository;
      they appear as an interface ([Driver]), as inputs ([Env]) or as
      section variables. *)

From Stdlib Require Import ZArith List String Ascii Bool Lia.
From Stdlib Require Import PrimFloat FloatOps SpecFloat DecimalString.
From stdpp Require Import base option list gmap sorting.
Import ListNotations.

Local Open Scope string_scope.
Local Open Scope Z_scope.

(* ===================================================================== *)
(** * Exceptions and state *)
(* ===================================================================== *)

(** The outcome of running a piece of JavaScript: a value, or a thrown
    exception (a rejected promise) carrying its message. *)
Inductive result (A : Type) : Type :=
| Ok (a : A)
| Throw (msg : string).
Arguments Ok {A} a.
Arguments Throw {A} msg.

Definition is_ok {A} (r : result A) : bool :=
  match r with Ok _ => true | Throw _ => false end.

(** Computations over a mutable state [S].  State changes made before an
    exception is thrown are kept, as in JavaScript. *)
Definition M (S A : Type) : Type := S -> result A * S.

Definition ret {S A} (a : A) : M S A := fun s => (Ok a, s).

Definition throw {S A} (msg : string) : M S A := fun s => (Throw msg, s).

Definition bind {S A B} (m : M S A) (k : A -> M S B) : M S B :=
  fun s =>
    match m s with
    | (Ok a, s') => k a s'
    | (Throw e, s') => (Throw e, s')
    end.

Definition get {S} : M S S := fun s => (Ok s, s).

Definition modify {S} (f : S -> S) : M S unit := fun s => (Ok tt, f s).

(** [try { body } catch (error) { handler }] *)
Definition try_catch {S A} (body : M S A) (handler : string -> M S A) : M S A :=
  fun s =>
    match body s with
    | (Ok a, s') => (Ok a, s')
    | (Throw e, s') => handler e s'
    end.

(** Lifting a pure outcome. *)
Definition lift {S A} (r : result A) : M S A := fun s => (r, s).

Notation "x <- m ;; k" := (bind m (fun x => k))
  (at level 100, m at next level, right associativity).
Notation "m ;;; k" := (bind m (fun _ => k))
  (at level 100, right associativity).

(* ===================================================================== *)
(** * JavaScript strings *)
(* ===================================================================== *)

Module JS.

(** [s.split(sep)] for a one-character separator.  The result is never
    empty: [''.split('/')] is [['']]. *)
Fixpoint split (sep : ascii) (s : string) : list string :=
  match s with
  | EmptyString => [EmptyString]
  | String c rest =>
      if Ascii.eqb c sep then EmptyString :: split sep rest
      else match split sep rest with
           | part :: parts => String c part :: parts
           | [] => [String c EmptyString]
           end
  end.

(** [parts[parts.length - 1]]; [undefined] on an empty array. *)
Fixpoint last_part (parts : list string) : option string :=
  match parts with
  | [] => None
  | [p] => Some p
  | _ :: rest => last_part rest
  end.

(** [s.includes(needle)] *)
Fixpoint includes (s needle : string) : bool :=
  String.prefix needle s ||
  match s with
  | EmptyString => false
  | String _ rest => includes rest needle
  end.

(** The one-byte members of the ECMAScript WhiteSpace and LineTerminator
    classes: TAB, LF, VT, FF, CR, SPACE. *)
Definition ws1 (a : ascii) : bool :=
  let n := nat_of_ascii a in
  ((9 <=? n) && (n <=? 13) || (n =? 32))%nat.

(** U+00A0 is the only two-byte member (C2 A0). *)
Definition ws2 (a b : ascii) : bool :=
  ((nat_of_ascii a =? 194) && (nat_of_ascii b =? 160))%nat.

(** The three-byte members: U+1680 (E1 9A 80), U+2000..U+200A (E2 80 80..8A),
    U+2028, U+2029 (E2 80 A8, A9), U+202F (E2 80 AF), U+205F (E2 81 9F),
    U+3000 (E3 80 80), U+FEFF (EF BB BF). *)
Definition ws3 (a b c : ascii) : bool :=
  let x := nat_of_ascii a in
  let y := nat_of_ascii b in
  let z := nat_of_ascii c in
  ((x =? 225) && (y =? 154) && (z =? 128)
   || (x =? 226) && (y =? 128)
      && ((128 <=? z) && (z <=? 138) || (z =? 168) || (z =? 169) || (z =? 175))
   || (x =? 226) && (y =? 129) && (z =? 159)
   || (x =? 227) && (y =? 128) && (z =? 128)
   || (x =? 239) && (y =? 187) && (z =? 191))%nat.

(** [s.trimStart()]: drop leading white space, one encoded character at a
    time. *)
Fixpoint trimStart (s : string) : string :=
  match s with
  | EmptyString => EmptyString
  | String a r1 =>
      if ws1 a then trimStart r1
      else match r1 with
           | EmptyString => s
           | String b r2 =>
               if ws2 a b then trimStart r2
               else match r2 with
                    | EmptyString => s
                    | String c r3 => if ws3 a b c then trimStart r3 else s
                    end
           end
  end.

(** [s.trim() === '']: a string trims to nothing exactly when dropping its
    leading white space already leaves nothing. *)
Definition trim_is_empty (s : string) : bool :=
  String.eqb (trimStart s) EmptyString.

(** Truthiness of a string: [!s] is [true] exactly for ['']. *)
Definition truthy (s : string) : bool := negb (String.eqb s EmptyString).

End JS.

(* ===================================================================== *)
(** * Documents *)
(* ===================================================================== *)

(** The field names of [categorySchema] and [productSchema]
    (shared/schema.ts), [_id] apart.  The documents of a shop's store are
    taken to have fields of these names only. *)
Module Field.
Inductive t : Set :=
  | name | slug | icon | description | price | originalPrice | imageUrl
  | category | tags | featured | inStock | displayOrder | subImages
  | isNewArrival | isNewTrend | gender | occasion | purity | stone | weight.

Definition to_nat (f : t) : nat :=
  match f with
  | name => 0 | slug => 1 | icon => 2 | description => 3 | price => 4
  | originalPrice => 5 | imageUrl => 6 | category => 7 | tags => 8
  | featured => 9 | inStock => 10 | displayOrder => 11 | subImages => 12
  | isNewArrival => 13 | isNewTrend => 14 | gender => 15 | occasion => 16
  | purity => 17 | stone => 18 | weight => 19
  end%nat.

Definition of_nat (n : nat) : option t :=
  match n with
  | 0 => Some name | 1 => Some slug | 2 => Some icon | 3 => Some description
  | 4 => Some price | 5 => Some originalPrice | 6 => Some imageUrl
  | 7 => Some category | 8 => Some tags | 9 => Some featured
  | 10 => Some inStock | 11 => Some displayOrder | 12 => Some subImages
  | 13 => Some isNewArrival | 14 => Some isNewTrend | 15 => Some gender
  | 16 => Some occasion | 17 => Some purity | 18 => Some stone
  | 19 => Some weight | _ => None
  end%nat.

Lemma of_to_nat (f : t) : of_nat (to_nat f) = Some f.
Proof. by destruct f. Qed.

#[global] Instance eq_dec : EqDecision t.
Proof. solve_decision. Defined.

#[global] Instance countable : Countable t :=
  inj_countable to_nat of_nat of_to_nat.
End Field.

(** The values the schemas give to fields: strings, numbers, booleans and
    arrays of strings.  Numbers are integers here; fractional prices and
    [NaN] are outside the model. *)
Inductive value : Type :=
| VStr (s : string)
| VNum (n : Z)
| VBool (b : bool)
| VArr (l : list string).

#[global] Instance value_eq_dec : EqDecision value.
Proof. solve_decision. Defined.

(** JavaScript truthiness of a field read: [undefined], ['' ], [0] and
    [false] are falsy; every array is truthy. *)
Definition truthy (v : option value) : bool :=
  match v with
  | None => false
  | Some (VStr s) => JS.truthy s
  | Some (VNum n) => negb (n =? 0)
  | Some (VBool b) => b
  | Some (VArr _) => true
  end.

(** [a || b] on field reads, with [b] a literal. *)
Definition or_else (v : option value) (dflt : value) : value :=
  match v with
  | Some x => if truthy v then x else dflt
  | None => dflt
  end.

(** An object with an [_id] of type [I] and the remaining fields as a
    finite map: a stored document when [I] is the driver's ObjectId, a
    [Category] or [Product] of the API when [I] is [string]. *)
Record WithId (I : Type) : Type := mkWithId {
  _id : I;
  fields : gmap Field.t value
}.
Arguments mkWithId {I} _ _.
Arguments _id {I} _.
Arguments fields {I} _.

Definition Category : Type := WithId string.
Definition Product : Type := WithId string.
(** [InsertProduct] and [UpdateProduct] at run time: an object with some of
    the schema's fields. *)
Abbreviation InsertProduct := (gmap Field.t value).
Abbreviation UpdateProduct := (gmap Field.t value).

(* ===================================================================== *)
(** * The MongoDB driver as an interface *)
(* ===================================================================== *)

(** What the code uses of the [mongodb] package and does not define:
    the [ObjectId] class, the connection strings the [MongoClient]
    constructor accepts, and the order in which [sort] compares the values
    of a field ([None] is an absent field). *)
Class Driver : Type := {
  (** [new MongoClient(uri)]: [false] when the constructor throws
      ([MongoParseError]). *)
  MongoClient_new : string -> bool;
  ObjectId : Type;
  ObjectId_eq_dec :: EqDecision ObjectId;
  (** [new ObjectId(s)]; [None] when the constructor throws. *)
  ObjectId_new : string -> option ObjectId;
  (** [id.toHexString()] *)
  toHexString : ObjectId -> string;
  (** ascending comparison of [sort({ field: 1 })] *)
  bson_le : option value -> option value -> Prop;
  bson_le_dec :: RelDecision bson_le;
  bson_le_total :: Total bson_le;
  bson_le_trans :: Transitive bson_le
}.

(** ** A reference driver

    ObjectIds are 24-digit hexadecimal strings kept in lower case; the
    constructor rejects every other string.  A connection string is
    accepted when it starts with [mongodb://] or [mongodb+srv://] and goes
    on with a host.  Numbers sort numerically, after absent values and
    before values of the other kinds. *)
Module RefDriver.

(** [s] without the prefix [p], when it has it. *)
Fixpoint after (p s : string) : option string :=
  match p, s with
  | EmptyString, _ => Some s
  | String a p', String b s' => if Ascii.eqb a b then after p' s' else None
  | String _ _, EmptyString => None
  end.

Definition names_a_host (rest : string) : bool :=
  match rest with
  | EmptyString => false
  | String c _ => negb (Ascii.eqb c "/") && negb (Ascii.eqb c "?")
  end.

Definition parses (uri : string) : bool :=
  match after "mongodb://" uri, after "mongodb+srv://" uri with
  | Some rest, _ | None, Some rest => names_a_host rest
  | None, None => false
  end.

Definition is_hex (a : ascii) : bool :=
  let n := nat_of_ascii a in
  ((48 <=? n) && (n <=? 57) || (65 <=? n) && (n <=? 70)
   || (97 <=? n) && (n <=? 102))%nat.

Definition lower (a : ascii) : ascii :=
  let n := nat_of_ascii a in
  if ((65 <=? n) && (n <=? 90))%nat then ascii_of_nat (n + 32) else a.

Fixpoint all_hex (s : string) : bool :=
  match s with
  | EmptyString => true
  | String a r => is_hex a && all_hex r
  end.

Fixpoint lower_all (s : string) : string :=
  match s with
  | EmptyString => EmptyString
  | String a r => String (lower a) (lower_all r)
  end.

Definition new (s : string) : option string :=
  if (String.length s =? 24)%nat && all_hex s then Some (lower_all s)
  else None.

(** The sort bracket of a value and its position inside the bracket. *)
Definition key (v : option value) : Z * Z :=
  match v with
  | None => (0, 0)
  | Some (VNum n) => (1, n)
  | Some (VStr _) => (2, 0)
  | Some (VArr _) => (3, 0)
  | Some (VBool b) => (4, if b then 1 else 0)
  end.

Definition le (a b : option value) : Prop :=
  fst (key a) < fst (key b)
  \/ (fst (key a) = fst (key b) /\ snd (key a) <= snd (key b)).

#[global] Instance le_dec : RelDecision le.
Proof. intros a b. unfold le. apply _. Defined.

#[global] Instance le_total : Total le.
Proof. intros a b. unfold le. lia. Qed.

#[global] Instance le_trans : Transitive le.
Proof. intros a b c. unfold le. lia. Qed.

Definition driver : Driver := {|
  MongoClient_new := parses;
  ObjectId := string;
  ObjectId_eq_dec := _;
  ObjectId_new := new;
  toHexString := fun s => s;
  bson_le := le;
  bson_le_dec := le_dec;
  bson_le_total := le_total;
  bson_le_trans := le_trans
|}.

End RefDriver.

(* ===================================================================== *)
(** * The world the server runs in *)
(* ===================================================================== *)

Inductive Event : Type :=
| ConsoleLog (msg : string)
| ConsoleWarn (msg : string)
| ConsoleError (msg : string).

(** A shop registration ([shopSchema]); the optional contact fields and the
    timestamps play no part in the catalog routes and are left out. *)
Module Shop.
Record t (I : Type) : Type := mk {
  _id : I;
  ownerId : string;
  name : string;
  imageUrl : string;
  mongodbUri : string
}.
Arguments mk {I} _ _ _ _ _.
Arguments _id {I} _.
Arguments ownerId {I} _.
Arguments name {I} _.
Arguments imageUrl {I} _.
Arguments mongodbUri {I} _.
End Shop.

Inductive Collection : Set := Categories | Products.

(** A stored document. *)
Abbreviation Doc := (WithId ObjectId).

Section Catalog.
Context {driver : Driver}.

(** The two collections of a shop's database. *)
Record Database : Type := mkDatabase {
  categories : list Doc;
  products : list Doc
}.

Definition empty_database : Database := mkDatabase [] [].

(** A [Db] handle: the client it came from and the database name. *)
Record Db : Type := mkDb {
  client : string;
  databaseName : string
}.

(** - [shops]: the directory store's "shops" collection;
    - [directory_up]: whether the directory store answers;
    - [deployments]: the MongoDB deployments a [MongoClient] can connect
      to, by connection string, each with its databases by name (a
      connection string that has one is a string the driver accepts; one
      that is absent is refused by the driver or reaches no deployment).
      Two connection strings are two entries, also when they name the
      same deployment: what is stated of the stores relates the handles
      of one connection string;
    - [attempts]: every connection string a [MongoClient] was created for
      and asked to connect;
    - [open_clients]: the connected clients that have not been closed;
    - [console]: what was written to the console. *)
Record World : Type := mkWorld {
  shops : list (Shop.t ObjectId);
  directory_up : bool;
  deployments : gmap string (gmap string Database);
  attempts : list string;
  open_clients : list string;
  console : list Event
}.

Definition emit (e : Event) : M World unit :=
  modify (fun w => mkWorld (shops w) (directory_up w) (deployments w)
                           (attempts w) (open_clients w) (console w ++ [e])).

(** [const client = new MongoClient(mongoUri); await client.connect();]
    The constructor throws on a string the driver does not accept, before
    any client exists; [connect()] throws when no deployment answers. *)
Definition MongoClient_connect (mongoUri : string) : M World string :=
  fun w =>
    let w1 := mkWorld (shops w) (directory_up w) (deployments w)
                      (attempts w ++ [mongoUri]) (open_clients w) (console w) in
    match deployments w !! mongoUri with
    | Some _ =>
        (Ok mongoUri,
         mkWorld (shops w1) (directory_up w1) (deployments w1) (attempts w1)
                 (open_clients w1 ++ [mongoUri]) (console w1))
    | None =>
        if MongoClient_new mongoUri
        then (Throw "MongoServerSelectionError", w1)
        else (Throw "MongoParseError", w)
    end.

(** ** server/mongodb.ts *)

Definition objectIdToString (id : ObjectId + string) : string :=
  match id with
  | inl oid => toHexString oid
  | inr s => s
  end.

Definition stringToObjectId (id : string) : result ObjectId :=
  match ObjectId_new id with
  | Some oid => Ok oid
  | None => Throw "BSONError"
  end.

(** ** connectToShopDB (server/storage.ts) *)

(** [uriParts[uriParts.length - 1]?.split('?')[0] || ''] *)
Definition extractDbName (mongoUri : string) : string :=
  let uriParts := JS.split "/" mongoUri in
  match JS.last_part uriParts with
  | Some lastPart => hd "" (JS.split "?" lastPart)
  | None => ""
  end.

Definition dquote : string := String (ascii_of_nat 34) EmptyString.

Definition warning1 : string :=
  "⚠️  No database name found in MongoDB URI. Using default database.".
Definition warning2 : string :=
  "💡 Please update your shop MongoDB URI to include the database name:".
Definition warning3 : string :=
  "   mongodb+srv://...mongodb.net/DATABASE_NAME?params".

Definition connectToShopDB (mongoUri : string) : M World Db :=
  client <- MongoClient_connect mongoUri ;;
  let dbName := extractDbName mongoUri in
  dbName <- (if negb (JS.truthy dbName) || JS.trim_is_empty dbName
             then emit (ConsoleWarn warning1) ;;;
                  emit (ConsoleWarn warning2) ;;;
                  emit (ConsoleWarn warning3) ;;;
                  ret "test"
             else ret dbName) ;;
  emit (ConsoleLog ("🔌 Connecting to shop database: " ++ dquote ++ dbName ++ dquote)) ;;;
  ret (mkDb client dbName).

(** ** The collection operations the helpers use

    Documents of a collection are kept in insertion order.  A database that
    was never written to has empty collections. *)

Definition database_of (w : World) (db : Db) : Database :=
  default empty_database (deployments w !! client db ≫= (.!! databaseName db)).

Definition collection_of (c : Collection) (d : Database) : list Doc :=
  match c with Categories => categories d | Products => products d end.

Definition with_collection (c : Collection) (docs : list Doc) (d : Database)
  : Database :=
  match c with
  | Categories => mkDatabase docs (products d)
  | Products => mkDatabase (categories d) docs
  end.

Definition read (c : Collection) (db : Db) : M World (list Doc) :=
  fun w => (Ok (collection_of c (database_of w db)), w).

Definition write (c : Collection) (db : Db) (docs : list Doc) : M World unit :=
  modify (fun w =>
    let d := with_collection c docs (database_of w db) in
    let dbs := default ∅ (deployments w !! client db) in
    mkWorld (shops w) (directory_up w)
            (<[client db := <[databaseName db := d]> dbs]> (deployments w))
            (attempts w) (open_clients w) (console w)).

(** The comparison of [sort({ displayOrder: 1 })]. *)
Definition displayOrder_le (a b : Doc) : Prop :=
  bson_le (fields a !! Field.displayOrder) (fields b !! Field.displayOrder).

#[global] Instance displayOrder_le_dec : RelDecision displayOrder_le.
Proof. intros a b. unfold displayOrder_le. apply _. Defined.

(** [collection.find(filter).sort({ displayOrder: 1 }).toArray()] *)
Definition find_sorted (c : Collection) (filter : Doc -> bool) (db : Db)
  : M World (list Doc) :=
  docs <- read c db ;;
  ret (merge_sort displayOrder_le (List.filter filter docs)).

Definition has_id (oid : ObjectId) (d : Doc) : bool := bool_decide (_id d = oid).

(** [collection.findOne({ _id: oid })] *)
Definition findOne (c : Collection) (oid : ObjectId) (db : Db)
  : M World (option Doc) :=
  docs <- read c db ;;
  ret (List.find (has_id oid) docs).

(** [collection.insertOne(doc)]: the driver gives the document the
    identifier [fresh]; the server refuses an identifier already in use. *)
Definition insertOne (c : Collection) (fresh : ObjectId)
    (doc : gmap Field.t value) (db : Db) : M World ObjectId :=
  docs <- read c db ;;
  if existsb (has_id fresh) docs then throw "E11000 duplicate key error"
  else write c db (docs ++ [mkWithId fresh doc]) ;;; ret fresh.

(** [$set] on the first document with the given [_id]: the fields of
    [set] replace or extend those of the document. *)
Fixpoint update_first (oid : ObjectId) (set : gmap Field.t value)
    (docs : list Doc) : list Doc * option Doc :=
  match docs with
  | [] => ([], None)
  | d :: rest =>
      if has_id oid d then
        let d' := mkWithId (_id d) (set ∪ fields d) in
        (d' :: rest, Some d')
      else
        let (rest', found) := update_first oid set rest in
        (d :: rest', found)
  end.

(** [collection.findOneAndUpdate({ _id: oid }, { $set: set },
    { returnDocument: "after" })]: the updated document, or [null]. *)
Definition findOneAndUpdate (c : Collection) (oid : ObjectId)
    (set : gmap Field.t value) (db : Db) : M World (option Doc) :=
  docs <- read c db ;;
  let (docs', found) := update_first oid set docs in
  match found with
  | Some d => write c db docs' ;;; ret (Some d)
  | None => ret None
  end.

Fixpoint delete_first (oid : ObjectId) (docs : list Doc) : list Doc * Z :=
  match docs with
  | [] => ([], 0)
  | d :: rest =>
      if has_id oid d then (rest, 1)
      else let (rest', n) := delete_first oid rest in (d :: rest', n)
  end.

(** [collection.deleteOne({ _id: oid })], giving [deletedCount]. *)
Definition deleteOne (c : Collection) (oid : ObjectId) (db : Db) : M World Z :=
  docs <- read c db ;;
  let (docs', n) := delete_first oid docs in
  (if n =? 0 then ret tt else write c db docs') ;;; ret n.

(** ** The catalog helpers (server/storage.ts) *)

(** [{ ...doc, _id: objectIdToString(doc._id) }] *)
Definition stringify_id (d : Doc) : WithId string :=
  mkWithId (objectIdToString (inl (_id d))) (fields d).

Definition getShopCategories (mongoUri : string) : M World (list Category) :=
  db <- connectToShopDB mongoUri ;;
  categories <- find_sorted Categories (fun _ => true) db ;;
  ret (map stringify_id categories).

(** [category && category !== "all" ? { category } : {}]: the string the
    [category] field must equal, or no condition. *)
Definition product_filter (category : option string) : option string :=
  match category with
  | Some c => if JS.truthy c && negb (String.eqb c "all") then Some c else None
  | None => None
  end.

(** Whether a document satisfies the filter. *)
Definition matches (filter : option string) (d : Doc) : bool :=
  match filter with
  | None => true
  | Some c => bool_decide (fields d !! Field.category = Some (VStr c))
  end.

Definition getShopProducts (mongoUri : string) (category : option string)
  : M World (list Product) :=
  db <- connectToShopDB mongoUri ;;
  let filter := product_filter category in
  products <- find_sorted Products (matches filter) db ;;
  ret (map stringify_id products).

Definition getShopProductById (mongoUri productId : string)
  : M World (option Product) :=
  db <- connectToShopDB mongoUri ;;
  oid <- lift (stringToObjectId productId) ;;
  product <- findOne Products oid db ;;
  match product with
  | None => ret None
  | Some product => ret (Some (stringify_id product))
  end.

(** The document [createShopProduct] hands to [insertOne]. *)
Definition normalized (product : InsertProduct) : gmap Field.t value :=
  <[Field.displayOrder := or_else (product !! Field.displayOrder) (VNum 0)]>
  (<[Field.inStock :=
       VBool (negb (bool_decide (product !! Field.inStock = Some (VBool false))))]>
  (<[Field.featured := or_else (product !! Field.featured) (VBool false)]>
  (<[Field.tags := or_else (product !! Field.tags) (VArr [])]> product))).

(** [fresh] is the identifier the driver generates for the new document. *)
Definition createShopProduct (mongoUri : string) (product : InsertProduct)
    (fresh : ObjectId) : M World Product :=
  db <- connectToShopDB mongoUri ;;
  insertedId <- insertOne Products fresh (normalized product) db ;;
  ret (mkWithId (objectIdToString (inl insertedId)) product).

(** Stored documents have no field called [value], so
    [(result as any).value || result] is [result]. *)
Definition updateShopProduct (mongoUri productId : string)
    (product : UpdateProduct) : M World (option Product) :=
  db <- connectToShopDB mongoUri ;;
  oid <- lift (stringToObjectId productId) ;;
  result <- findOneAndUpdate Products oid product db ;;
  match result with
  | None => ret None
  | Some value => ret (Some (stringify_id value))
  end.

Definition deleteShopProduct (mongoUri productId : string) : M World bool :=
  db <- connectToShopDB mongoUri ;;
  oid <- lift (stringToObjectId productId) ;;
  deletedCount <- deleteOne Products oid db ;;
  ret (0 <? deletedCount).

(** ** MongoDBStorage.getShop (server/storage.ts) *)

Definition owned_by (oid : ObjectId) (ownerId : string) (s : Shop.t ObjectId)
  : bool :=
  bool_decide (Shop._id s = oid) && String.eqb (Shop.ownerId s) ownerId.

Definition getShop (id ownerId : string) : M World (option (Shop.t string)) :=
  oid <- lift (stringToObjectId id) ;;
  w <- get ;;
  if directory_up w then
    match List.find (owned_by oid ownerId) (shops w) with
    | None => ret None
    | Some shop =>
        ret (Some (Shop.mk (objectIdToString (inl (Shop._id shop)))
                           (Shop.ownerId shop) (Shop.name shop)
                           (Shop.imageUrl shop) (Shop.mongodbUri shop)))
    end
  else throw "MongoNetworkError".

End Catalog.

(* ===================================================================== *)
(** * JavaScript numbers *)
(* ===================================================================== *)

(** Numbers are IEEE 754 binary64 values: Rocq's primitive floats. *)
Module Num.

(** The double nearest to an integer (ties to even). *)
Definition of_Z (z : Z) : float :=
  SF2Prim (binary_normalize prec emax z 0 false).

(** The literal [0.0126]: the double nearest to 126/10000. *)
Definition ratio : float := 0x1.9ce075f6fd22p-7%float.

(** [Math.round(x)]: the integer nearest to [x], ties towards +∞; [NaN],
    the infinities and the zeros are returned as they are, and a negative
    [x] that rounds to zero gives [-0]. *)
Definition Math_round (x : float) : float :=
  match Prim2SF x with
  | S754_finite s m e =>
      if (0 <=? e)%Z then x
      else
        let v := if s then Z.neg m else Z.pos m in
        let n := (2 * v + 2 ^ (- e)) / 2 ^ (1 - e) in
        if (n =? 0)%Z && s then (-0)%float else of_Z n
  | _ => x
  end.

(** The decimal digits of a natural number. *)
Definition digits (n : N) : string :=
  DecimalString.NilZero.string_of_uint (N.to_uint n).

(** Indian digit grouping on a reversed digit string: the first three
    digits, then groups of two. *)
Fixpoint group2 (rev_digits : list ascii) : list ascii :=
  match rev_digits with
  | a :: b :: ((_ :: _) as rest) => a :: b :: ","%char :: group2 rest
  | _ => rev_digits
  end.

Definition group_enIN (digits : string) : string :=
  match rev (list_ascii_of_string digits) with
  | a :: b :: c :: ((_ :: _) as rest) =>
      string_of_list_ascii (rev (a :: b :: c :: ","%char :: group2 rest))
  | _ => digits
  end.

(** The integer that is printed for a double [x] of integer value [v]:
    of the decimals that convert back to [x], the one with the fewest
    significant digits, the closest to [v] when there are two (the even
    one on a tie).  [j] bounds the number of trailing zeros tried. *)
Fixpoint shortest (x : float) (v : Z) (j : nat) : Z :=
  match j with
  | O => v
  | S k =>
      let p := 10 ^ Z.of_nat j in
      let lo := v / p * p in
      let hi := lo + p in
      match (of_Z lo =? x)%float, (of_Z hi =? x)%float with
      | true, true =>
          if (v - lo <? hi - v)%Z then lo
          else if (hi - v <? v - lo)%Z then hi
          else if Z.even (lo / p) then lo else hi
      | true, false => lo
      | false, true => hi
      | false, false => shortest x v k
      end
  end.

(** [x.toLocaleString("en-IN")] for the numbers the scraper formats: [NaN],
    the infinities, and integer-valued doubles (every formatted number is
    ten times a parsed integer or a [Math.round]).  Below 2^53 the digits
    are those of the value; from there on they are the shortest digits
    that read back as [x], followed by zeros.  The fractional part of a
    non-integer is dropped. *)
Definition toLocaleString_enIN (x : float) : string :=
  match Prim2SF x with
  | S754_nan => "NaN"
  | S754_infinity s => if s then "-∞" else "∞"
  | S754_zero s => if s then "-0" else "0"
  | S754_finite s m e =>
      let n := if (0 <=? e)%Z then Z.pos m * 2 ^ e else Z.pos m / 2 ^ (- e) in
      let printed :=
        if (n <? 2 ^ 53)%Z then n
        else shortest (abs x) n (Z.to_nat (Z.log2 n)) in
      ((if s then "-" else "") ++ group_enIN (digits (Z.to_N printed)))%string
  end.

End Num.

(* ===================================================================== *)
(** * The IBJA rate scraper *)
(* ===================================================================== *)

Module Rates.

Record IBJARates : Type := mkRates {
  gold_24k : string;
  gold_22k : string;
  silver : string;
  (** a [Date], as milliseconds since the epoch *)
  lastUpdated : Z
}.

(** The module's variables [cachedRates] and [lastFetchTime], with the
    console and the URLs requested so far. *)
Record State : Type := mkState {
  cachedRates : option IBJARates;
  lastFetchTime : option Z;
  console : list Event;
  requests : list string
}.

Definition CACHE_DURATION : Z := 60 * 60 * 1000.

(** What [fetch] and cheerio give: a failure of the request, or a response
    with its status and the trimmed texts of the page's [ul li] elements,
    in document order. *)
Inductive Page : Type :=
| NetworkError
| Response (ok : bool) (status : Z) (items : list string).

(** What one call observes of the outside: the clock when the cache is
    checked, the clock when the result object is built, the clock when
    [lastFetchTime] is set, and the answer of the site. *)
Record Env : Type := mkEnv {
  now : Z;
  builtAt : Z;
  fetchedAt : Z;
  page : Page
}.

(** ** Extraction: [text.match(/₹\s*([\d,]+)/)] *)

Definition digit_or_comma (a : ascii) : bool :=
  let n := nat_of_ascii a in
  ((48 <=? n) && (n <=? 57) || (n =? 44))%nat.

(** The longest prefix made of digits and commas. *)
Fixpoint digit_run (s : string) : string :=
  match s with
  | String a r => if digit_or_comma a then String a (digit_run r) else EmptyString
  | EmptyString => EmptyString
  end.

(** [s] without the prefix [p], when it has it. *)
Fixpoint strip_prefix (p s : string) : option string :=
  match p, s with
  | EmptyString, _ => Some s
  | String a p', String b s' => if Ascii.eqb a b then strip_prefix p' s' else None
  | String _ _, EmptyString => None
  end.

(** The first capture group of the leftmost match, or [None] for [null]. *)
Fixpoint match_rupee (text : string) : option string :=
  match text with
  | EmptyString => None
  | String _ rest =>
      match strip_prefix "₹" text with
      | Some after =>
          let run := digit_run (JS.trimStart after) in
          if JS.truthy run then Some run else match_rupee rest
      | None => match_rupee rest
      end
  end.

(** [s.replace(/,/g, "")] *)
Fixpoint remove_commas (s : string) : string :=
  match s with
  | String a r =>
      if Ascii.eqb a ","%char then remove_commas r else String a (remove_commas r)
  | EmptyString => EmptyString
  end.

(** The integer written by a string of decimal digits. *)
Fixpoint decimal (acc : Z) (s : string) : Z :=
  match s with
  | String a r => decimal (10 * acc + (Z.of_nat (nat_of_ascii a) - 48)) r
  | EmptyString => acc
  end.

(** [parseInt(s)] on a string of decimal digits: [NaN] when it is empty. *)
Definition parseInt (s : string) : float :=
  match s with
  | EmptyString => nan
  | _ => Num.of_Z (decimal 0 s)
  end.

(** One step of the [each] callback on [(gold24kPerGram, gold22kPerGram)]. *)
Definition scan_item (acc : float * float) (text : string) : float * float :=
  let (gold24kPerGram, gold22kPerGram) := acc in
  if JS.includes text "Fine Gold (999)" then
    match match_rupee text with
    | Some m => (parseInt (remove_commas m), gold22kPerGram)
    | None => acc
    end
  else if JS.includes text "22 KT" then
    match match_rupee text with
    | Some m => (gold24kPerGram, parseInt (remove_commas m))
    | None => acc
    end
  else acc.

Definition scan (items : list string) : float * float :=
  fold_left scan_item items (0%float, 0%float).

(** ** The derived prices *)

Definition silverPerKg (gold24kPerGram : float) : float :=
  let silverPricePerGram := (gold24kPerGram * Num.ratio)%float in
  Num.Math_round (silverPricePerGram * 1000)%float.

Definition rupees (x : float) : string :=
  ("₹ " ++ Num.toLocaleString_enIN x)%string.

Definition rates_of (gold24kPerGram gold22kPerGram : float) (at_ : Z)
  : IBJARates :=
  let gold24kPer10g := (gold24kPerGram * 10)%float in
  let gold22kPer10g := (gold22kPerGram * 10)%float in
  mkRates (rupees gold24kPer10g) (rupees gold22kPer10g)
          (rupees (silverPerKg gold24kPerGram)) at_.

Definition not_available (at_ : Z) : IBJARates :=
  mkRates "₹ N/A" "₹ N/A" "₹ N/A" at_.

(** ** scrapeIBJARates *)

Definition emit (e : Event) : M State unit :=
  modify (fun s => mkState (cachedRates s) (lastFetchTime s)
                           (console s ++ [e]) (requests s)).

(** [await fetch(url, ...)], up to the check of [response.ok] and the
    parsing of the body: the item texts of the page. *)
Definition fetch_items (url : string) (e : Env) : M State (list string) :=
  modify (fun s => mkState (cachedRates s) (lastFetchTime s) (console s)
                           (requests s ++ [url])) ;;;
  match page e with
  | NetworkError => throw "fetch failed"
  | Response ok status items =>
      if negb ok then throw "Failed to fetch IBJA website" else ret items
  end.

(** The two assignments [cachedRates = ...; lastFetchTime = new Date();] *)
Definition store (r : IBJARates) (t : Z) : M State unit :=
  modify (fun s => mkState (Some r) (Some t) (console s) (requests s)).

(** Whether the first [if] returns the cached value. *)
Definition fresh (s : State) (e : Env) : option IBJARates :=
  match cachedRates s, lastFetchTime s with
  | Some cached, Some t =>
      let timeSinceLastFetch := now e - t in
      if timeSinceLastFetch <? CACHE_DURATION then Some cached else None
  | _, _ => None
  end.

(** The body of the [try] block. *)
Definition try_body (e : Env) : M State IBJARates :=
  items <- fetch_items "https://ibja.co/" e ;;
  let (gold24kPerGram, gold22kPerGram) := scan items in
  if (gold24kPerGram =? 0)%float || (gold22kPerGram =? 0)%float
  then throw "Could not parse gold rates from IBJA website"
  else
    let rates := rates_of gold24kPerGram gold22kPerGram (builtAt e) in
    store rates (fetchedAt e) ;;;
    emit (ConsoleLog "✅ IBJA rates fetched successfully:") ;;;
    ret rates.

(** The [catch] block. *)
Definition catch_body (e : Env) (error : string) : M State IBJARates :=
  emit (ConsoleError "❌ Error fetching IBJA rates:") ;;;
  s <- get ;;
  match cachedRates s with
  | Some cached =>
      emit (ConsoleLog "⚠️  Returning stale cached rates due to error") ;;;
      ret cached
  | None => ret (not_available (builtAt e))
  end.

(** The console messages carry their fixed text; the age in minutes that
    the cache-hit message interpolates is left out. *)
Definition scrapeIBJARates (e : Env) : M State IBJARates :=
  s <- get ;;
  match fresh s e with
  | Some cached =>
      emit (ConsoleLog "📊 Serving cached IBJA rates") ;;;
      ret cached
  | None =>
      emit (ConsoleLog "🔍 Fetching fresh IBJA rates from https://ibja.co/") ;;;
      try_catch (try_body e) (catch_body e)
  end.

End Rates.

(* ===================================================================== *)
(** * The product schema (shared/schema.ts) *)
(* ===================================================================== *)

Module Schema.









End Schema.

(* ===================================================================== *)
(** * The shop-catalog routes (server/routes.ts) *)
(* ===================================================================== *)

Section Routes.
Context {driver : Driver}.

(** Request bodies and the two zod schemas that validate them: [None]
    stands for a [ZodError]. *)
Context {Body : Type}.
Variable insertProductSchema_parse : Body -> option InsertProduct.
Variable updateProductSchema_parse : Body -> option UpdateProduct.

(** A request that passed [requireAuth]: [userId] is the administrator
    the session belongs to.  [generatedId] is the identifier the driver
    would generate, should the request insert a document. *)
Record Request : Type := mkRequest {
  params_id : string;
  params_productId : string;
  userId : string;
  query_category : option string;
  body : Body;
  generatedId : ObjectId
}.

Inductive Json : Type :=
| Message (message : string)
| CategoryList (categories : list Category)
| ProductList (products : list Product)
| ProductJson (product : Product).

Record Res : Type := mkRes {
  status : Z;
  json : Json
}.

Definition parsed {A} (o : option A) : M World A :=
  match o with
  | Some a => ret a
  | None => throw "ZodError"
  end.

(** GET /api/shops/:id/categories *)
Definition get_categories (req : Request) : M World Res :=
  try_catch
    (shop <- getShop (params_id req) (userId req) ;;
     match shop with
     | None => ret (mkRes 404 (Message "Shop not found"))
     | Some shop =>
         categories <- getShopCategories (Shop.mongodbUri shop) ;;
         ret (mkRes 200 (CategoryList categories))
     end)
    (fun _ => ret (mkRes 500 (Message "Failed to fetch categories"))).

(** GET /api/shops/:id/products *)
Definition get_products (req : Request) : M World Res :=
  try_catch
    (shop <- getShop (params_id req) (userId req) ;;
     match shop with
     | None => ret (mkRes 404 (Message "Shop not found"))
     | Some shop =>
         let category := query_category req in
         products <- getShopProducts (Shop.mongodbUri shop) category ;;
         ret (mkRes 200 (ProductList products))
     end)
    (fun _ => ret (mkRes 500 (Message "Failed to fetch products"))).

(** GET /api/shops/:id/products/:productId *)
Definition get_product (req : Request) : M World Res :=
  try_catch
    (shop <- getShop (params_id req) (userId req) ;;
     match shop with
     | None => ret (mkRes 404 (Message "Shop not found"))
     | Some shop =>
         product <- getShopProductById (Shop.mongodbUri shop)
                                       (params_productId req) ;;
         match product with
         | None => ret (mkRes 404 (Message "Product not found"))
         | Some product => ret (mkRes 200 (ProductJson product))
         end
     end)
    (fun _ => ret (mkRes 500 (Message "Failed to fetch product"))).

(** POST /api/shops/:id/products *)
Definition post_product (req : Request) : M World Res :=
  try_catch
    (shop <- getShop (params_id req) (userId req) ;;
     match shop with
     | None => ret (mkRes 404 (Message "Shop not found"))
     | Some shop =>
         validatedData <- parsed (insertProductSchema_parse (body req)) ;;
         product <- createShopProduct (Shop.mongodbUri shop) validatedData
                                      (generatedId req) ;;
         ret (mkRes 201 (ProductJson product))
     end)
    (fun _ => ret (mkRes 400 (Message "Invalid product data"))).

(** PUT /api/shops/:id/products/:productId *)
Definition put_product (req : Request) : M World Res :=
  try_catch
    (shop <- getShop (params_id req) (userId req) ;;
     match shop with
     | None => ret (mkRes 404 (Message "Shop not found"))
     | Some shop =>
         validatedData <- parsed (updateProductSchema_parse (body req)) ;;
         product <- updateShopProduct (Shop.mongodbUri shop)
                                      (params_productId req) validatedData ;;
         match product with
         | None => ret (mkRes 404 (Message "Product not found"))
         | Some product => ret (mkRes 200 (ProductJson product))
         end
     end)
    (fun _ => ret (mkRes 400 (Message "Invalid product data"))).

(** DELETE /api/shops/:id/products/:productId *)
Definition delete_product (req : Request) : M World Res :=
  try_catch
    (shop <- getShop (params_id req) (userId req) ;;
     match shop with
     | None => ret (mkRes 404 (Message "Shop not found"))
     | Some shop =>
         success <- deleteShopProduct (Shop.mongodbUri shop)
                                      (params_productId req) ;;
         if negb success
         then ret (mkRes 404 (Message "Product not found"))
         else ret (mkRes 200 (Message "Product deleted successfully"))
     end)
    (fun _ => ret (mkRes 500 (Message "Failed to delete product"))).

Inductive CatalogRoute : Set :=
| GetCategories | GetProducts | GetProduct
| PostProduct | PutProduct | DeleteProduct.

Definition handle (route : CatalogRoute) : Request -> M World Res :=
  match route with
  | GetCategories => get_categories
  | GetProducts => get_products
  | GetProduct => get_product
  | PostProduct => post_product
  | PutProduct => put_product
  | DeleteProduct => delete_product
  end.

End Routes.

(* ===================================================================== *)
(** * Vocabulary of the statements *)
(* ===================================================================== *)

(** What the [try] block of [scrapeIBJARates] obtains from a given answer
    of the site: the two per-gram prices, or the exception that sends the
    call to the [catch] block (a failed request, a response that is not
    ok, or a page without both prices). *)
Definition fetch_outcome (e : Rates.Env) : result (float * float) :=
  match Rates.page e with
  | Rates.NetworkError => Throw "fetch failed"
  | Rates.Response ok status items =>
      if negb ok then Throw "Failed to fetch IBJA website"
      else
        let (gold24kPerGram, gold22kPerGram) := Rates.scan items in
        if (gold24kPerGram =? 0)%float || (gold22kPerGram =? 0)%float
        then Throw "Could not parse gold rates from IBJA website"
        else Ok (gold24kPerGram, gold22kPerGram)
  end.

(** The integer a double stands for, when it is one. *)
Definition integer_value (x : float) : option Z :=
  match Prim2SF x with
  | S754_zero _ => Some 0
  | S754_finite s m e =>
      let v := if s then Z.neg m else Z.pos m in
      if (0 <=? e)%Z then Some (v * 2 ^ e)
      else if (v mod 2 ^ (- e) =? 0)%Z then Some (v / 2 ^ (- e)) else None
  | _ => None
  end.

(** [silverPerKg] agrees with exact arithmetic at the price [g]: 12.6 g
    rounded to the nearest integer is [(126 g + 5) / 10]. *)
Definition silver_exact_at (g : Z) : bool :=
  match integer_value (Rates.silverPerKg (Num.of_Z g)) with
  | Some n => (n =? (126 * g + 5) / 10)%Z
  | None => false
  end.

(** [silver_exact_at] on [count] consecutive prices from [g] on. *)
Fixpoint silver_exact_from (g : Z) (count : nat) : bool :=
  match count with
  | O => true
  | S k => if silver_exact_at g then silver_exact_from (g + 1) k else false
  end.

(** The page the scraper requests. *)
Definition url : string := "https://ibja.co/".

(** The state in which the [try] block starts: the state of the call with
    the announcement of the fetch on the console. *)
Definition announced (s : Rates.State) : Rates.State :=
  Rates.mkState (Rates.cachedRates s) (Rates.lastFetchTime s)
    (Rates.console s
     ++ [ConsoleLog "🔍 Fetching fresh IBJA rates from https://ibja.co/"])
    (Rates.requests s).

(** Whether the character [c] occurs in [s]. *)
Fixpoint has_char (c : ascii) (s : string) : bool :=
  match s with
  | EmptyString => false
  | String a r => Ascii.eqb a c || has_char c r
  end.

(** Whether [connectToShopDB] takes a name for missing: it is empty or
    white space only. *)
Definition blank (dbName : string) : bool :=
  negb (JS.truthy dbName) || JS.trim_is_empty dbName.

(** The database name [connectToShopDB] settles on. *)
Definition resolvedDbName (mongoUri : string) : string :=
  if blank (extractDbName mongoUri) then "test" else extractDbName mongoUri.

(** What [connectToShopDB] writes to the console. *)
Definition connect_console (mongoUri : string) : list Event :=
  (if blank (extractDbName mongoUri)
   then [ConsoleWarn warning1; ConsoleWarn warning2; ConsoleWarn warning3]
   else [])
  ++ [ConsoleLog ("🔌 Connecting to shop database: "
                  ++ dquote ++ resolvedDbName mongoUri ++ dquote)].

(** The shape [scheme://host/dbName?query]. *)
Definition connection_string (scheme host dbName query : string) : string :=
  (scheme ++ "://" ++ host ++ "/" ++ dbName ++ "?" ++ query)%string.

(** What the [catch] block of each catalog route answers. *)
Definition generic_error (route : CatalogRoute) : Res :=
  match route with
  | GetCategories => mkRes 500 (Message "Failed to fetch categories")
  | GetProducts => mkRes 500 (Message "Failed to fetch products")
  | GetProduct => mkRes 500 (Message "Failed to fetch product")
  | PostProduct => mkRes 400 (Message "Invalid product data")
  | PutProduct => mkRes 400 (Message "Invalid product data")
  | DeleteProduct => mkRes 500 (Message "Failed to delete product")
  end.

Section Worlds.
Context {driver : Driver}.

(** The world after a client was created for [mongoUri] and connected. *)
Definition connected (mongoUri : string) (w : World) : World :=
  mkWorld (shops w) (directory_up w) (deployments w)
          (attempts w ++ [mongoUri]) (open_clients w ++ [mongoUri])
          (console w ++ connect_console mongoUri).

(** The world after a client was created for [mongoUri] and failed to
    connect. *)
Definition refused (mongoUri : string) (w : World) : World :=
  mkWorld (shops w) (directory_up w) (deployments w)
          (attempts w ++ [mongoUri]) (open_clients w) (console w).

End Worlds.

Section CatalogVocabulary.
Context {driver : Driver}.

(** The handle [connectToShopDB] returns for a connection string. *)
Definition shop_db (mongoUri : string) : Db :=
  mkDb mongoUri (resolvedDbName mongoUri).

(** The products of the shop's store, as [connectToShopDB] sees it. *)
Definition catalog (mongoUri : string) (w : World) : list Doc :=
  products (database_of w (shop_db mongoUri)).

(** The world after [write]. *)
Definition stored (c : Collection) (db : Db) (docs : list Doc) (w : World)
  : World :=
  mkWorld (shops w) (directory_up w)
          (<[client db :=
               <[databaseName db := with_collection c docs (database_of w db)]>
               (default ∅ (deployments w !! client db))]> (deployments w))
          (attempts w) (open_clients w) (console w).

(** A product of the API whose [category] field is the string [c]. *)
Definition has_category (c : string) (p : Product) : bool :=
  bool_decide (fields p !! Field.category = Some (VStr c)).

(** Ascending display order on the products of the API. *)
Definition by_displayOrder (a b : Product) : Prop :=
  bson_le (fields a !! Field.displayOrder) (fields b !! Field.displayOrder).

(** The six catalog operations, with their arguments. *)
Inductive CatalogOp : Type :=
| ListCategories
| ListProducts (category : option string)
| GetProductById (productId : string)
| CreateProduct (product : InsertProduct) (fresh : ObjectId)
| UpdateProduct_ (productId : string) (product : UpdateProduct)
| DeleteProduct_ (productId : string).

(** Running an operation against a shop's store: whether it completed
    without an exception, and the world it leaves. *)
Definition run_op (op : CatalogOp) (mongoUri : string) (w : World)
  : bool * World :=
  match op with
  | ListCategories =>
      let (r, w') := getShopCategories mongoUri w in (is_ok r, w')
  | ListProducts category =>
      let (r, w') := getShopProducts mongoUri category w in (is_ok r, w')
  | GetProductById productId =>
      let (r, w') := getShopProductById mongoUri productId w in (is_ok r, w')
  | CreateProduct product fresh =>
      let (r, w') := createShopProduct mongoUri product fresh w in (is_ok r, w')
  | UpdateProduct_ productId product =>
      let (r, w') := updateShopProduct mongoUri productId product w in
      (is_ok r, w')
  | DeleteProduct_ productId =>
      let (r, w') := deleteShopProduct mongoUri productId w in (is_ok r, w')
  end.

(** The payload carries [tags], [featured], [inStock] and [displayOrder]
    with values of the kinds [insertProductSchema] produces. *)
Definition carries_defaults (product : InsertProduct) : Prop :=
  (exists l, product !! Field.tags = Some (VArr l))
  /\ (exists b, product !! Field.featured = Some (VBool b))
  /\ (exists b, product !! Field.inStock = Some (VBool b))
  /\ (exists n, product !! Field.displayOrder = Some (VNum n)).

(** A computation that creates no client and neither opens nor closes a
    connection. *)
Definition keeps_clients {A} (m : M World A) : Prop :=
  forall w, open_clients (snd (m w)) = open_clients w
            /\ attempts (snd (m w)) = attempts w.

End CatalogVocabulary.

(** ** A sample shop, for the examples *)

Module Sample.

Definition driver : Driver := RefDriver.driver.

Definition mongoUri : string := "mongodb://db.example/shop?retryWrites=true".

Definition ring_id : @ObjectId driver := "64b7f0a1c2d3e4f5a6b7c8d9".
Definition chain_id : @ObjectId driver := "64b7f0a1c2d3e4f5a6b7c8da".
Definition shop_id : @ObjectId driver := "64b7f0a1c2d3e4f5a6b7c8d0".
(** An identifier not yet in use. *)
Definition new_id : @ObjectId driver := "64b7f0a1c2d3e4f5a6b7c8ff".

Definition ring : @WithId (@ObjectId driver) :=
  mkWithId ring_id
    {[ Field.name := VStr "Ring"; Field.category := VStr "rings";
       Field.displayOrder := VNum 2; Field.price := VNum 4500 ]}.

Definition chain : @WithId (@ObjectId driver) :=
  mkWithId chain_id
    {[ Field.name := VStr "Chain"; Field.category := VStr "chains";
       Field.displayOrder := VNum 1; Field.price := VNum 9900 ]}.

Definition shop : Shop.t (@ObjectId driver) :=
  Shop.mk shop_id "alice" "Alice's Jewels" "/alice.png"
          mongoUri.

(** One registered shop, owned by "alice", whose store holds two
    products; nothing is connected yet. *)
Definition world : @World driver :=
  mkWorld [shop] true
          {[ mongoUri := {[ "shop" := mkDatabase [] [ring; chain] ]} ]}
          [] [] [].

(** The same world, with one more reachable connection string. *)
Definition world_with (uri : string) : @World driver :=
  mkWorld [shop] true
          (<[uri := ∅]> (deployments world))
          [] [] [].

Definition no_body (_ : unit) : option (gmap Field.t value) := None.

Definition request (id productId user : string) : @Request driver unit :=
  @mkRequest driver unit id productId user None tt new_id.

Definition page : Rates.Page :=
  Rates.Response true 200
    ["Fine Gold (999) ₹ 7,000"; "22 KT ₹ 6,412"; "Silver (999) ₹ 90,000"].

(** A page on which the 24-carat price has no digit. *)
Definition page_without_digits : Rates.Page :=
  Rates.Response true 200 ["Fine Gold (999) ₹ ,"; "22 KT ₹ 6,412"].

Definition empty_cache : Rates.State := Rates.mkState None None [] [].

(** A cache filled at time 1001. *)
Definition old_rates : Rates.IBJARates :=
  Rates.rates_of (Num.of_Z 7000) (Num.of_Z 6412) 1000.

Definition old_cache : Rates.State :=
  Rates.mkState (Some old_rates) (Some 1001) [] [url].


(** A payload that sets none of [tags], [featured], [inStock] and
    [displayOrder]. *)
Definition bangle : gmap Field.t value :=
  {[ Field.name := VStr "Bangle"; Field.category := VStr "bangles";
     Field.price := VNum 12000 ]}.

End Sample.

(* ===================================================================== *)
(** * Further vocabulary *)
(* ===================================================================== *)

Section MoreCatalogVocabulary.
Context {driver : Driver}.

(** The categories of the shop's store, as [connectToShopDB] sees it. *)
Definition category_list (mongoUri : string) (w : World) : list Doc :=
  categories (database_of w (shop_db mongoUri)).

(** The operations that only read. *)
Definition reads_only (op : CatalogOp) : bool :=
  match op with
  | ListCategories | ListProducts _ | GetProductById _ => true
  | _ => false
  end.

(** No two documents share an [_id]. *)
Definition unique_ids (docs : list Doc) : Prop := NoDup (map _id docs).

End MoreCatalogVocabulary.

#[global] Instance Db_eq_dec : EqDecision Db.
Proof. solve_decision. Defined.

(* ===================================================================== *)
(** * The directory connection (server/mongodb.ts) *)
(* ===================================================================== *)

Module Connection.

(** The four indexes [createIndexes] asks for, in the order of the calls:
    [users { email: 1 }] (unique), [shops { ownerId: 1 }],
    [shops { createdAt: -1 }], [shops { name: 1 }]. *)
Inductive Index : Set :=
| users_email | shops_ownerId | shops_createdAt | shops_name.

Definition requested : list Index :=
  [users_email; shops_ownerId; shops_createdAt; shops_name].

(** The process environment and the outside: the two variables, whether
    [new MongoClient(uri)] accepts a string, whether [client.connect()]
    resolves, and whether a [createIndex] call resolves. *)
Record Env : Type := mkEnv {
  ADMIN_MONGODB_URI : option string;
  MONGODB_URI : option string;
  parses : string -> bool;
  accepts : string -> bool;
  builds : Index -> bool
}.

(** The module variables [client] and [db] of mongodb.ts (a client is
    known by its connection string), [storageInstance] of storage.ts (a
    [MongoDBStorage] is known by the [Db] it holds), the indexes built so
    far, the clients closed so far, and the console. *)
Record State : Type := mkState {
  client : option string;
  db : option Db;
  storageInstance : option Db;
  indexes : list (Db * Index);
  closed : list string;
  console : list Event
}.

Definition initial : State := mkState None None None [] [] [].

Definition emit (e : Event) : M State unit :=
  modify (fun s => mkState (client s) (db s) (storageInstance s) (indexes s)
                           (closed s) (console s ++ [e])).

(** [a || b] on two environment variables. *)
Definition env_or (a b : option string) : option string :=
  match a with
  | Some s => if JS.truthy s then Some s else b
  | None => b
  end.

(** [mongoUri.split('/').pop()?.split('?')[0] || 'jewelry_admin_panel'] *)
Definition dbName_of (mongoUri : string) : string :=
  match JS.last_part (JS.split "/" mongoUri) with
  | Some last =>
      let name := hd "" (JS.split "?" last) in
      if JS.truthy name then name else "jewelry_admin_panel"
  | None => "jewelry_admin_panel"
  end.

(** [await database.collection(...).createIndex(...)] *)
Definition createIndex (e : Env) (database : Db) (i : Index) : M State unit :=
  if builds e i
  then modify (fun s => mkState (client s) (db s) (storageInstance s)
                                (indexes s ++ [(database, i)])
                                (closed s) (console s))
  else throw "MongoServerError".

Fixpoint createIndex_each (e : Env) (database : Db) (l : list Index)
  : M State unit :=
  match l with
  | [] => ret tt
  | i :: rest => createIndex e database i ;;; createIndex_each e database rest
  end.

Definition createIndexes (e : Env) (database : Db) : M State unit :=
  try_catch
    (createIndex_each e database requested ;;;
     emit (ConsoleLog "MongoDB indexes created successfully"))
    (fun _ => emit (ConsoleError "Error creating indexes:")).

Definition not_set : string :=
  "ADMIN_MONGODB_URI or MONGODB_URI environment variable is not set. Please add it to your .env file.".

Definition connectToMongoDB (e : Env) : M State Db :=
  s <- get ;;
  match db s with
  | Some d => ret d
  | None =>
      match env_or (ADMIN_MONGODB_URI e) (MONGODB_URI e) with
      | None => throw not_set
      | Some mongoUri =>
          if negb (JS.truthy mongoUri) then throw not_set
          else
            try_catch
              ((if parses e mongoUri
                then modify (fun s => mkState (Some mongoUri) (db s)
                                        (storageInstance s) (indexes s)
                                        (closed s) (console s))
                else throw "MongoParseError") ;;;
               (if accepts e mongoUri then ret tt
                else throw "MongoServerSelectionError") ;;;
               let dbName := dbName_of mongoUri in
               let d := mkDb mongoUri dbName in
               modify (fun s => mkState (client s) (Some d)
                                  (storageInstance s) (indexes s)
                                  (closed s) (console s)) ;;;
               emit (ConsoleLog ("Connected to MongoDB database: " ++ dbName)) ;;;
               createIndexes e d ;;;
               ret d)
              (fun error =>
                 emit (ConsoleError "Failed to connect to MongoDB:") ;;;
                 throw error)
      end
  end.

Definition getDatabase : M State Db :=
  s <- get ;;
  match db s with
  | None => throw "Database not connected. Call connectToMongoDB first."
  | Some d => ret d
  end.

Definition closeConnection : M State unit :=
  s <- get ;;
  match client s with
  | Some c =>
      modify (fun s => mkState None None (storageInstance s) (indexes s)
                               (closed s ++ [c]) (console s)) ;;;
      emit (ConsoleLog "MongoDB connection closed")
  | None => ret tt
  end.

(** [getStorage] of storage.ts: the constructor of [MongoDBStorage], called
    without a database, takes the one [getDatabase] returns. *)
Definition getStorage : M State Db :=
  s <- get ;;
  match storageInstance s with
  | Some storage => ret storage
  | None =>
      database <- getDatabase ;;
      modify (fun s => mkState (client s) (db s) (Some database) (indexes s)
                               (closed s) (console s)) ;;;
      ret database
  end.

(** The first statement of [registerRoutes] (server/routes.ts). *)
Definition registerRoutes_connect (e : Env) : M State unit :=
  try_catch
    (connectToMongoDB e ;;;
     emit (ConsoleLog "MongoDB connected successfully"))
    (fun error =>
       emit (ConsoleError "Failed to connect to MongoDB:") ;;;
       throw error).

End Connection.

(** Whether [connectToMongoDB] can succeed in an environment: a connection
    string is set, the driver accepts it and the deployment answers. *)
Definition connectable (e : Connection.Env) : bool :=
  match Connection.env_or (Connection.ADMIN_MONGODB_URI e)
                          (Connection.MONGODB_URI e) with
  | Some mongoUri =>
      JS.truthy mongoUri && Connection.parses e mongoUri
      && Connection.accepts e mongoUri
  | None => false
  end.

Definition not_connected : string :=
  "Database not connected. Call connectToMongoDB first.".

(* ===================================================================== *)
(** * The shop directory (MongoDBStorage, server/storage.ts) *)
(* ===================================================================== *)

Module Directory.

(** [InsertShop]: what [insertShopSchema] lets through. *)
Record InsertShop : Type := mkInsertShop {
  name : string;
  imageUrl : string;
  mongodbUri : string;
  description : option string;
  address : option string;
  phone : option string;
  email : option string;
  website : option string
}.

(** [UpdateShop]: the same fields, each optional. *)
Record UpdateShop : Type := mkUpdateShop {
  set_name : option string;
  set_imageUrl : option string;
  set_mongodbUri : option string;
  set_description : option string;
  set_address : option string;
  set_phone : option string;
  set_email : option string;
  set_website : option string
}.

(** A shop with an [_id] of type [I]: a document of the "shops" collection
    when [I] is the driver's ObjectId, a [Shop] of the API when [I] is
    [string].  Dates are milliseconds since the epoch. *)
Record Shop (I : Type) : Type := mkShop {
  _id : I;
  ownerId : string;
  data : InsertShop;
  createdAt : Z;
  updatedAt : Z
}.
Arguments mkShop {I} _ _ _ _ _.
Arguments _id {I} _.
Arguments ownerId {I} _.
Arguments data {I} _.
Arguments createdAt {I} _.
Arguments updatedAt {I} _.

(** [{ ...old, ...set }] on the fields of [InsertShop]. *)
Definition assign (set : UpdateShop) (old : InsertShop) : InsertShop :=
  mkInsertShop
    (default (name old) (set_name set))
    (default (imageUrl old) (set_imageUrl set))
    (default (mongodbUri old) (set_mongodbUri set))
    (match set_description set with Some x => Some x | None => description old end)
    (match set_address set with Some x => Some x | None => address old end)
    (match set_phone set with Some x => Some x | None => phone old end)
    (match set_email set with Some x => Some x | None => email old end)
    (match set_website set with Some x => Some x | None => website old end).

Section Storage.
Context {driver : Driver}.

(** The "shops" collection of the directory database, in insertion order,
    and whether the database answers. *)
Record Store : Type := mkStore {
  shop_docs : list (Shop ObjectId);
  up : bool
}.

Definition collection : M Store (list (Shop ObjectId)) :=
  s <- get ;;
  if up s then ret (shop_docs s) else throw "MongoNetworkError".

Definition replace (docs : list (Shop ObjectId)) : M Store unit :=
  modify (fun s => mkStore docs (up s)).

(** [{ ...shop, _id: objectIdToString(shop._id), ... }]; the two dates
    are [Date] objects already. *)
Definition stringify (d : Shop ObjectId) : Shop string :=
  mkShop (objectIdToString (inl (_id d))) (ownerId d) (data d)
         (createdAt d) (updatedAt d).

(** The filter [{ ownerId }]. *)
Definition of_owner (owner : string) (d : Shop ObjectId) : bool :=
  String.eqb (ownerId d) owner.

(** The filter [{ _id: oid, ownerId }]. *)
Definition is_shop (oid : ObjectId) (owner : string) (d : Shop ObjectId)
  : bool :=
  bool_decide (_id d = oid) && String.eqb (ownerId d) owner.

(** The comparison of [sort({ createdAt: -1 })]. *)
Definition newest_first {I} (a b : Shop I) : Prop := createdAt b <= createdAt a.

#[global] Instance newest_first_dec {I} : RelDecision (@newest_first I).
Proof. intros a b. unfold newest_first. apply _. Defined.


(** [insertOne] gives the document the identifier [fresh] the driver
    generated; [now] is [new Date()]. *)
Definition createShop (shop : InsertShop) (owner : string) (now : Z)
    (fresh : ObjectId) : M Store (Shop string) :=
  docs <- collection ;;
  (if existsb (fun d => bool_decide (_id d = fresh)) docs
   then throw "E11000 duplicate key error"
   else replace (docs ++ [mkShop fresh owner shop now now])) ;;;
  ret (mkShop (objectIdToString (inl fresh)) owner shop now now).

(** [$set: { ...shop, updatedAt }] on the first document the filter
    selects. *)
Fixpoint update_first (oid : ObjectId) (owner : string) (set : UpdateShop)
    (now : Z) (docs : list (Shop ObjectId))
  : list (Shop ObjectId) * option (Shop ObjectId) :=
  match docs with
  | [] => ([], None)
  | d :: rest =>
      if is_shop oid owner d then
        let d' := mkShop (_id d) (ownerId d) (assign set (data d))
                         (createdAt d) now in
        (d' :: rest, Some d')
      else
        let (rest', found) := update_first oid owner set now rest in
        (d :: rest', found)
  end.

Definition updateShop (id : string) (shop : UpdateShop) (owner : string)
    (now : Z) : M Store (option (Shop string)) :=
  oid <- lift (stringToObjectId id) ;;
  docs <- collection ;;
  let (docs', result) := update_first oid owner shop now docs in
  match result with
  | Some value => replace docs' ;;; ret (Some (stringify value))
  | None => ret None
  end.

Fixpoint delete_first (oid : ObjectId) (owner : string)
    (docs : list (Shop ObjectId)) : list (Shop ObjectId) * Z :=
  match docs with
  | [] => ([], 0)
  | d :: rest =>
      if is_shop oid owner d then (rest, 1)
      else let (rest', n) := delete_first oid owner rest in (d :: rest', n)
  end.

Definition deleteShop (id : string) (owner : string) : M Store bool :=
  oid <- lift (stringToObjectId id) ;;
  docs <- collection ;;
  let (docs', deletedCount) := delete_first oid owner docs in
  (if deletedCount =? 0 then ret tt else replace docs') ;;;
  ret (0 <? deletedCount).

(** What [getShop] sees of a document, and the world in which the
    directory is this store. *)
Definition core (d : Shop ObjectId) : Shop.t ObjectId :=
  Shop.mk (_id d) (ownerId d) (name (data d)) (imageUrl (data d))
                    (mongodbUri (data d)).

Definition world_of (s : Store) (w : World) : World :=
  mkWorld (map core (shop_docs s)) (up s) (deployments w) (attempts w)
          (open_clients w) (console w).

End Storage.
End Directory.

(** The shops of a store that do not belong to [owner]. *)
Definition shops_of_others `{Driver} (owner : string) (s : Directory.Store)
  : list (Directory.Shop ObjectId) :=
  List.filter (fun d => negb (Directory.of_owner owner d))
              (Directory.shop_docs s).

(* ===================================================================== *)
(** * Sessions (server/routes.ts) and users (server/storage.ts) *)
(* ===================================================================== *)

Module Auth.

(** [s.replace(pattern, "")] for a string [pattern]: the first occurrence
    is removed. *)
Fixpoint remove_first (pattern s : string) {struct s} : string :=
  match Rates.strip_prefix pattern s with
  | Some rest => rest
  | None =>
      match s with
      | String a r => String a (remove_first pattern r)
      | EmptyString => EmptyString
      end
  end.

(** A user with an [_id] of type [I]; [password] is the bcrypt hash. *)
Record User (I : Type) : Type := mkUser {
  _id : I;
  email : string;
  password : string;
  name : string;
  createdAt : Z
}.
Arguments mkUser {I} _ _ _ _ _.
Arguments _id {I} _.
Arguments email {I} _.
Arguments password {I} _.
Arguments name {I} _.
Arguments createdAt {I} _.

Record LoginUser : Type := mkLoginUser {
  login_email : string;
  login_password : string
}.

(** What a handler sends: an error with its status and message, or the
    session with the public fields of the user. *)
Inductive Reply : Type :=
| Fail (status : Z) (message : string)
| LoggedIn (sessionId : string) (_id email name : string)
| LoggedOut.

(** What [requireAuth] does: it answers 401 "Unauthorized", or sets
    [req.userId] and calls [next()]. *)
Inductive Checked : Type :=
| Unauthorized
| Next (userId : string).

Section Server.
Context {driver : Driver} {Body : Type}.
Variable loginSchema_parse : Body -> option LoginUser.
Variable bcrypt_compare : string -> string -> bool.

(** The "users" collection, whether the directory database answers, and
    the [sessions] map. *)
Record Server : Type := mkServer {
  users : list (User ObjectId);
  up : bool;
  sessions : gmap string string
}.

(** [MongoDBStorage.getUserByEmail] *)
Definition getUserByEmail (email_ : string) : M Server (option (User string)) :=
  s <- get ;;
  if up s then
    match List.find (fun u => String.eqb (email u) email_) (users s) with
    | None => ret None
    | Some user =>
        ret (Some (mkUser (objectIdToString (inl (_id user))) (email user)
                          (password user) (name user) (createdAt user)))
    end
  else throw "MongoNetworkError".

(** [req.headers.authorization?.replace("Bearer ", "")] *)
Definition sessionId_of (authorization : option string) : option string :=
  option_map (remove_first "Bearer ") authorization.

Definition requireAuth (authorization : option string)
    (sessions : gmap string string) : Checked :=
  match sessionId_of authorization with
  | None => Unauthorized
  | Some sessionId =>
      if negb (JS.truthy sessionId) then Unauthorized
      else match sessions !! sessionId with
           | Some userId => Next userId
           | None => Unauthorized
           end
  end.

(** POST /api/auth/login; [uuid] is what [randomUUID()] returns. *)
Definition login (body : Body) (uuid : string) : M Server Reply :=
  try_catch
    (validatedData <- match loginSchema_parse body with
                      | Some data => ret data
                      | None => throw "ZodError"
                      end ;;
     user <- getUserByEmail (login_email validatedData) ;;
     match user with
     | None => ret (Fail 401 "Invalid credentials")
     | Some user =>
         let isValidPassword :=
           bcrypt_compare (login_password validatedData) (password user) in
         if negb isValidPassword then ret (Fail 401 "Invalid credentials")
         else
           let sessionId := uuid in
           modify (fun s => mkServer (users s) (up s)
                              (<[sessionId := _id user]> (sessions s))) ;;;
           ret (LoggedIn sessionId (_id user) (email user) (name user))
     end)
    (fun _ => ret (Fail 400 "Invalid login data")).

(** POST /api/auth/logout, behind [requireAuth]. *)
Definition logout (authorization : option string) : M Server Reply :=
  s <- get ;;
  match requireAuth authorization (sessions s) with
  | Unauthorized => ret (Fail 401 "Unauthorized")
  | Next _ =>
      match sessionId_of authorization with
      | Some sessionId =>
          if JS.truthy sessionId
          then modify (fun s => mkServer (users s) (up s)
                                  (delete sessionId (sessions s)))
          else ret tt
      | None => ret tt
      end ;;;
      ret LoggedOut
  end.

End Server.
End Auth.

(** ** More sample data, for the examples *)

Module Fixtures.
Import Sample.

(** The sample world with no deployment to connect to. *)
Definition nowhere : @World driver := mkWorld [shop] true ∅ [] [] [].

(** The sample shop with two categories, stored out of display order. *)
Definition rings_cat : @WithId (@ObjectId driver) :=
  mkWithId "64b7f0a1c2d3e4f5a6b7c8c1"
    {[ Field.name := VStr "Rings"; Field.slug := VStr "rings";
       Field.displayOrder := VNum 2 ]}.

Definition chains_cat : @WithId (@ObjectId driver) :=
  mkWithId "64b7f0a1c2d3e4f5a6b7c8c2"
    {[ Field.name := VStr "Chains"; Field.slug := VStr "chains";
       Field.displayOrder := VNum 1 ]}.

Definition stocked : @World driver :=
  mkWorld [shop] true
          {[ mongoUri := {[ "shop" := mkDatabase [rings_cat; chains_cat]
                                                 [ring; chain] ]} ]}
          [] [] [].

(** A connection string without a query, and the sample world with a
    deployment behind it. *)
Definition plain_uri : string := "mongodb+srv://cluster0.example.net/jewels".

Definition shop_hex : string := "64b7f0a1c2d3e4f5a6b7c8d0".
Definition ring_hex : string := "64b7f0a1c2d3e4f5a6b7c8d9".
Definition new_hex : string := "64b7f0a1c2d3e4f5a6b7c8ff".

(** What [getShop] returns for the sample shop. *)
Definition shop_found : Shop.t string :=
  Shop.mk shop_hex "alice" "Alice's Jewels" "/alice.png" mongoUri.

(** The cache of the sample is exactly one hour old. *)
Definition an_hour_later : Rates.Env := Rates.mkEnv 3601001 3601002 3601003 page.

(** Two hours after the cache of the sample was filled, a page that lists
    the 22-carat price only. *)
Definition page_22k_only : Rates.Env :=
  Rates.mkEnv 7200000 7200001 7200002
    (Rates.Response true 200 ["22 KT ₹ 6,412"]).

(** ADMIN_MONGODB_URI is set but empty; the first index can be built, the
    others cannot. *)
Definition admin_uri : string := "mongodb://admin.example/panel?w=majority".


(** Neither variable holds a connection string. *)
Definition env_unset : Connection.Env :=
  Connection.mkEnv None (Some "") (fun _ => true) (fun _ => true)
    (fun _ => true).

Definition admin_db : Db := mkDb admin_uri "panel".

Definition connected_state : Connection.State :=
  Connection.mkState (Some admin_uri) (Some admin_db) (Some admin_db) [] [] [].

(** Two shops of two administrators. *)
Definition bob_id : @ObjectId driver := "64b7f0a1c2d3e4f5a6b7c8d1".
Definition bob_hex : string := "64b7f0a1c2d3e4f5a6b7c8d1".

Definition alice_data : Directory.InsertShop :=
  Directory.mkInsertShop "Alice's Jewels" "/alice.png" mongoUri
    None None None None None.

Definition bob_data : Directory.InsertShop :=
  Directory.mkInsertShop "Bob's Gems" "/bob.png" "mongodb://db.example/gems"
    (Some "Gems") None None None None.

Definition alice_doc : Directory.Shop (@ObjectId driver) :=
  Directory.mkShop shop_id "alice" alice_data 100 100.

Definition bob_doc : Directory.Shop (@ObjectId driver) :=
  Directory.mkShop bob_id "bob" bob_data 200 200.

Definition store : @Directory.Store driver :=
  Directory.mkStore [alice_doc; bob_doc] true.

(** One open session. *)
Definition one_session : gmap string string := {[ "tok" := "u1" ]}.

Definition server : @Auth.Server driver := Auth.mkServer [] true one_session.

End Fixtures.

(* ===================================================================== *)
(** * The rate fetcher: cache, fallback and derived silver price *)
(* ===================================================================== *)

Section RateFetcher.
Import Rates.

Ltac run :=
  unfold scrapeIBJARates, try_catch, catch_body, try_body, fetch_items,
    store, Rates.emit, bind, get, modify, throw, ret; simpl.

(** A failing attempt leaves the two cache variables alone and is recorded
    as one request. *)
Lemma try_body_failure e s msg :
  fetch_outcome e = Throw msg ->
  exists s', try_body e s = (Throw msg, s')
    /\ cachedRates s' = cachedRates s /\ lastFetchTime s' = lastFetchTime s
    /\ requests s' = (requests s ++ [url])%list.
Proof.
  unfold fetch_outcome. run.
  destruct (page e) as [|ok status items]; simpl.
  - intros [= <-]. eexists. split; [reflexivity|]. simpl. auto.
  - destruct ok; simpl.
    + destruct (scan items) as [a b].
      destruct ((a =? 0)%float || (b =? 0)%float); [|discriminate].
      intros [= <-]. eexists. split; [reflexivity|]. simpl. auto.
    + intros [= <-]. eexists. split; [reflexivity|]. simpl. auto.
Qed.

(** A successful attempt stores what it returns. *)
Lemma try_body_success e s g24 g22 :
  fetch_outcome e = Ok (g24, g22) ->
  let r := rates_of g24 g22 (builtAt e) in
  exists s', try_body e s = (Ok r, s')
    /\ cachedRates s' = Some r /\ lastFetchTime s' = Some (fetchedAt e)
    /\ requests s' = (requests s ++ [url])%list.
Proof.
  unfold fetch_outcome. run.
  destruct (page e) as [|ok status items]; simpl; [discriminate|].
  destruct ok; simpl; [|discriminate].
  destruct (scan items) as [a b].
  destruct ((a =? 0)%float || (b =? 0)%float); [discriminate|].
  intros [= <- <-]. eexists. split; [reflexivity|]. simpl. auto.
Qed.

(** A call that finds the cache fresh returns it and touches nothing but
    the console. *)
Lemma scrape_fresh e s cached :
  fresh s e = Some cached ->
  exists s', scrapeIBJARates e s = (Ok cached, s')
    /\ cachedRates s' = cachedRates s /\ lastFetchTime s' = lastFetchTime s
    /\ requests s' = requests s.
Proof.
  intros Hf. run. rewrite Hf. simpl. eexists. split; [reflexivity|]. simpl. auto.
Qed.

Lemma fresh_cached s e cached :
  fresh s e = Some cached -> cachedRates s = Some cached.
Proof.
  unfold fresh. destruct (cachedRates s), (lastFetchTime s); try discriminate.
  destruct (_ <? _); congruence.
Qed.

(** A call that does not find the cache fresh runs the [try] block. *)
Lemma scrape_stale e s :
  fresh s e = None ->
  scrapeIBJARates e s =
  try_catch (try_body e) (catch_body e) (announced s).
Proof.
  intros Hf. unfold scrapeIBJARates, bind, get, Rates.emit, modify. simpl.
  rewrite Hf. reflexivity.
Qed.

(** C3: a call made less than [CACHE_DURATION] after the successful fetch
    of the call before it answers from the cache: it sends no request,
    returns the value the first call returned, and leaves [cachedRates]
    and [lastFetchTime] as they were. *)
Theorem second_call_within_interval_is_served_from_cache
    (s : State) (e1 e2 : Env) (prices : float * float) :
  fresh s e1 = None ->
  fetch_outcome e1 = Ok prices ->
  now e2 - fetchedAt e1 < CACHE_DURATION ->
  exists r s1 s2,
    scrapeIBJARates e1 s = (Ok r, s1)
    /\ requests s1 = (requests s ++ [url])%list
    /\ scrapeIBJARates e2 s1 = (Ok r, s2)
    /\ requests s2 = requests s1
    /\ cachedRates s2 = cachedRates s1
    /\ lastFetchTime s2 = lastFetchTime s1.
Proof.
  intros Hstale Hok Hlt. destruct prices as [g24 g22].
  rewrite (scrape_stale _ _ Hstale). unfold try_catch.
  destruct (try_body_success e1 (announced s) g24 g22 Hok)
    as (s1 & -> & Hc & Ht & Hr).
  assert (Hfresh : fresh s1 e2 = Some (rates_of g24 g22 (builtAt e1))).
  { unfold fresh. rewrite Hc, Ht.
    destruct (Z.ltb_spec (now e2 - fetchedAt e1) CACHE_DURATION);
      [reflexivity|lia]. }
  destruct (scrape_fresh _ _ _ Hfresh) as (s2 & H2 & Hc2 & Ht2 & Hr2).
  exists (rates_of g24 g22 (builtAt e1)), s1, s2.
  simpl in Hr. rewrite Hc2, Ht2. repeat split; auto.
Qed.

(** When the attempt fails in a way the code detects (the request fails,
    the status is not ok, or a price is missing or zero) and a value is
    cached, the call returns that value, without an exception, and leaves
    [cachedRates] and [lastFetchTime] as they were. *)
Theorem failed_fetch_returns_cached_value
    (s : State) (e : Env) (cached : IBJARates) (msg : string) :
  cachedRates s = Some cached ->
  fetch_outcome e = Throw msg ->
  exists s',
    scrapeIBJARates e s = (Ok cached, s')
    /\ cachedRates s' = cachedRates s
    /\ lastFetchTime s' = lastFetchTime s.
Proof.
  intros Hc Hfail.
  destruct (fresh s e) as [c|] eqn:Hf.
  - destruct (scrape_fresh _ _ _ Hf) as (s' & H & Hc' & Ht' & _).
    pose proof (fresh_cached _ _ _ Hf) as Hc2. rewrite Hc in Hc2.
    injection Hc2 as <-. eauto.
  - rewrite (scrape_stale _ _ Hf). unfold try_catch.
    destruct (try_body_failure e (announced s) msg Hfail)
      as (s1 & -> & Hc1 & Ht1 & _).
    simpl in Hc1, Ht1.
    unfold catch_body, bind, Rates.emit, modify, get, ret. simpl.
    rewrite Hc1, Hc. simpl. eexists. split; [reflexivity|]. simpl.
    rewrite ?Hc1, ?Ht1, ?Hc. auto.
Qed.

(** When the attempt fails in a way the code detects and nothing is
    cached, the call returns the "not available" value in all three price
    fields and caches nothing, so that the next call, whenever it comes,
    sends a request again. *)
Theorem failed_fetch_without_cache_returns_sentinel
    (s : State) (e : Env) (msg : string) :
  cachedRates s = None ->
  fetch_outcome e = Throw msg ->
  exists r s',
    scrapeIBJARates e s = (Ok r, s')
    /\ gold_24k r = "₹ N/A" /\ gold_22k r = "₹ N/A" /\ silver r = "₹ N/A"
    /\ cachedRates s' = None
    /\ lastFetchTime s' = lastFetchTime s
    /\ requests s' = (requests s ++ [url])%list
    /\ forall e2 : Env,
         requests (snd (scrapeIBJARates e2 s')) = (requests s' ++ [url])%list.
Proof.
  intros Hc Hfail.
  assert (Hf : forall e0 s0, cachedRates s0 = None -> fresh s0 e0 = None).
  { intros e0 s0 H0. unfold fresh. rewrite H0. reflexivity. }
  rewrite (scrape_stale _ _ (Hf e s Hc)). unfold try_catch.
  destruct (try_body_failure e (announced s) msg Hfail)
    as (s1 & -> & Hc1 & Ht1 & Hr1).
  simpl in Hc1, Ht1, Hr1.
  unfold catch_body, bind, Rates.emit, modify, get, ret. simpl.
  rewrite Hc1, Hc. simpl.
  eexists _, _. split; [reflexivity|]. simpl.
  rewrite ?Hc1, ?Ht1, ?Hr1, ?Hc. repeat split; try reflexivity.
  intros e2. rewrite scrape_stale by (apply Hf; simpl; congruence).
  unfold try_catch.
  set (s2 := announced _).
  destruct (fetch_outcome e2) as [[a b]|m] eqn:H2.
  - destruct (try_body_success e2 s2 a b H2) as (s3 & -> & _ & _ & Hr3).
    simpl. rewrite Hr3. reflexivity.
  - destruct (try_body_failure e2 s2 m H2) as (s3 & -> & Hc3 & _ & Hr3).
    unfold catch_body, bind, Rates.emit, modify, get, ret. simpl.
    destruct (cachedRates s3); simpl; rewrite Hr3; reflexivity.
Qed.

End RateFetcher.

Section SilverPrice.
Import Rates.

Lemma silver_exact_from_sound (count : nat) :
  forall g0 g : Z,
    silver_exact_from g0 count = true ->
    g0 <= g < g0 + Z.of_nat count ->
    silver_exact_at g = true.
Proof.
  induction count as [|k IH]; intros g0 g Hall Hg; [lia|].
  simpl in Hall. destruct (silver_exact_at g0) eqn:H0; [|discriminate].
  destruct (Z.eq_dec g g0) as [->|Hne]; [assumption|].
  apply (IH (g0 + 1)); [assumption|lia].
Qed.

Lemma silver_exact_upto_20000 :
  silver_exact_from 1 (Z.to_nat 20000) = true.
Proof. vm_cast_no_check (eq_refl true). Qed.

(** For whole per-gram prices up to ₹ 20,000 the floating-point result is
    the exact one: 12.6 g rounded to the nearest integer. *)
Lemma silverPerKg_exact (g : Z) :
  1 <= g <= 20000 ->
  integer_value (silverPerKg (Num.of_Z g)) = Some ((126 * g + 5) / 10).
Proof.
  intros Hg.
  assert (H : silver_exact_at g = true).
  { apply (silver_exact_from_sound (Z.to_nat 20000) 1).
    - exact silver_exact_upto_20000.
    - rewrite Z2Nat.id; lia. }
  unfold silver_exact_at in H.
  destruct (integer_value _) as [n|]; [|discriminate].
  apply Z.eqb_eq in H. congruence.
Qed.

(** On a page quoting ₹ 7,000 per gram, the call returns ₹ 88,200 for
    silver, the rounding of 7000 × 0.0126 × 1000; rounding 7000 × 0.0126
    first and scaling by 1000 afterwards gives ₹ 88,000. *)
Lemma silver_is_not_rounded_before_scaling :
  scan ["Fine Gold (999) ₹ 7,000"; "22 KT ₹ 6,412"]
  = (Num.of_Z 7000, Num.of_Z 6412)
  /\ fst (scrapeIBJARates
            (mkEnv 0 0 0
               (Response true 200 ["Fine Gold (999) ₹ 7,000"; "22 KT ₹ 6,412"]))
            (mkState None None [] []))
     = Ok (mkRates "₹ 70,000" "₹ 64,120" "₹ 88,200" 0)
  /\ rupees (Num.Math_round (Num.of_Z 7000 * Num.ratio) * 1000)%float
     = "₹ 88,000"
  /\ (silverPerKg (Num.of_Z 7000)
      =? Num.Math_round (Num.of_Z 7000 * Num.ratio) * 1000)%float = false.
Proof. repeat split; vm_compute; reflexivity. Qed.

(** C1 (amended): after a successful fetch that extracted the per-gram
    price [gold24kPerGram], the silver headline is the rendering of
    [Math.round(gold24kPerGram * 0.0126 * 1000)]: the price is scaled to a
    kilogram first and rounded afterwards.  For a whole price of at most
    ₹ 20,000 per gram that number is 12.6 times the price, rounded to the
    nearest integer, without any floating-point error. *)
Theorem silver_is_round_of_price_per_kg
    (s : State) (e : Env) (gold24kPerGram gold22kPerGram : float) :
  fresh s e = None ->
  fetch_outcome e = Ok (gold24kPerGram, gold22kPerGram) ->
  exists r,
    fst (scrapeIBJARates e s) = Ok r
    /\ silver r
       = rupees (Num.Math_round (gold24kPerGram * Num.ratio * 1000)%float)
    /\ forall g : Z,
         1 <= g <= 20000 -> gold24kPerGram = Num.of_Z g ->
         integer_value (Num.Math_round (gold24kPerGram * Num.ratio * 1000)%float)
         = Some ((126 * g + 5) / 10).
Proof.
  intros Hstale Hok. rewrite (scrape_stale _ _ Hstale). unfold try_catch.
  destruct (try_body_success e (announced s) _ _ Hok) as (s1 & -> & _).
  eexists. split; [reflexivity|]. split; [reflexivity|].
  intros g Hg ->. exact (silverPerKg_exact g Hg).
Qed.

Lemma silver_is_round_of_price_per_kg_witness :
  exists r,
    fst (scrapeIBJARates
           (mkEnv 0 0 0
              (Response true 200
                 ["Fine Gold (999) ₹ 12,345"; "22 KT ₹ 11,310"]))
           (mkState None None [] [])) = Ok r
    /\ silver r
       = rupees (Num.Math_round (Num.of_Z 12345 * Num.ratio * 1000)%float)
    /\ forall g : Z,
         1 <= g <= 20000 -> Num.of_Z 12345 = Num.of_Z g ->
         integer_value (Num.Math_round (Num.of_Z 12345 * Num.ratio * 1000)%float)
         = Some ((126 * g + 5) / 10).
Proof.
  apply (silver_is_round_of_price_per_kg _ _ (Num.of_Z 12345) (Num.of_Z 11310)).
  - reflexivity.
  - vm_compute. reflexivity.
Defined.

End SilverPrice.

(* ===================================================================== *)
(** * Connection strings *)
(* ===================================================================== *)

Section Splitting.

Lemma append_nil (b : string) : (EmptyString ++ b)%string = b.
Proof. reflexivity. Qed.

Lemma append_cons (x : ascii) (a b : string) :
  (String x a ++ b)%string = String x (a ++ b)%string.
Proof. reflexivity. Qed.

Lemma append_assoc (a b c : string) :
  ((a ++ b) ++ c = a ++ (b ++ c))%string.
Proof.
  induction a as [|x a IH]; [reflexivity|].
  rewrite !append_cons, IH. reflexivity.
Qed.

Lemma split_nonempty sep s : JS.split sep s <> [].
Proof.
  destruct s as [|c r]; simpl; [discriminate|].
  destruct (Ascii.eqb c sep); [discriminate|].
  destruct (JS.split sep r); discriminate.
Qed.

Lemma split_without_separator sep s :
  has_char sep s = false -> JS.split sep s = [s].
Proof.
  induction s as [|c r IH]; simpl; [reflexivity|].
  intros H. apply orb_false_iff in H as [Hc Hr].
  rewrite Hc, (IH Hr). reflexivity.
Qed.

Lemma last_part_cons p parts :
  parts <> [] -> JS.last_part (p :: parts) = JS.last_part parts.
Proof. destruct parts; [congruence|reflexivity]. Qed.

Lemma last_part_same_tail p q parts :
  parts <> [] -> JS.last_part (p :: parts) = JS.last_part (q :: parts).
Proof. intros H. rewrite !last_part_cons by assumption. reflexivity. Qed.

(** Splitting a string that contains the separator gives at least two
    parts. *)
Lemma split_tail_nonempty sep a b :
  exists p parts, JS.split sep (a ++ String sep b)%string = p :: parts
                  /\ parts <> [].
Proof.
  induction a as [|c r (p & parts & IH & Hne)];
    rewrite ?append_nil, ?append_cons; simpl.
  - rewrite Ascii.eqb_refl. eexists _, _. split; [reflexivity|].
    apply split_nonempty.
  - destruct (Ascii.eqb c sep).
    + eexists _, _. split; [reflexivity|]. rewrite IH. discriminate.
    + rewrite IH. eexists _, _. split; [reflexivity|]. assumption.
Qed.

(** The last part of a split is the last part of what follows any
    separator. *)
Lemma last_part_after_separator sep a b :
  JS.last_part (JS.split sep (a ++ String sep b)%string)
  = JS.last_part (JS.split sep b).
Proof.
  induction a as [|c r IH]; rewrite ?append_nil, ?append_cons; simpl.
  - rewrite Ascii.eqb_refl. apply last_part_cons, split_nonempty.
  - destruct (split_tail_nonempty sep r b) as (p & parts & Hs & Hne).
    destruct (Ascii.eqb c sep).
    + rewrite last_part_cons by apply split_nonempty. exact IH.
    + rewrite Hs in IH |- *.
      rewrite (last_part_same_tail _ p) by assumption. exact IH.
Qed.

(** The first part of a split is what precedes the first separator. *)
Lemma first_part_before_separator sep a b :
  has_char sep a = false ->
  hd EmptyString (JS.split sep (a ++ String sep b)%string) = a.
Proof.
  induction a as [|c r IH]; rewrite ?append_nil, ?append_cons; simpl.
  - rewrite Ascii.eqb_refl. reflexivity.
  - intros H. apply orb_false_iff in H as [Hc Hr]. rewrite Hc.
    specialize (IH Hr).
    destruct (JS.split sep (r ++ String sep b)%string); simpl in *; congruence.
Qed.

End Splitting.

Section ConnectionStrings.
Context {driver : Driver}.

Lemma extractDbName_connection_string scheme host dbName query :
  has_char "/" dbName = false ->
  has_char "?" dbName = false ->
  has_char "/" query = false ->
  extractDbName (connection_string scheme host dbName query) = dbName.
Proof.
  intros Hd Hq Hs. unfold extractDbName, connection_string.
  replace (scheme ++ "://" ++ host ++ "/" ++ dbName ++ "?" ++ query)%string
    with ((scheme ++ "://" ++ host) ++ String "/" (dbName ++ "?" ++ query))%string
    by (rewrite !append_assoc; reflexivity).
  rewrite last_part_after_separator.
  rewrite split_without_separator.
  - simpl. apply first_part_before_separator. assumption.
  - clear -Hd Hs.
    induction dbName as [|c r IH]; rewrite ?append_nil, ?append_cons; simpl in *.
    + assumption.
    + apply orb_false_iff in Hd as [-> Hr]. simpl. auto.
Qed.

Lemma connectToShopDB_reachable mongoUri (w : World) dbs :
  deployments w !! mongoUri = Some dbs ->
  connectToShopDB mongoUri w
  = (Ok (mkDb mongoUri (resolvedDbName mongoUri)), connected mongoUri w).
Proof.
  intros Hr.
  unfold connectToShopDB, MongoClient_connect, bind, emit, modify, ret,
    connected, connect_console, resolvedDbName, blank.
  rewrite Hr. simpl.
  destruct (negb (JS.truthy (extractDbName mongoUri))
            || JS.trim_is_empty (extractDbName mongoUri)); simpl;
    rewrite <- ?app_assoc; reflexivity.
Qed.

(** Without a deployment the connection fails: in the constructor, with
    nothing attempted, when the driver does not accept the string; in
    [connect()] otherwise. *)
Lemma connectToShopDB_unreachable mongoUri (w : World) :
  deployments w !! mongoUri = None ->
  connectToShopDB mongoUri w
  = if MongoClient_new mongoUri
    then (Throw "MongoServerSelectionError", refused mongoUri w)
    else (Throw "MongoParseError", w).
Proof.
  intros Hr. unfold connectToShopDB, MongoClient_connect, bind, refused.
  rewrite Hr. destruct (MongoClient_new mongoUri); reflexivity.
Qed.

(** C2 (amended): for a connection string [scheme://host/dbName?query]
    whose query has no '/', the resolved name is [dbName], unless
    [dbName] is empty or white space only: then it is "test" and the three
    warnings are written to the console. *)
Theorem connectToShopDB_resolves_database_name
    (scheme host dbName query : string) (w : World) :
  has_char "/" dbName = false ->
  has_char "?" dbName = false ->
  has_char "/" query = false ->
  let mongoUri := connection_string scheme host dbName query in
  is_Some (deployments w !! mongoUri) ->
  exists w',
    connectToShopDB mongoUri w
    = (Ok (mkDb mongoUri (if blank dbName then "test" else dbName)), w')
    /\ console w'
       = (console w
          ++ (if blank dbName
              then [ConsoleWarn warning1; ConsoleWarn warning2;
                    ConsoleWarn warning3]
              else [])
          ++ [ConsoleLog ("🔌 Connecting to shop database: " ++ dquote
                          ++ (if blank dbName then "test" else dbName)
                          ++ dquote)])%list.
Proof.
  intros Hd Hq Hs mongoUri [dbs Hr].
  pose proof (extractDbName_connection_string scheme host dbName query Hd Hq Hs)
    as He. fold mongoUri in He.
  exists (connected mongoUri w).
  rewrite (connectToShopDB_reachable _ _ _ Hr).
  unfold connected, connect_console, resolvedDbName. simpl. rewrite He.
  split; reflexivity.
Qed.

End ConnectionStrings.

(* ===================================================================== *)
(** * The catalog helpers *)
(* ===================================================================== *)

Section CatalogFacts.
Context {driver : Driver}.

Lemma write_stored c db docs (w : World) :
  write c db docs w = (Ok tt, stored c db docs w).
Proof. reflexivity. Qed.

Lemma collection_of_with_collection c docs d :
  collection_of c (with_collection c docs d) = docs.
Proof. by destruct c. Qed.

Lemma database_of_stored c db docs (w : World) :
  database_of (stored c db docs w) db = with_collection c docs (database_of w db).
Proof.
  unfold database_of at 1. unfold stored. simpl.
  rewrite lookup_insert_eq. simpl. rewrite lookup_insert_eq. reflexivity.
Qed.

Lemma database_of_connected mongoUri db (w : World) :
  database_of (connected mongoUri w) db = database_of w db.
Proof. reflexivity. Qed.

Lemma filter_stringify (c : string) (docs : list Doc) :
  map stringify_id (List.filter (matches (Some c)) docs)
  = List.filter (has_category c) (map stringify_id docs).
Proof.
  induction docs as [|d docs IH]; simpl; [reflexivity|].
  unfold has_category at 1. simpl.
  destruct (bool_decide _); simpl; rewrite IH; reflexivity.
Qed.

Lemma filter_all {A} (l : list A) : List.filter (fun _ => true) l = l.
Proof. induction l; simpl; congruence. Qed.

Lemma getShopProducts_reachable mongoUri category (w : World) dbs :
  deployments w !! mongoUri = Some dbs ->
  getShopProducts mongoUri category w
  = (Ok (map stringify_id
           (merge_sort displayOrder_le
              (List.filter (matches (product_filter category))
                           (catalog mongoUri w)))),
     connected mongoUri w).
Proof.
  intros Hr. unfold getShopProducts, bind.
  rewrite (connectToShopDB_reachable _ _ _ Hr). reflexivity.
Qed.

(** C7 (amended): without a filter, with the filter "all" and with the
    empty filter, the listing holds every product of the store; with any
    other filter it holds exactly the products whose category is that
    string; it is always in ascending display order. *)
Theorem getShopProducts_filters_and_sorts
    (mongoUri : string) (category : option string) (w : World) :
  is_Some (deployments w !! mongoUri) ->
  let everything := map stringify_id (catalog mongoUri w) in
  exists listing w',
    getShopProducts mongoUri category w = (Ok listing, w')
    /\ (category = None \/ category = Some "" \/ category = Some "all" ->
        listing ≡ₚ everything)
    /\ (forall c, category = Some c -> c <> "" -> c <> "all" ->
        listing ≡ₚ List.filter (has_category c) everything)
    /\ Sorted by_displayOrder listing.
Proof.
  intros [dbs Hr] everything.
  rewrite (getShopProducts_reachable _ _ _ _ Hr).
  eexists _, _. split; [reflexivity|]. repeat split.
  - intros Hcat.
    assert (Hf : product_filter category = None)
      by (destruct Hcat as [->|[->| ->]]; reflexivity).
    rewrite Hf. simpl. rewrite filter_all.
    apply fmap_Permutation, merge_sort_Permutation.
  - intros c -> Hne Hall.
    assert (Hf : product_filter (Some c) = Some c).
    { unfold product_filter, JS.truthy.
      destruct (String.eqb_spec c ""); [contradiction|].
      destruct (String.eqb_spec c "all"); [contradiction|]. reflexivity. }
    rewrite Hf. unfold everything. rewrite <- filter_stringify.
    apply fmap_Permutation, merge_sort_Permutation.
  - apply (Sorted_fmap stringify_id displayOrder_le by_displayOrder).
    + intros x y Hxy. exact Hxy.
    + apply Sorted_merge_sort. intros x y. apply bson_le_total.
Qed.

End CatalogFacts.

Section ProductSchema.
Import Schema.








End ProductSchema.

Section CatalogWrites.
Context {driver : Driver}.

Lemma existsb_has_id_false oid (docs : list Doc) :
  (forall d, d ∈ docs -> _id d <> oid) -> existsb (has_id oid) docs = false.
Proof.
  induction docs as [|d docs IH]; intros H; simpl; [reflexivity|].
  unfold has_id at 1. rewrite bool_decide_eq_false_2 by (apply H; left).
  apply IH. intros x Hx. apply H. by right.
Qed.

Lemma createShopProduct_reachable mongoUri product fresh (w : World) dbs :
  deployments w !! mongoUri = Some dbs ->
  (forall d, d ∈ catalog mongoUri w -> _id d <> fresh) ->
  createShopProduct mongoUri product fresh w
  = (Ok (mkWithId (toHexString fresh) product),
     stored Products (shop_db mongoUri)
       (catalog mongoUri w ++ [mkWithId fresh (normalized product)])
       (connected mongoUri w)).
Proof.
  intros Hr Hfresh. unfold createShopProduct, bind.
  rewrite (connectToShopDB_reachable _ _ _ Hr).
  unfold insertOne, bind, read. simpl.
  change (products (database_of (connected mongoUri w)
                                (mkDb mongoUri (resolvedDbName mongoUri))))
    with (catalog mongoUri w).
  rewrite (existsb_has_id_false _ _ Hfresh). reflexivity.
Qed.

Lemma catalog_stored mongoUri docs (w : World) :
  catalog mongoUri (stored Products (shop_db mongoUri) docs w) = docs.
Proof. unfold catalog. rewrite database_of_stored. reflexivity. Qed.

Lemma normalized_carries_defaults product :
  carries_defaults product -> normalized product = product.
Proof.
  intros ([l Ht] & [b Hf] & [b' Hs] & [n Hd]). unfold normalized.
  rewrite Ht, Hf, Hs, Hd.
  change (or_else (Some (VArr l)) (VArr [])) with (VArr l).
  assert (He : or_else (Some (VBool b)) (VBool false) = VBool b)
    by (destruct b; reflexivity).
  assert (Hn : or_else (Some (VNum n)) (VNum 0) = VNum n).
  { unfold or_else, truthy. destruct (Z.eqb_spec n 0); subst; reflexivity. }
  assert (Hi : negb (bool_decide (Some (VBool b') = Some (VBool false))) = b').
  { destruct b'; [rewrite bool_decide_eq_false_2 by discriminate|
                  rewrite bool_decide_eq_true_2 by reflexivity]; reflexivity. }
  rewrite He, Hn, Hi.
  apply map_eq. intros k.
  destruct (decide (k = Field.displayOrder)) as [->|?];
    [by rewrite lookup_insert_eq|rewrite lookup_insert_ne by done].
  destruct (decide (k = Field.inStock)) as [->|?];
    [by rewrite lookup_insert_eq|rewrite lookup_insert_ne by done].
  destruct (decide (k = Field.featured)) as [->|?];
    [by rewrite lookup_insert_eq|rewrite lookup_insert_ne by done].
  destruct (decide (k = Field.tags)) as [->|?];
    [by rewrite lookup_insert_eq|by rewrite lookup_insert_ne by done].
Qed.

(** What [createShopProduct] does with any object it is handed: it adds
    one document to the products of the store, under the identifier the
    store assigned; in that document [tags], [featured], [inStock] and
    [displayOrder], where the object leaves them unset, are [[]], [false],
    [true] and [0], and every other field is as handed over.  It returns
    the object under that identifier: the created product whenever the
    object carries the four fields. *)
Lemma createShopProduct_stores_normalized
    (mongoUri : string) (product : InsertProduct) (fresh : ObjectId)
    (w : World) :
  is_Some (deployments w !! mongoUri) ->
  (forall d, d ∈ catalog mongoUri w -> _id d <> fresh) ->
  exists (returned : Product) (created : Doc) (w' : World),
    createShopProduct mongoUri product fresh w = (Ok returned, w')
    /\ catalog mongoUri w' = (catalog mongoUri w ++ [created])%list
    /\ _id created = fresh
    /\ _id returned = objectIdToString (inl fresh)
    /\ fields returned = product
    /\ (product !! Field.tags = None ->
        fields created !! Field.tags = Some (VArr []))
    /\ (product !! Field.featured = None ->
        fields created !! Field.featured = Some (VBool false))
    /\ (product !! Field.inStock = None ->
        fields created !! Field.inStock = Some (VBool true))
    /\ (product !! Field.displayOrder = None ->
        fields created !! Field.displayOrder = Some (VNum 0))
    /\ (forall k, k <> Field.tags -> k <> Field.featured ->
                  k <> Field.inStock -> k <> Field.displayOrder ->
                  fields created !! k = product !! k)
    /\ (carries_defaults product -> returned = stringify_id created).
Proof.
  intros [dbs Hr] Hfresh.
  rewrite (createShopProduct_reachable _ _ _ _ _ Hr Hfresh).
  eexists _, (mkWithId fresh (normalized product)), _.
  split; [reflexivity|]. rewrite catalog_stored.
  split; [reflexivity|]. simpl.
  repeat split.
  - intros H. unfold normalized.
    rewrite !lookup_insert_ne by discriminate.
    rewrite lookup_insert_eq, H. reflexivity.
  - intros H. unfold normalized.
    rewrite !lookup_insert_ne by discriminate.
    rewrite lookup_insert_eq, H. reflexivity.
  - intros H. unfold normalized.
    rewrite !lookup_insert_ne by discriminate.
    rewrite lookup_insert_eq, H. reflexivity.
  - intros H. unfold normalized. rewrite lookup_insert_eq, H. reflexivity.
  - intros k H1 H2 H3 H4. unfold normalized.
    rewrite !lookup_insert_ne by congruence. reflexivity.
  - intros H. unfold stringify_id. simpl.
    rewrite (normalized_carries_defaults _ H). reflexivity.
Qed.


Lemma update_first_absent oid set (docs : list Doc) :
  (forall d, d ∈ docs -> _id d <> oid) ->
  update_first oid set docs = (docs, None).
Proof.
  induction docs as [|d docs IH]; intros H; simpl; [reflexivity|].
  unfold has_id at 1. rewrite bool_decide_eq_false_2 by (apply H; left).
  rewrite IH; [reflexivity|]. intros x Hx. apply H. by right.
Qed.

Lemma update_first_present oid set (before : list Doc) d after :
  (forall x, x ∈ before -> _id x <> oid) ->
  _id d = oid ->
  update_first oid set (before ++ d :: after)%list
  = ((before ++ mkWithId (_id d) (set ∪ fields d) :: after)%list,
     Some (mkWithId (_id d) (set ∪ fields d))).
Proof.
  intros Hb Hd. induction before as [|x before IH]; simpl.
  - unfold has_id. rewrite bool_decide_eq_true_2 by assumption. reflexivity.
  - unfold has_id at 1. rewrite bool_decide_eq_false_2 by (apply Hb; left).
    rewrite IH; [reflexivity|]. intros y Hy. apply Hb. by right.
Qed.

Lemma updateShopProduct_reachable mongoUri productId product oid
    (w : World) dbs :
  deployments w !! mongoUri = Some dbs ->
  ObjectId_new productId = Some oid ->
  updateShopProduct mongoUri productId product w
  = match update_first oid product (catalog mongoUri w) with
    | (docs', Some d') =>
        (Ok (Some (stringify_id d')),
         stored Products (shop_db mongoUri) docs' (connected mongoUri w))
    | (_, None) => (Ok None, connected mongoUri w)
    end.
Proof.
  intros Hr Hoid. unfold updateShopProduct, bind.
  rewrite (connectToShopDB_reachable _ _ _ Hr).
  unfold lift, stringToObjectId. rewrite Hoid.
  unfold findOneAndUpdate, bind, read. simpl.
  change (products (database_of (connected mongoUri w)
                                (mkDb mongoUri (resolvedDbName mongoUri))))
    with (catalog mongoUri w).
  destruct (update_first oid product (catalog mongoUri w)) as [docs' [d'|]];
    reflexivity.
Qed.

(** A malformed product identifier: the operation throws after it has
    connected, and changes no store. *)
Lemma updateShopProduct_malformed mongoUri productId product (w : World) dbs :
  deployments w !! mongoUri = Some dbs ->
  ObjectId_new productId = None ->
  updateShopProduct mongoUri productId product w
  = (Throw "BSONError", connected mongoUri w).
Proof.
  intros Hr Hoid. unfold updateShopProduct, bind.
  rewrite (connectToShopDB_reachable _ _ _ Hr).
  unfold lift, stringToObjectId. rewrite Hoid. reflexivity.
Qed.

(** C9 (amended): for a well-formed product identifier, an update changes
    in the matching product exactly the fields the payload supplies and
    leaves its other fields and the other products as they were; when no
    product has the identifier, the operation returns not-found and no
    store is modified.  For a malformed identifier the operation throws,
    and no store is modified either. *)
Theorem updateShopProduct_is_partial_merge
    (mongoUri productId : string) (product : UpdateProduct) (w : World) :
  is_Some (deployments w !! mongoUri) ->
  (forall oid : ObjectId,
     ObjectId_new productId = Some oid ->
     exists (r : option Product) (w' : World),
       updateShopProduct mongoUri productId product w = (Ok r, w')
       /\ (forall before d after,
             catalog mongoUri w = (before ++ d :: after)%list ->
             (forall x, x ∈ before -> _id x <> oid) ->
             _id d = oid ->
             exists d' : Doc,
               r = Some (stringify_id d')
               /\ catalog mongoUri w' = (before ++ d' :: after)%list
               /\ _id d' = _id d
               /\ (forall k v, product !! k = Some v ->
                               fields d' !! k = Some v)
               /\ (forall k, product !! k = None ->
                             fields d' !! k = fields d !! k))
       /\ ((forall x, x ∈ catalog mongoUri w -> _id x <> oid) ->
           r = None /\ deployments w' = deployments w))
  /\ (ObjectId_new productId = None ->
      exists w' : World,
        updateShopProduct mongoUri productId product w = (Throw "BSONError", w')
        /\ deployments w' = deployments w).
Proof.
  intros [dbs Hr]. split.
  - intros oid Hoid.
    rewrite (updateShopProduct_reachable _ _ _ _ _ _ Hr Hoid).
    destruct (update_first oid product (catalog mongoUri w))
      as [docs' found] eqn:Hu.
    destruct found as [d'|].
    + eexists _, _. split; [reflexivity|]. split.
      * intros before d after Hcat Hb Hd.
        rewrite Hcat, (update_first_present _ _ _ _ _ Hb Hd) in Hu.
        injection Hu as <- <-.
        eexists. split; [reflexivity|]. rewrite catalog_stored.
        split; [reflexivity|]. split; [reflexivity|]. simpl. split.
        -- intros k v Hk. by apply lookup_union_Some_l.
        -- intros k Hk. by apply lookup_union_r.
      * intros Habs. rewrite (update_first_absent _ _ _ Habs) in Hu.
        discriminate.
    + eexists _, _. split; [reflexivity|]. split.
      * intros before d after Hcat Hb Hd.
        rewrite Hcat, (update_first_present _ _ _ _ _ Hb Hd) in Hu.
        discriminate.
      * intros _. split; reflexivity.
  - intros Hoid. rewrite (updateShopProduct_malformed _ _ _ _ _ Hr Hoid).
    eexists. split; reflexivity.
Qed.

End CatalogWrites.

(* ===================================================================== *)
(** * Connections are never released *)
(* ===================================================================== *)

Section Connections.
Context {driver : Driver}.

Lemma keeps_ret {A} (a : A) : keeps_clients (ret a).
Proof. intros w. split; reflexivity. Qed.

Lemma keeps_throw {A} msg : keeps_clients (throw (A := A) msg).
Proof. intros w. split; reflexivity. Qed.

Lemma keeps_lift {A} (r : result A) : keeps_clients (lift r).
Proof. intros w. split; reflexivity. Qed.

Lemma keeps_bind {A B} (m : M World A) (k : A -> M World B) :
  keeps_clients m -> (forall a, keeps_clients (k a)) -> keeps_clients (bind m k).
Proof.
  intros Hm Hk w. unfold bind. specialize (Hm w).
  destruct (m w) as [[a|e] w1]; simpl in *; [|assumption].
  destruct (Hk a w1) as [-> ->]. assumption.
Qed.

Lemma keeps_try_catch {A} (m : M World A) (h : string -> M World A) :
  keeps_clients m -> (forall e, keeps_clients (h e)) ->
  keeps_clients (try_catch m h).
Proof.
  intros Hm Hh w. unfold try_catch. specialize (Hm w).
  destruct (m w) as [[a|e] w1]; simpl in *; [assumption|].
  destruct (Hh e w1) as [-> ->]. assumption.
Qed.

Lemma keeps_emit e : keeps_clients (emit e).
Proof. intros w. split; reflexivity. Qed.

Lemma keeps_read c db : keeps_clients (read c db).
Proof. intros w. split; reflexivity. Qed.

Lemma keeps_write c db docs : keeps_clients (write c db docs).
Proof. intros w. split; reflexivity. Qed.

Create HintDb clients.
#[local] Hint Resolve keeps_ret keeps_throw keeps_lift keeps_bind keeps_emit
  keeps_read keeps_write : clients.

Lemma keeps_find_sorted c filter db : keeps_clients (find_sorted c filter db).
Proof. unfold find_sorted. auto with clients. Qed.

Lemma keeps_findOne c oid db : keeps_clients (findOne c oid db).
Proof. unfold findOne. auto with clients. Qed.

Lemma keeps_insertOne c fresh doc db : keeps_clients (insertOne c fresh doc db).
Proof.
  unfold insertOne. apply keeps_bind; [auto with clients|].
  intros docs. destruct (existsb _ _); auto with clients.
Qed.

Lemma keeps_findOneAndUpdate c oid set db :
  keeps_clients (findOneAndUpdate c oid set db).
Proof.
  unfold findOneAndUpdate. apply keeps_bind; [auto with clients|].
  intros docs. destruct (update_first _ _ _) as [docs' [d|]]; auto with clients.
Qed.

Lemma keeps_deleteOne c oid db : keeps_clients (deleteOne c oid db).
Proof.
  unfold deleteOne. apply keeps_bind; [auto with clients|].
  intros docs. destruct (delete_first _ _) as [docs' n].
  apply keeps_bind; [|auto with clients].
  destruct (n =? 0); auto with clients.
Qed.

#[local] Hint Resolve keeps_find_sorted keeps_findOne keeps_insertOne
  keeps_findOneAndUpdate keeps_deleteOne : clients.

(** What [connectToShopDB] does to the clients: one attempt, and one open
    client more when the store is reachable. *)
Lemma connectToShopDB_clients mongoUri (w : World) :
  open_clients (snd (connectToShopDB mongoUri w))
  = (open_clients w
     ++ if decide (is_Some (deployments w !! mongoUri)) then [mongoUri] else [])%list
  /\ (attempts (snd (connectToShopDB mongoUri w)) = attempts w
      \/ attempts (snd (connectToShopDB mongoUri w))
         = (attempts w ++ [mongoUri])%list).
Proof.
  destruct (deployments w !! mongoUri) as [dbs|] eqn:Hr.
  - rewrite (connectToShopDB_reachable _ _ _ Hr).
    rewrite decide_True by eauto. split; [reflexivity|by right].
  - rewrite (connectToShopDB_unreachable _ _ Hr).
    rewrite decide_False by (intros [? ?]; discriminate).
    destruct (MongoClient_new mongoUri); simpl; rewrite app_nil_r;
      (split; [reflexivity|]); [by right|by left].
Qed.

(** An operation that connects and then only uses the handle. *)
Lemma connect_then_keep {A} mongoUri (k : Db -> M World A) (w : World) :
  (forall db, keeps_clients (k db)) ->
  open_clients (snd (bind (connectToShopDB mongoUri) k w))
  = open_clients (snd (connectToShopDB mongoUri w))
  /\ attempts (snd (bind (connectToShopDB mongoUri) k w))
     = attempts (snd (connectToShopDB mongoUri w)).
Proof.
  intros Hk. unfold bind.
  destruct (connectToShopDB mongoUri w) as [[db|e] w1]; simpl;
    [|split; reflexivity].
  apply Hk.
Qed.

(** The six helpers connect and then only use the handle. *)
Lemma getShopCategories_clients mongoUri (w : World) :
  open_clients (snd (getShopCategories mongoUri w))
  = open_clients (snd (connectToShopDB mongoUri w))
  /\ attempts (snd (getShopCategories mongoUri w))
     = attempts (snd (connectToShopDB mongoUri w)).
Proof. apply connect_then_keep. intros db. auto with clients. Qed.

Lemma getShopProducts_clients mongoUri category (w : World) :
  open_clients (snd (getShopProducts mongoUri category w))
  = open_clients (snd (connectToShopDB mongoUri w))
  /\ attempts (snd (getShopProducts mongoUri category w))
     = attempts (snd (connectToShopDB mongoUri w)).
Proof. apply connect_then_keep. intros db. auto with clients. Qed.

Lemma getShopProductById_clients mongoUri productId (w : World) :
  open_clients (snd (getShopProductById mongoUri productId w))
  = open_clients (snd (connectToShopDB mongoUri w))
  /\ attempts (snd (getShopProductById mongoUri productId w))
     = attempts (snd (connectToShopDB mongoUri w)).
Proof.
  apply connect_then_keep. intros db.
  apply keeps_bind; [auto with clients|]. intros oid.
  apply keeps_bind; [auto with clients|]. intros [d|]; auto with clients.
Qed.

Lemma createShopProduct_clients mongoUri product fresh (w : World) :
  open_clients (snd (createShopProduct mongoUri product fresh w))
  = open_clients (snd (connectToShopDB mongoUri w))
  /\ attempts (snd (createShopProduct mongoUri product fresh w))
     = attempts (snd (connectToShopDB mongoUri w)).
Proof. apply connect_then_keep. intros db. auto with clients. Qed.

Lemma updateShopProduct_clients mongoUri productId product (w : World) :
  open_clients (snd (updateShopProduct mongoUri productId product w))
  = open_clients (snd (connectToShopDB mongoUri w))
  /\ attempts (snd (updateShopProduct mongoUri productId product w))
     = attempts (snd (connectToShopDB mongoUri w)).
Proof.
  apply connect_then_keep. intros db.
  apply keeps_bind; [auto with clients|]. intros oid.
  apply keeps_bind; [auto with clients|]. intros [d|]; auto with clients.
Qed.

Lemma deleteShopProduct_clients mongoUri productId (w : World) :
  open_clients (snd (deleteShopProduct mongoUri productId w))
  = open_clients (snd (connectToShopDB mongoUri w))
  /\ attempts (snd (deleteShopProduct mongoUri productId w))
     = attempts (snd (connectToShopDB mongoUri w)).
Proof. apply connect_then_keep. intros db. auto 6 with clients. Qed.

Lemma run_op_world op mongoUri (w : World) :
  snd (run_op op mongoUri w)
  = match op with
    | ListCategories => snd (getShopCategories mongoUri w)
    | ListProducts category => snd (getShopProducts mongoUri category w)
    | GetProductById productId => snd (getShopProductById mongoUri productId w)
    | CreateProduct product fresh =>
        snd (createShopProduct mongoUri product fresh w)
    | UpdateProduct_ productId product =>
        snd (updateShopProduct mongoUri productId product w)
    | DeleteProduct_ productId => snd (deleteShopProduct mongoUri productId w)
    end.
Proof.
  destruct op; unfold run_op;
    match goal with |- context [let (_, _) := ?m in _] => destruct m end;
    reflexivity.
Qed.

(** C10 (amended): every catalog operation whose connection succeeds
    leaves the client it opened among the open clients when it completes,
    with or without an exception; no operation closes a client. *)
Theorem catalog_operation_leaves_its_connection_open
    (op : CatalogOp) (mongoUri : string) (w : World) :
  open_clients (snd (run_op op mongoUri w))
  = (open_clients w
     ++ if decide (is_Some (deployments w !! mongoUri)) then [mongoUri] else [])%list.
Proof.
  rewrite run_op_world.
  rewrite <- (proj1 (connectToShopDB_clients mongoUri w)).
  destruct op.
  - apply getShopCategories_clients.
  - apply getShopProducts_clients.
  - apply getShopProductById_clients.
  - apply createShopProduct_clients.
  - apply updateShopProduct_clients.
  - apply deleteShopProduct_clients.
Qed.

End Connections.

(* ===================================================================== *)
(** * Ownership is checked before any external connection *)
(* ===================================================================== *)

Section Ownership.
Context {driver : Driver} {Body : Type}.
Variable insertProductSchema_parse : Body -> option InsertProduct.
Variable updateProductSchema_parse : Body -> option UpdateProduct.

Local Abbreviation serve :=
  (handle insertProductSchema_parse updateProductSchema_parse).

(** [getShop] reads the directory and changes nothing. *)
Lemma getShop_pure id ownerId (w : World) :
  snd (getShop id ownerId w) = w.
Proof.
  unfold getShop, bind, lift, get, stringToObjectId.
  destruct (ObjectId_new id); simpl; [|reflexivity].
  destruct (directory_up w); [|reflexivity].
  destruct (List.find _ _); reflexivity.
Qed.

Lemma find_owned_none oid ownerId (l : list (Shop.t ObjectId)) :
  (forall s, s ∈ l -> ~ (Shop._id s = oid /\ Shop.ownerId s = ownerId)) ->
  List.find (owned_by oid ownerId) l = None.
Proof.
  induction l as [|s l IH]; intros H; simpl; [reflexivity|].
  destruct (owned_by oid ownerId s) eqn:Ho.
  - exfalso. apply (H s); [left|].
    unfold owned_by in Ho. apply andb_true_iff in Ho as [H1 H2].
    apply bool_decide_eq_true in H1. apply String.eqb_eq in H2. auto.
  - apply IH. intros x Hx. apply H. by right.
Qed.

Lemma find_owned_some oid ownerId (l : list (Shop.t ObjectId)) s :
  List.find (owned_by oid ownerId) l = Some s ->
  s ∈ l /\ Shop._id s = oid /\ Shop.ownerId s = ownerId.
Proof.
  induction l as [|x l IH]; simpl; [discriminate|].
  destruct (owned_by oid ownerId x) eqn:Ho.
  - intros [= <-]. split; [left|].
    unfold owned_by in Ho. apply andb_true_iff in Ho as [H1 H2].
    apply bool_decide_eq_true in H1. apply String.eqb_eq in H2. auto.
  - intros H. destruct (IH H) as (Hin & Hid & Hown).
    split; [by right|auto].
Qed.

(** The three ways in which a shop identifier fails to resolve. *)
Lemma getShop_unresolved id ownerId (w : World) :
  (forall oid s, ObjectId_new id = Some oid -> s ∈ shops w ->
                 ~ (Shop._id s = oid /\ Shop.ownerId s = ownerId)) ->
  getShop id ownerId w
  = match ObjectId_new id with
    | None => (Throw "BSONError", w)
    | Some _ => if directory_up w then (Ok None, w)
                else (Throw "MongoNetworkError", w)
    end.
Proof.
  intros H. unfold getShop, bind, lift, get, stringToObjectId.
  destruct (ObjectId_new id) as [oid|]; simpl; [|reflexivity].
  destruct (directory_up w); [|reflexivity].
  rewrite (find_owned_none oid ownerId); [reflexivity|].
  intros s Hs. by apply H.
Qed.

(** A shop that [getShop] returns is registered under the identifier asked
    for and belongs to the owner asked for. *)
Lemma getShop_resolved id ownerId (w : World) shop :
  fst (getShop id ownerId w) = Ok (Some shop) ->
  exists oid s,
    ObjectId_new id = Some oid /\ s ∈ shops w
    /\ Shop._id s = oid /\ Shop.ownerId s = ownerId
    /\ Shop.mongodbUri shop = Shop.mongodbUri s.
Proof.
  unfold getShop, bind, lift, get, stringToObjectId.
  destruct (ObjectId_new id) as [oid|]; simpl; [|discriminate].
  destruct (directory_up w); [|discriminate].
  destruct (List.find _ _) as [s|] eqn:Hf; simpl; [|discriminate].
  intros [= <-]. apply find_owned_some in Hf as (Hin & Hid & Hown).
  exists oid, s. auto.
Qed.

(** What a route does once [getShop] has answered. *)
Lemma serve_after_getShop route req (w : World) :
  serve route req w
  = match getShop (params_id req) (userId req) w with
    | (Throw _, w1) =>
        (Ok (mkRes (match route with
                    | PostProduct | PutProduct => 400
                    | _ => 500
                    end)
                   (Message (match route with
                             | GetCategories => "Failed to fetch categories"
                             | GetProducts => "Failed to fetch products"
                             | GetProduct => "Failed to fetch product"
                             | PostProduct | PutProduct => "Invalid product data"
                             | DeleteProduct => "Failed to delete product"
                             end))), w1)
    | (Ok None, w1) => (Ok (mkRes 404 (Message "Shop not found")), w1)
    | (Ok (Some shop), w1) =>
        serve route req w
    end.
Proof.
  destruct (getShop (params_id req) (userId req) w) as [[[shop|]|e] w1] eqn:Hg;
    [reflexivity| |];
    destruct route; unfold handle, get_categories, get_products, get_product,
      post_product, put_product, delete_product, try_catch, bind;
    rewrite Hg; reflexivity.
Qed.

(** The connection attempts of a route that found the shop: at most one,
    to the connection string of that shop. *)
Lemma serve_attempts route req (w : World) shop :
  getShop (params_id req) (userId req) w = (Ok (Some shop), w) ->
  attempts (snd (serve route req w)) = attempts w
  \/ attempts (snd (serve route req w))
     = (attempts w ++ [Shop.mongodbUri shop])%list.
Proof.
  intros Hg.
  destruct route; unfold handle, get_categories, get_products, get_product,
    post_product, put_product, delete_product, try_catch, bind;
    rewrite Hg.
  - pose proof (getShopCategories_clients (Shop.mongodbUri shop) w) as [_ Ha].
    destruct (proj2 (connectToShopDB_clients (Shop.mongodbUri shop) w))
      as [Hc|Hc]; rewrite Hc in Ha; [left|right];
      destruct (getShopCategories _ w) as [[x|e] w1]; exact Ha.
  - pose proof (getShopProducts_clients (Shop.mongodbUri shop)
                  (query_category req) w) as [_ Ha].
    destruct (proj2 (connectToShopDB_clients (Shop.mongodbUri shop) w))
      as [Hc|Hc]; rewrite Hc in Ha; [left|right];
      destruct (getShopProducts _ _ w) as [[x|e] w1]; exact Ha.
  - pose proof (getShopProductById_clients (Shop.mongodbUri shop)
                  (params_productId req) w) as [_ Ha].
    destruct (proj2 (connectToShopDB_clients (Shop.mongodbUri shop) w))
      as [Hc|Hc]; rewrite Hc in Ha; [left|right];
      destruct (getShopProductById _ _ w) as [[[x|]|e] w1]; exact Ha.
  - unfold parsed.
    destruct (insertProductSchema_parse (body req)) as [v|]; [|by left].
    change (ret v w) with (Ok v, w).
    pose proof (createShopProduct_clients (Shop.mongodbUri shop) v
                  (generatedId req) w) as [_ Ha].
    destruct (proj2 (connectToShopDB_clients (Shop.mongodbUri shop) w))
      as [Hc|Hc]; rewrite Hc in Ha; [left|right];
      destruct (createShopProduct _ _ _ w) as [[x|e] w1]; exact Ha.
  - unfold parsed.
    destruct (updateProductSchema_parse (body req)) as [v|]; [|by left].
    change (ret v w) with (Ok v, w).
    pose proof (updateShopProduct_clients (Shop.mongodbUri shop)
                  (params_productId req) v w) as [_ Ha].
    destruct (proj2 (connectToShopDB_clients (Shop.mongodbUri shop) w))
      as [Hc|Hc]; rewrite Hc in Ha; [left|right];
      destruct (updateShopProduct _ _ _ w) as [[[x|]|e] w1]; exact Ha.
  - pose proof (deleteShopProduct_clients (Shop.mongodbUri shop)
                  (params_productId req) w) as [_ Ha].
    destruct (proj2 (connectToShopDB_clients (Shop.mongodbUri shop) w))
      as [Hc|Hc]; rewrite Hc in Ha; [left|right];
      destruct (deleteShopProduct _ _ w) as [[[|]|e] w1]; exact Ha.
Qed.

(** C6 (amended): when the shop identifier of a catalog request does not
    resolve to a shop owned by the caller, the request is answered without
    touching the world: no client is created, no connection is attempted.
    The answer is 404 "Shop not found" when the identifier is well formed
    and the directory store answers; otherwise it is the route's generic
    error: 400 "Invalid product data" on the create and update routes, 500
    with the route's own message on the others.  It is never 403.  In
    every case, a connection a route attempts is to the connection string
    of a registered shop that has the identifier of the request and belongs
    to the caller. *)
Theorem unresolved_shop_is_answered_without_connection
    (route : CatalogRoute) (req : Request) (w : World) :
  ((forall oid s, ObjectId_new (params_id req) = Some oid -> s ∈ shops w ->
                  ~ (Shop._id s = oid /\ Shop.ownerId s = userId req)) ->
   exists res : Res,
     serve route req w = (Ok res, w)
     /\ (is_Some (ObjectId_new (params_id req)) -> directory_up w = true ->
         res = mkRes 404 (Message "Shop not found"))
     /\ (ObjectId_new (params_id req) = None \/ directory_up w = false ->
         res = generic_error route)
     /\ (status res = 404 \/ status res = 500 \/ status res = 400)
     /\ status res <> 403)
  /\ (attempts (snd (serve route req w)) = attempts w
      \/ exists oid s,
           ObjectId_new (params_id req) = Some oid /\ s ∈ shops w
           /\ Shop._id s = oid /\ Shop.ownerId s = userId req
           /\ attempts (snd (serve route req w))
              = (attempts w ++ [Shop.mongodbUri s])%list).
Proof.
  split.
  - intros H. pose proof (getShop_unresolved _ _ w H) as Hg.
    rewrite serve_after_getShop, Hg.
    destruct (ObjectId_new (params_id req)) as [oid|] eqn:Hoid.
    + destruct (directory_up w) eqn:Hup.
      * eexists. split; [reflexivity|]. simpl.
        split; [reflexivity|]. split; [intros [[=]|[=]]|].
        split; [by left|discriminate].
      * eexists. split; [reflexivity|]. simpl.
        split; [intros _ [=]|]. destruct route; (split; [reflexivity|]);
          split; auto; discriminate.
    + eexists. split; [reflexivity|]. simpl.
      split; [intros [? [=]]|]. destruct route; (split; [reflexivity|]);
        split; auto; discriminate.
  - pose proof (getShop_pure (params_id req) (userId req) w) as Hp.
    destruct (getShop (params_id req) (userId req) w) as [[[shop|]|e] w1] eqn:Hg;
      simpl in Hp; subst w1.
    + destruct (getShop_resolved (params_id req) (userId req) w shop)
        as (oid & s & Hoid & Hin & Hid & Hown & Huri);
        [rewrite Hg; reflexivity|].
      destruct (serve_attempts route req w shop Hg) as [Ha|Ha]; [by left|].
      right. exists oid, s. rewrite <- Huri. auto.
    + left. rewrite serve_after_getShop, Hg. reflexivity.
    + left. rewrite serve_after_getShop, Hg. reflexivity.
Qed.

End Ownership.

(* ===================================================================== *)
(** * Examples on the sample shop *)
(* ===================================================================== *)

Module Examples.
Import Sample.
#[local] Existing Instance driver.

(** The store of the sample shop is reachable. *)
Lemma sample_reachable :
  deployments world !! mongoUri
  = Some {[ "shop" := mkDatabase [] [ring; chain] ]}.
Proof. exact (lookup_singleton_eq _ _). Qed.

Lemma sample_reachable_by_parts :
  deployments world
    !! connection_string "mongodb" "db.example" "shop" "retryWrites=true"
  = Some {[ "shop" := mkDatabase [] [ring; chain] ]}.
Proof. exact sample_reachable. Qed.

Lemma sample_ids_in_use (d : Doc) :
  d ∈ catalog mongoUri world -> _id d <> new_id.
Proof.
  intros Hd. vm_compute in Hd.
  apply elem_of_cons in Hd as [->|Hd]; [discriminate|].
  apply list_elem_of_singleton in Hd as ->. discriminate.
Qed.

Local Abbreviation serve := (@handle driver unit no_body no_body).

(** ** The rate fetcher *)

Lemma second_call_within_interval_witness :
  exists r s1 s2,
    Rates.scrapeIBJARates (Rates.mkEnv 0 1000 1001 page) empty_cache
    = (Ok r, s1)
    /\ Rates.requests s1 = (Rates.requests empty_cache ++ [url])%list
    /\ Rates.scrapeIBJARates
         (Rates.mkEnv 3600000 3600001 3600002 Rates.NetworkError) s1
       = (Ok r, s2)
    /\ Rates.requests s2 = Rates.requests s1
    /\ Rates.cachedRates s2 = Rates.cachedRates s1
    /\ Rates.lastFetchTime s2 = Rates.lastFetchTime s1.
Proof.
  apply (second_call_within_interval_is_served_from_cache
           empty_cache (Rates.mkEnv 0 1000 1001 page)
           (Rates.mkEnv 3600000 3600001 3600002 Rates.NetworkError)
           (Num.of_Z 7000, Num.of_Z 6412)).
  - reflexivity.
  - vm_compute. reflexivity.
  - vm_compute. reflexivity.
Defined.

(** The cache of the sample, found stale two hours later while the site
    answers 503. *)
Lemma failed_fetch_returns_cached_value_witness :
  exists s',
    Rates.scrapeIBJARates
      (Rates.mkEnv 7200000 7200001 7200002 (Rates.Response false 503 []))
      old_cache
    = (Ok old_rates, s')
    /\ Rates.cachedRates s' = Rates.cachedRates old_cache
    /\ Rates.lastFetchTime s' = Rates.lastFetchTime old_cache.
Proof.
  apply (failed_fetch_returns_cached_value old_cache _ old_rates
           "Failed to fetch IBJA website").
  - reflexivity.
  - reflexivity.
Defined.

Lemma failed_fetch_without_cache_witness :
  exists r s',
    Rates.scrapeIBJARates
      (Rates.mkEnv 0 1 2 (Rates.Response true 200 ["22 KT ₹ 6,412"]))
      empty_cache
    = (Ok r, s')
    /\ Rates.gold_24k r = "₹ N/A" /\ Rates.gold_22k r = "₹ N/A"
    /\ Rates.silver r = "₹ N/A"
    /\ Rates.cachedRates s' = None
    /\ Rates.lastFetchTime s' = Rates.lastFetchTime empty_cache
    /\ Rates.requests s' = (Rates.requests empty_cache ++ [url])%list
    /\ forall e2 : Rates.Env,
         Rates.requests (snd (Rates.scrapeIBJARates e2 s'))
         = (Rates.requests s' ++ [url])%list.
Proof.
  apply (failed_fetch_without_cache_returns_sentinel empty_cache _
           "Could not parse gold rates from IBJA website").
  - reflexivity.
  - vm_compute. reflexivity.
Defined.

(** C4 (code bug): a parse failure the code does not detect.  On the page
    of the sample with "₹ ," for the 24-carat price the pattern matches
    the comma, [parseInt] of the empty string is [NaN], and [NaN === 0] is
    false: with a value cached two hours before, the call does not return
    that value; it returns "₹ NaN" prices and puts them in its place. *)
Lemma unreadable_price_replaces_the_cached_value :
  Rates.cachedRates old_cache = Some old_rates
  /\ Rates.gold_24k old_rates = "₹ 70,000"
  /\ fst (Rates.scrapeIBJARates
            (Rates.mkEnv 7200000 7200001 7200002 page_without_digits) old_cache)
     = Ok (Rates.mkRates "₹ NaN" "₹ 64,120" "₹ NaN" 7200001)
  /\ Rates.cachedRates
       (snd (Rates.scrapeIBJARates
               (Rates.mkEnv 7200000 7200001 7200002 page_without_digits)
               old_cache))
     = Some (Rates.mkRates "₹ NaN" "₹ 64,120" "₹ NaN" 7200001)
  /\ Rates.lastFetchTime
       (snd (Rates.scrapeIBJARates
               (Rates.mkEnv 7200000 7200001 7200002 page_without_digits)
               old_cache))
     = Some 7200002.
Proof. repeat split; vm_compute; reflexivity. Qed.

(** C5 (code bug): the same undetected parse failure with nothing cached.
    The call does not return the "not available" value; it returns
    "₹ NaN" prices and caches them, and a call ten seconds later is served
    from the cache without a request. *)
Lemma unreadable_price_is_cached_in_place_of_the_sentinel :
  fst (Rates.scrapeIBJARates (Rates.mkEnv 0 1 2 page_without_digits)
                             empty_cache)
  = Ok (Rates.mkRates "₹ NaN" "₹ 64,120" "₹ NaN" 1)
  /\ Rates.cachedRates
       (snd (Rates.scrapeIBJARates (Rates.mkEnv 0 1 2 page_without_digits)
                                   empty_cache))
     = Some (Rates.mkRates "₹ NaN" "₹ 64,120" "₹ NaN" 1)
  /\ Rates.scrapeIBJARates (Rates.mkEnv 10000 10001 10002 Rates.NetworkError)
       (snd (Rates.scrapeIBJARates (Rates.mkEnv 0 1 2 page_without_digits)
                                   empty_cache))
     = (Ok (Rates.mkRates "₹ NaN" "₹ 64,120" "₹ NaN" 1),
        Rates.mkState
          (Some (Rates.mkRates "₹ NaN" "₹ 64,120" "₹ NaN" 1)) (Some 2)
          [ConsoleLog "🔍 Fetching fresh IBJA rates from https://ibja.co/";
           ConsoleLog "✅ IBJA rates fetched successfully:";
           ConsoleLog "📊 Serving cached IBJA rates"]
          [url]).
Proof. repeat split; vm_compute; reflexivity. Qed.

(** ** Connection strings *)

(** A '/' in the query moves the name: the string
    [mongodb://h/shop?appName=admin/panel] resolves to "panel", not to
    "shop".  A name made of white space is replaced: [mongodb://h/ ?w=1]
    resolves to "test", not to " ". *)
Lemma database_name_after_last_slash_or_default :
  fst (connectToShopDB
         (connection_string "mongodb" "h" "shop" "appName=admin/panel")
         (world_with "mongodb://h/shop?appName=admin/panel"))
  = Ok (mkDb "mongodb://h/shop?appName=admin/panel" "panel")
  /\ fst (connectToShopDB (connection_string "mongodb" "h" " " "w=1")
                          (world_with "mongodb://h/ ?w=1"))
     = Ok (mkDb "mongodb://h/ ?w=1" "test").
Proof. split; vm_compute; reflexivity. Qed.

Lemma connectToShopDB_resolves_database_name_witness :
  exists w',
    connectToShopDB (connection_string "mongodb" "db.example" "shop" "retryWrites=true")
                    world
    = (Ok (mkDb (connection_string "mongodb" "db.example" "shop" "retryWrites=true")
                (if blank "shop" then "test" else "shop")), w')
    /\ console w'
       = (console world
          ++ (if blank "shop"
              then [ConsoleWarn warning1; ConsoleWarn warning2;
                    ConsoleWarn warning3]
              else [])
          ++ [ConsoleLog ("🔌 Connecting to shop database: " ++ dquote
                          ++ (if blank "shop" then "test" else "shop")
                          ++ dquote)])%list.
Proof.
  apply (connectToShopDB_resolves_database_name
           "mongodb" "db.example" "shop" "retryWrites=true" world).
  - reflexivity.
  - reflexivity.
  - reflexivity.
  - eexists. exact sample_reachable_by_parts.
Defined.

(** ** Routes *)

(** A shop identifier that is not a 24-digit hexadecimal string is
    answered 500 by GET /api/shops/:id/categories, not 404. *)
Lemma malformed_shop_id_is_answered_500 :
  fst (serve GetCategories (request "abc" "" "alice") world)
  = Ok (mkRes 500 (Message "Failed to fetch categories")).
Proof. vm_compute. reflexivity. Qed.

(** With an identifier that is not well formed each route answers from
    its own [catch] block. *)
Lemma malformed_shop_id_is_answered_by_the_catch_block :
  map (fun route => fst (serve route (request "abc" "" "alice") world))
      [GetCategories; GetProducts; GetProduct; PostProduct; PutProduct;
       DeleteProduct]
  = [Ok (mkRes 500 (Message "Failed to fetch categories"));
     Ok (mkRes 500 (Message "Failed to fetch products"));
     Ok (mkRes 500 (Message "Failed to fetch product"));
     Ok (mkRes 400 (Message "Invalid product data"));
     Ok (mkRes 400 (Message "Invalid product data"));
     Ok (mkRes 500 (Message "Failed to delete product"))].
Proof. vm_compute. reflexivity. Qed.

Lemma unresolved_shop_witness :
  exists res : Res,
    serve GetProducts (request "64b7f0a1c2d3e4f5a6b7c8d0" "" "bob") world
    = (Ok res, world)
    /\ (is_Some (ObjectId_new (params_id (request "64b7f0a1c2d3e4f5a6b7c8d0" "" "bob"))) ->
        directory_up world = true ->
        res = mkRes 404 (Message "Shop not found"))
    /\ (ObjectId_new (params_id (request "64b7f0a1c2d3e4f5a6b7c8d0" "" "bob"))
        = None
        \/ directory_up world = false ->
        res = generic_error GetProducts)
    /\ (status res = 404 \/ status res = 500 \/ status res = 400)
    /\ status res <> 403.
Proof.
  apply (unresolved_shop_is_answered_without_connection no_body no_body
           GetProducts (request "64b7f0a1c2d3e4f5a6b7c8d0" "" "bob") world).
  intros oid s _ Hs [_ Howner].
  apply list_elem_of_singleton in Hs. subst s. vm_compute in Howner.
  discriminate.
Defined.

(** ** Listing products *)

(** With the empty string as filter the listing holds every product,
    although no product has the empty category. *)
Lemma empty_category_filter_lists_everything :
  fst (getShopProducts mongoUri (Some "") world)
  = Ok [stringify_id chain; stringify_id ring]
  /\ List.filter (has_category "") (map stringify_id (catalog mongoUri world))
     = [].
Proof. split; vm_compute; reflexivity. Qed.

Lemma getShopProducts_witness :
  let everything := map stringify_id (catalog mongoUri world) in
  exists listing w',
    getShopProducts mongoUri (Some "rings") world = (Ok listing, w')
    /\ (Some "rings" = None \/ Some "rings" = Some "" \/ Some "rings" = Some "all" ->
        listing ≡ₚ everything)
    /\ (forall c, Some "rings" = Some c -> c <> "" -> c <> "all" ->
        listing ≡ₚ List.filter (has_category c) everything)
    /\ Sorted by_displayOrder listing.
Proof.
  apply (getShopProducts_filters_and_sorts mongoUri (Some "rings") world).
  eexists. exact sample_reachable.
Defined.

(** ** Creating and updating products *)



(** A product identifier that is not a 24-digit hexadecimal string makes
    the update throw; it does not return not-found. *)
Lemma malformed_product_id_throws :
  fst (updateShopProduct mongoUri "abc" {[ Field.price := VNum 1 ]} world)
  = Throw "BSONError".
Proof. vm_compute. reflexivity. Qed.

Lemma updateShopProduct_witness :
  (forall oid : ObjectId,
     ObjectId_new "64B7F0A1C2D3E4F5A6B7C8D9" = Some oid ->
     exists (r : option Product) (w' : World),
       updateShopProduct mongoUri "64B7F0A1C2D3E4F5A6B7C8D9"
                         {[ Field.price := VNum 4000 ]} world
       = (Ok r, w')
       /\ (forall before d after,
             catalog mongoUri world = (before ++ d :: after)%list ->
             (forall x, x ∈ before -> _id x <> oid) ->
             _id d = oid ->
             exists d' : Doc,
               r = Some (stringify_id d')
               /\ catalog mongoUri w' = (before ++ d' :: after)%list
               /\ _id d' = _id d
               /\ (forall k v,
                     ({[ Field.price := VNum 4000 ]} : gmap Field.t value) !! k
                     = Some v ->
                     fields d' !! k = Some v)
               /\ (forall k,
                     ({[ Field.price := VNum 4000 ]} : gmap Field.t value) !! k
                     = None ->
                     fields d' !! k = fields d !! k))
       /\ ((forall x, x ∈ catalog mongoUri world -> _id x <> oid) ->
           r = None /\ deployments w' = deployments world))
  /\ (ObjectId_new "64B7F0A1C2D3E4F5A6B7C8D9" = None ->
      exists w' : World,
        updateShopProduct mongoUri "64B7F0A1C2D3E4F5A6B7C8D9"
                          {[ Field.price := VNum 4000 ]} world
        = (Throw "BSONError", w')
        /\ deployments w' = deployments world).
Proof.
  apply (updateShopProduct_is_partial_merge mongoUri "64B7F0A1C2D3E4F5A6B7C8D9"
           {[ Field.price := VNum 4000 ]} world).
  eexists. exact sample_reachable.
Defined.

(** The update of the sample ring's price, evaluated. *)
Lemma update_ring_price :
  fst (updateShopProduct mongoUri "64B7F0A1C2D3E4F5A6B7C8D9"
                         {[ Field.price := VNum 4000 ]} world)
  = Ok (Some (mkWithId "64b7f0a1c2d3e4f5a6b7c8d9"
                ({[ Field.price := VNum 4000 ]} ∪ fields ring)))
  /\ catalog mongoUri
       (snd (updateShopProduct mongoUri "64B7F0A1C2D3E4F5A6B7C8D9"
                               {[ Field.price := VNum 4000 ]} world))
     = [mkWithId ring_id ({[ Field.price := VNum 4000 ]} ∪ fields ring); chain].
Proof. split; vm_compute; reflexivity. Qed.

(** ** Connections *)

(** After listing the categories of the sample shop the client is still
    open; so it is after an operation that fails. *)
Lemma connection_outlives_its_operation :
  open_clients world = []
  /\ fst (run_op ListCategories mongoUri world) = true
  /\ open_clients (snd (run_op ListCategories mongoUri world)) = [mongoUri]
  /\ fst (run_op (GetProductById "abc") mongoUri world) = false
  /\ open_clients (snd (run_op (GetProductById "abc") mongoUri world))
     = [mongoUri].
Proof. repeat split; vm_compute; reflexivity. Qed.

End Examples.

(* ===================================================================== *)
(** * More on the catalog helpers *)
(* ===================================================================== *)

Section CatalogReads.
Context {driver : Driver}.

Lemma getShopCategories_reachable mongoUri (w : World) dbs :
  deployments w !! mongoUri = Some dbs ->
  getShopCategories mongoUri w
  = (Ok (map stringify_id
           (merge_sort displayOrder_le (category_list mongoUri w))),
     connected mongoUri w).
Proof.
  intros Hr. unfold getShopCategories, bind.
  rewrite (connectToShopDB_reachable _ _ _ Hr).
  unfold find_sorted, bind, read, ret. simpl. rewrite filter_all. reflexivity.
Qed.

(** X1: the category listing holds every category of the store, once each,
    in ascending display order, and changes no store. *)
Theorem getShopCategories_lists_all_sorted (mongoUri : string) (w : World) :
  is_Some (deployments w !! mongoUri) ->
  exists listing w',
    getShopCategories mongoUri w = (Ok listing, w')
    /\ listing ≡ₚ map stringify_id (category_list mongoUri w)
    /\ Sorted by_displayOrder listing
    /\ deployments w' = deployments w.
Proof.
  intros [dbs Hr]. rewrite (getShopCategories_reachable _ _ _ Hr).
  eexists _, _. split; [reflexivity|]. repeat split.
  - apply fmap_Permutation, merge_sort_Permutation.
  - apply (Sorted_fmap stringify_id displayOrder_le by_displayOrder).
    + intros x y Hxy. exact Hxy.
    + apply Sorted_merge_sort. intros x y. apply bson_le_total.
Qed.

Lemma find_has_id_absent oid (docs : list Doc) :
  (forall d, d ∈ docs -> _id d <> oid) -> List.find (has_id oid) docs = None.
Proof.
  induction docs as [|d docs IH]; intros H; simpl; [reflexivity|].
  unfold has_id at 1. rewrite bool_decide_eq_false_2 by (apply H; left).
  apply IH. intros x Hx. apply H. by right.
Qed.

Lemma find_has_id_present oid (before : list Doc) d after :
  (forall x, x ∈ before -> _id x <> oid) ->
  _id d = oid ->
  List.find (has_id oid) (before ++ d :: after)%list = Some d.
Proof.
  intros Hb Hd. induction before as [|x before IH]; simpl.
  - unfold has_id. rewrite bool_decide_eq_true_2 by assumption. reflexivity.
  - unfold has_id at 1. rewrite bool_decide_eq_false_2 by (apply Hb; left).
    apply IH. intros y Hy. apply Hb. by right.
Qed.

Lemma getShopProductById_reachable mongoUri productId oid (w : World) dbs :
  deployments w !! mongoUri = Some dbs ->
  ObjectId_new productId = Some oid ->
  getShopProductById mongoUri productId w
  = (Ok (stringify_id <$> List.find (has_id oid) (catalog mongoUri w)),
     connected mongoUri w).
Proof.
  intros Hr Hoid. unfold getShopProductById, bind.
  rewrite (connectToShopDB_reachable _ _ _ Hr).
  unfold lift, stringToObjectId. rewrite Hoid.
  unfold findOne, bind, read, ret. simpl.
  change (products (database_of (connected mongoUri w)
                                (mkDb mongoUri (resolvedDbName mongoUri))))
    with (catalog mongoUri w).
  destruct (List.find _ _); reflexivity.
Qed.

(** X2: for a well-formed identifier, [getShopProductById] returns the
    first product stored under it, with the identifier as a string, and
    not-found when no product has it; for a malformed identifier it throws
    after it has connected.  In no case does it change a store. *)
Theorem getShopProductById_finds_by_id
    (mongoUri productId : string) (w : World) :
  is_Some (deployments w !! mongoUri) ->
  (forall oid : ObjectId,
     ObjectId_new productId = Some oid ->
     exists r : option Product,
       getShopProductById mongoUri productId w = (Ok r, connected mongoUri w)
       /\ (forall before d after,
             catalog mongoUri w = (before ++ d :: after)%list ->
             (forall x, x ∈ before -> _id x <> oid) ->
             _id d = oid ->
             r = Some (mkWithId (toHexString oid) (fields d)))
       /\ ((forall x, x ∈ catalog mongoUri w -> _id x <> oid) -> r = None))
  /\ (ObjectId_new productId = None ->
      getShopProductById mongoUri productId w
      = (Throw "BSONError", connected mongoUri w)).
Proof.
  intros [dbs Hr]. split.
  - intros oid Hoid. rewrite (getShopProductById_reachable _ _ _ _ _ Hr Hoid).
    eexists. split; [reflexivity|]. split.
    + intros before d after Hcat Hb Hd.
      rewrite Hcat, (find_has_id_present _ _ _ _ Hb Hd). simpl.
      unfold stringify_id. simpl. rewrite Hd. reflexivity.
    + intros Habs. rewrite (find_has_id_absent _ _ Habs). reflexivity.
  - intros Hoid. unfold getShopProductById, bind.
    rewrite (connectToShopDB_reachable _ _ _ Hr).
    unfold lift, stringToObjectId. rewrite Hoid. reflexivity.
Qed.

End CatalogReads.

Section CatalogDeletes.
Context {driver : Driver}.

Lemma delete_first_absent oid (docs : list Doc) :
  (forall d, d ∈ docs -> _id d <> oid) -> delete_first oid docs = (docs, 0).
Proof.
  induction docs as [|d docs IH]; intros H; simpl; [reflexivity|].
  unfold has_id at 1. rewrite bool_decide_eq_false_2 by (apply H; left).
  rewrite IH; [reflexivity|]. intros x Hx. apply H. by right.
Qed.

Lemma delete_first_present oid (before : list Doc) d after :
  (forall x, x ∈ before -> _id x <> oid) ->
  _id d = oid ->
  delete_first oid (before ++ d :: after)%list = ((before ++ after)%list, 1).
Proof.
  intros Hb Hd. induction before as [|x before IH]; simpl.
  - unfold has_id. rewrite bool_decide_eq_true_2 by assumption. reflexivity.
  - unfold has_id at 1. rewrite bool_decide_eq_false_2 by (apply Hb; left).
    rewrite IH; [reflexivity|]. intros y Hy. apply Hb. by right.
Qed.

Lemma deleteShopProduct_reachable mongoUri productId oid (w : World) dbs :
  deployments w !! mongoUri = Some dbs ->
  ObjectId_new productId = Some oid ->
  deleteShopProduct mongoUri productId w
  = match delete_first oid (catalog mongoUri w) with
    | (docs', n) =>
        (Ok (0 <? n),
         if n =? 0 then connected mongoUri w
         else stored Products (shop_db mongoUri) docs' (connected mongoUri w))
    end.
Proof.
  intros Hr Hoid. unfold deleteShopProduct, bind.
  rewrite (connectToShopDB_reachable _ _ _ Hr).
  unfold lift, stringToObjectId. rewrite Hoid.
  unfold deleteOne, bind, read. simpl.
  change (products (database_of (connected mongoUri w)
                                (mkDb mongoUri (resolvedDbName mongoUri))))
    with (catalog mongoUri w).
  destruct (delete_first oid (catalog mongoUri w)) as [docs' n].
  destruct (n =? 0); reflexivity.
Qed.

(** X3: for a well-formed identifier, [deleteShopProduct] removes the
    first product stored under it and nothing else, and returns [true];
    when no product has the identifier it returns [false] and changes no
    store. *)
Theorem deleteShopProduct_removes_one
    (mongoUri productId : string) (oid : ObjectId) (w : World) :
  is_Some (deployments w !! mongoUri) ->
  ObjectId_new productId = Some oid ->
  exists (found : bool) (w' : World),
    deleteShopProduct mongoUri productId w = (Ok found, w')
    /\ (forall before d after,
          catalog mongoUri w = (before ++ d :: after)%list ->
          (forall x, x ∈ before -> _id x <> oid) ->
          _id d = oid ->
          found = true /\ catalog mongoUri w' = (before ++ after)%list)
    /\ ((forall x, x ∈ catalog mongoUri w -> _id x <> oid) ->
        found = false /\ deployments w' = deployments w).
Proof.
  intros [dbs Hr] Hoid.
  rewrite (deleteShopProduct_reachable _ _ _ _ _ Hr Hoid).
  destruct (delete_first oid (catalog mongoUri w)) as [docs' n] eqn:Hdel.
  eexists _, _. split; [reflexivity|]. split.
  - intros before d after Hcat Hb Hd.
    rewrite Hcat, (delete_first_present _ _ _ _ Hb Hd) in Hdel.
    injection Hdel as <- <-. simpl. split; [reflexivity|].
    apply catalog_stored.
  - intros Habs. rewrite (delete_first_absent _ _ Habs) in Hdel.
    injection Hdel as <- <-. simpl. split; reflexivity.
Qed.

End CatalogDeletes.

Section StoreFrames.
Context {driver : Driver}.

(** A computation that changes no store. *)
Lemma read_only_bind {A B} (m : M World A) (k : A -> M World B) :
  (forall w, deployments (snd (m w)) = deployments w) ->
  (forall a w, deployments (snd (k a w)) = deployments w) ->
  forall w, deployments (snd (bind m k w)) = deployments w.
Proof.
  intros Hm Hk w. unfold bind. specialize (Hm w).
  destruct (m w) as [[a|e] w1]; simpl in *; [|assumption].
  rewrite Hk. assumption.
Qed.

Lemma connectToShopDB_deployments mongoUri (w : World) :
  deployments (snd (connectToShopDB mongoUri w)) = deployments w.
Proof.
  destruct (deployments w !! mongoUri) as [dbs|] eqn:Hr.
  - rewrite (connectToShopDB_reachable _ _ _ Hr). reflexivity.
  - rewrite (connectToShopDB_unreachable _ _ Hr).
    destruct (MongoClient_new mongoUri); reflexivity.
Qed.

(** X4: listing categories, listing products and reading one product
    change no store, whether they succeed or fail. *)
Theorem reading_changes_no_store
    (op : CatalogOp) (mongoUri : string) (w : World) :
  reads_only op = true ->
  deployments (snd (run_op op mongoUri w)) = deployments w.
Proof.
  intros Hop. rewrite run_op_world.
  destruct op; try discriminate.
  - apply read_only_bind; [apply connectToShopDB_deployments|].
    intros db w1. reflexivity.
  - apply read_only_bind; [apply connectToShopDB_deployments|].
    intros db w1. reflexivity.
  - apply read_only_bind; [apply connectToShopDB_deployments|].
    intros db w1. unfold bind, lift.
    destruct (stringToObjectId productId); [|reflexivity].
    unfold findOne, bind, read, ret. simpl.
    destruct (List.find _ _); reflexivity.
Qed.


Lemma categories_stored_products db docs (w : World) :
  categories (database_of (stored Products db docs w) db)
  = categories (database_of w db).
Proof. rewrite database_of_stored. reflexivity. Qed.

Lemma createShopProduct_world mongoUri product fresh (w : World) dbs :
  deployments w !! mongoUri = Some dbs ->
  createShopProduct mongoUri product fresh w
  = if existsb (has_id fresh) (catalog mongoUri w)
    then (Throw "E11000 duplicate key error", connected mongoUri w)
    else (Ok (mkWithId (toHexString fresh) product),
          stored Products (shop_db mongoUri)
            (catalog mongoUri w ++ [mkWithId fresh (normalized product)])
            (connected mongoUri w)).
Proof.
  intros Hr. unfold createShopProduct, bind.
  rewrite (connectToShopDB_reachable _ _ _ Hr).
  unfold insertOne, bind, read. simpl.
  change (products (database_of (connected mongoUri w)
                                (mkDb mongoUri (resolvedDbName mongoUri))))
    with (catalog mongoUri w).
  destruct (existsb _ _); reflexivity.
Qed.

Lemma after_connect_malformed {A} mongoUri productId
    (k : Db -> ObjectId -> M World A) (w : World) dbs :
  deployments w !! mongoUri = Some dbs ->
  ObjectId_new productId = None ->
  (db <- connectToShopDB mongoUri ;;
   oid <- lift (stringToObjectId productId) ;; k db oid) w
  = (Throw "BSONError", connected mongoUri w).
Proof.
  intros Hr Hoid. unfold bind.
  rewrite (connectToShopDB_reachable _ _ _ Hr).
  unfold lift, stringToObjectId. rewrite Hoid. reflexivity.
Qed.

(** What a helper does when no deployment answers to the string. *)
Lemma bind_connect_unreachable {A} mongoUri (k : Db -> M World A) (w : World) :
  deployments w !! mongoUri = None ->
  bind (connectToShopDB mongoUri) k w
  = if MongoClient_new mongoUri
    then (Throw "MongoServerSelectionError", refused mongoUri w)
    else (Throw "MongoParseError", w).
Proof.
  intros Hr. unfold bind.
  rewrite (connectToShopDB_unreachable _ _ Hr).
  destruct (MongoClient_new mongoUri); reflexivity.
Qed.



(** X6: when no deployment answers to the connection string every
    catalog operation fails, leaves no client open and changes no store.
    When the driver accepts the string the failure is that of
    [client.connect()], after one attempt; when it does not, the
    constructor throws and nothing is attempted. *)
Theorem unreachable_store_fails_cleanly
    (op : CatalogOp) (mongoUri : string) (w : World) :
  deployments w !! mongoUri = None ->
  exists w',
    run_op op mongoUri w = (false, w')
    /\ attempts w'
       = (if MongoClient_new mongoUri then attempts w ++ [mongoUri]
          else attempts w)%list
    /\ open_clients w' = open_clients w
    /\ deployments w' = deployments w.
Proof.
  intros Hr.
  exists (if MongoClient_new mongoUri then refused mongoUri w else w).
  split; [|destruct (MongoClient_new mongoUri); repeat split].
  destruct op; unfold run_op, getShopCategories, getShopProducts,
    getShopProductById, createShopProduct, updateShopProduct,
    deleteShopProduct; rewrite (bind_connect_unreachable _ _ _ Hr);
    destruct (MongoClient_new mongoUri); reflexivity.
Qed.

End StoreFrames.

Section CatalogInvariants.
Context {driver : Driver}.

Lemma update_first_ids oid set (docs : list Doc) :
  map _id (fst (update_first oid set docs)) = map _id docs.
Proof.
  induction docs as [|d docs IH]; simpl; [reflexivity|].
  destruct (has_id oid d); simpl; [reflexivity|].
  destruct (update_first oid set docs) as [rest' found]. simpl in *.
  congruence.
Qed.

Lemma delete_first_sublist oid (docs : list Doc) :
  fst (delete_first oid docs) `sublist_of` docs.
Proof.
  induction docs as [|d docs IH]; simpl; [constructor|].
  destruct (has_id oid d); simpl; [by apply sublist_cons|].
  destruct (delete_first oid docs) as [rest' n]. simpl in *.
  by apply sublist_skip.
Qed.

Lemma existsb_has_id_ids oid (docs : list Doc) :
  existsb (has_id oid) docs = false -> oid ∉ map _id docs.
Proof.
  induction docs as [|d docs IH]; simpl; [intros _; apply not_elem_of_nil|].
  intros H. apply orb_false_iff in H as [Hd Hrest].
  apply not_elem_of_cons. split; [|by apply IH].
  unfold has_id in Hd. apply bool_decide_eq_false in Hd. congruence.
Qed.

(** X7: when no two products of a shop share an identifier, none do
    after any catalog operation on that shop. *)
Theorem catalog_operations_keep_ids_unique
    (op : CatalogOp) (mongoUri : string) (w : World) :
  unique_ids (catalog mongoUri w) ->
  unique_ids (catalog mongoUri (snd (run_op op mongoUri w))).
Proof.
  intros Hu. rewrite run_op_world.
  destruct (deployments w !! mongoUri) as [dbs|] eqn:Hr.
  - destruct op.
    + rewrite (getShopCategories_reachable _ _ _ Hr). exact Hu.
    + rewrite (getShopProducts_reachable _ _ _ _ Hr). exact Hu.
    + destruct (ObjectId_new productId) as [oid|] eqn:Hoid.
      * rewrite (getShopProductById_reachable _ _ _ _ _ Hr Hoid). exact Hu.
      * unfold getShopProductById.
        rewrite (after_connect_malformed _ _ _ _ _ Hr Hoid). exact Hu.
    + rewrite (createShopProduct_world _ _ _ _ _ Hr).
      destruct (existsb _ _) eqn:He; [exact Hu|]. simpl.
      rewrite catalog_stored. unfold unique_ids. rewrite map_app. simpl.
      apply NoDup_app. split; [exact Hu|]. split.
      * intros x Hx Hin. apply list_elem_of_singleton in Hin. subst x.
        by apply (existsb_has_id_ids _ _ He).
      * apply NoDup_singleton.
    + destruct (ObjectId_new productId) as [oid|] eqn:Hoid.
      * rewrite (updateShopProduct_reachable _ _ _ _ _ _ Hr Hoid).
        pose proof (update_first_ids oid product (catalog mongoUri w)) as Hi.
        destruct (update_first _ _ _) as [docs' [d'|]]; simpl in *;
          [|exact Hu].
        rewrite catalog_stored. unfold unique_ids. rewrite Hi. exact Hu.
      * rewrite (updateShopProduct_malformed _ _ _ _ _ Hr Hoid). exact Hu.
    + destruct (ObjectId_new productId) as [oid|] eqn:Hoid.
      * rewrite (deleteShopProduct_reachable _ _ _ _ _ Hr Hoid).
        pose proof (delete_first_sublist oid (catalog mongoUri w)) as Hs.
        destruct (delete_first _ _) as [docs' n]. simpl in *.
        destruct (n =? 0); simpl; [exact Hu|].
        rewrite catalog_stored. unfold unique_ids.
        eapply sublist_NoDup; [exact Hu|]. by apply (fmap_sublist _id).
      * unfold deleteShopProduct.
        rewrite (after_connect_malformed _ _ _ _ _ Hr Hoid). exact Hu.
  - destruct op; unfold getShopCategories, getShopProducts,
      getShopProductById, createShopProduct, updateShopProduct,
      deleteShopProduct; rewrite (bind_connect_unreachable _ _ _ Hr);
      destruct (MongoClient_new mongoUri); exact Hu.
Qed.

End CatalogInvariants.

Section CatalogRoundTrips.
Context {driver : Driver}.

Lemma stored_reachable c mongoUri docs (w : World) :
  is_Some (deployments (stored c (shop_db mongoUri) docs w) !! mongoUri).
Proof. unfold stored. simpl. rewrite lookup_insert_eq. eauto. Qed.

Lemma connected_reachable mongoUri (w : World) :
  is_Some (deployments w !! mongoUri) ->
  is_Some (deployments (connected mongoUri w) !! mongoUri).
Proof. intros H. exact H. Qed.

Lemma catalog_connected mongoUri (w : World) :
  catalog mongoUri (connected mongoUri w) = catalog mongoUri w.
Proof. reflexivity. Qed.


Lemma update_first_found oid set (docs docs' : list Doc) d' :
  update_first oid set docs = (docs', Some d') ->
  List.find (has_id oid) docs' = Some d'.
Proof.
  revert docs'. induction docs as [|d docs IH]; intros docs'; simpl;
    [discriminate|].
  destruct (has_id oid d) eqn:Hd.
  - intros [= <- <-]. simpl.
    assert (H : has_id oid (mkWithId (_id d) (set ∪ fields d)) = true)
      by exact Hd.
    rewrite H. reflexivity.
  - destruct (update_first oid set docs) as [rest' found].
    intros [= <- ->]. simpl. rewrite Hd. by apply IH.
Qed.

Lemma update_first_not_found oid set (docs docs' : list Doc) :
  update_first oid set docs = (docs', None) ->
  List.find (has_id oid) docs = None.
Proof.
  revert docs'. induction docs as [|d docs IH]; intros docs'; simpl;
    [reflexivity|].
  destruct (has_id oid d) eqn:Hd; [discriminate|].
  destruct (update_first oid set docs) as [rest' found].
  intros [= <- ->]. by eapply IH.
Qed.

(** X9: reading a product back after an update returns what the update
    returned: the merged product, not-found, or the same exception. *)
Theorem updated_product_is_read_back
    (mongoUri productId : string) (product : UpdateProduct) (w : World) :
  is_Some (deployments w !! mongoUri) ->
  fst (getShopProductById mongoUri productId
         (snd (updateShopProduct mongoUri productId product w)))
  = fst (updateShopProduct mongoUri productId product w).
Proof.
  intros [dbs Hr].
  destruct (ObjectId_new productId) as [oid|] eqn:Hoid.
  - rewrite (updateShopProduct_reachable _ _ _ _ _ _ Hr Hoid).
    destruct (update_first oid product (catalog mongoUri w))
      as [docs' [d'|]] eqn:Hu; simpl.
    + destruct (stored_reachable Products mongoUri docs'
                  (connected mongoUri w)) as [dbs1 Hr1].
      rewrite (getShopProductById_reachable _ _ _ _ _ Hr1 Hoid). simpl.
      rewrite catalog_stored, (update_first_found _ _ _ _ _ Hu). reflexivity.
    + rewrite (getShopProductById_reachable _ _ _ (connected mongoUri w) _
                 Hr Hoid). simpl.
      rewrite catalog_connected, (update_first_not_found _ _ _ _ Hu).
      reflexivity.
  - rewrite (updateShopProduct_malformed _ _ _ _ _ Hr Hoid). simpl.
    unfold getShopProductById.
    rewrite (after_connect_malformed _ _ _ (connected mongoUri w) _ Hr Hoid).
    reflexivity.
Qed.

Lemma delete_first_gone oid (docs : list Doc) :
  unique_ids docs ->
  forall d, d ∈ fst (delete_first oid docs) -> _id d <> oid.
Proof.
  unfold unique_ids. induction docs as [|x docs IH]; simpl; intros Hu d Hd.
  - by apply elem_of_nil in Hd.
  - apply NoDup_cons in Hu as [Hx Hu].
    destruct (has_id oid x) eqn:Hox; simpl in Hd.
    + unfold has_id in Hox. apply bool_decide_eq_true in Hox. subst oid.
      intros Heq. apply Hx. rewrite <- Heq.
      apply list_elem_of_fmap. eauto.
    + destruct (delete_first oid docs) as [rest' n]. simpl in *.
      apply elem_of_cons in Hd as [->|Hd]; [|by apply IH].
      unfold has_id in Hox. by apply bool_decide_eq_false in Hox.
Qed.

(** X10: when the products of a shop have distinct identifiers, a product
    that was deleted is not found afterwards. *)
Theorem deleted_product_is_gone
    (mongoUri productId : string) (oid : ObjectId) (w : World) :
  is_Some (deployments w !! mongoUri) ->
  ObjectId_new productId = Some oid ->
  unique_ids (catalog mongoUri w) ->
  fst (getShopProductById mongoUri productId
         (snd (deleteShopProduct mongoUri productId w)))
  = Ok None.
Proof.
  intros [dbs Hr] Hoid Hu.
  rewrite (deleteShopProduct_reachable _ _ _ _ _ Hr Hoid).
  pose proof (delete_first_gone oid _ Hu) as Hgone.
  destruct (delete_first oid (catalog mongoUri w)) as [docs' n] eqn:Hdel.
  simpl in *. destruct (n =? 0) eqn:Hn.
  - rewrite (getShopProductById_reachable _ _ _ (connected mongoUri w) _
               Hr Hoid). simpl. rewrite catalog_connected.
    assert (Hsame : docs' = catalog mongoUri w).
    { clear -Hdel Hn. apply Z.eqb_eq in Hn. subst n.
      revert docs' Hdel.
      induction (catalog mongoUri w) as [|x l IH]; simpl; intros docs' H.
      - by injection H as <-.
      - destruct (has_id oid x); [discriminate|].
        destruct (delete_first oid l) as [rest' m].
        injection H as <- ->. f_equal. by apply IH. }
    subst docs'. rewrite (find_has_id_absent _ _ Hgone). reflexivity.
  - destruct (stored_reachable Products mongoUri docs'
                (connected mongoUri w)) as [dbs1 Hr1].
    rewrite (getShopProductById_reachable _ _ _ _ _ Hr1 Hoid). simpl.
    rewrite catalog_stored, (find_has_id_absent _ _ Hgone). reflexivity.
Qed.

End CatalogRoundTrips.

(* ===================================================================== *)
(** * What the catalog routes answer *)
(* ===================================================================== *)

Section RouteAnswers.
Context {driver : Driver} {Body : Type}.
Variable insertProductSchema_parse : Body -> option InsertProduct.
Variable updateProductSchema_parse : Body -> option UpdateProduct.

Local Abbreviation serve :=
  (handle insertProductSchema_parse updateProductSchema_parse).

Lemma getShop_found id ownerId (w : World) shop :
  fst (getShop id ownerId w) = Ok (Some shop) ->
  getShop id ownerId w = (Ok (Some shop), w).
Proof.
  intros H. rewrite (surjective_pairing (getShop id ownerId w)), H.
  f_equal. unfold getShop, bind, lift, get, stringToObjectId.
  destruct (ObjectId_new id); simpl; [|reflexivity].
  destruct (directory_up w); [|reflexivity].
  destruct (List.find _ _); reflexivity.
Qed.

Lemma try_catch_answers {A} (m : M World A) (a : A) (w : World) :
  exists r, fst (try_catch m (fun _ => ret a) w) = Ok r.
Proof.
  unfold try_catch, ret. destruct (m w) as [[r|e] w1]; simpl; eauto.
Qed.

Lemma serve_answers route req (w : World) :
  exists res, fst (serve route req w) = Ok res.
Proof. destruct route; apply try_catch_answers. Qed.

(** What a route answers when the shop resolves and its store does not
    accept the connection. *)
Lemma serve_unreachable route req (w : World) shop :
  fst (getShop (params_id req) (userId req) w) = Ok (Some shop) ->
  deployments w !! Shop.mongodbUri shop = None ->
  exists res,
    fst (serve route req w) = Ok res /\ (status res = 400 \/ status res = 500).
Proof.
  intros Hg Hr. apply getShop_found in Hg.
  destruct route; unfold handle, get_categories, get_products, get_product,
    post_product, put_product, delete_product, try_catch;
    unfold bind at 1; rewrite Hg.
  - unfold getShopCategories. unfold bind at 1.
    rewrite (bind_connect_unreachable _ _ _ Hr).
      destruct (MongoClient_new _); eexists; split; eauto.
  - unfold getShopProducts. unfold bind at 1.
    rewrite (bind_connect_unreachable _ _ _ Hr).
      destruct (MongoClient_new _); eexists; split; eauto.
  - unfold getShopProductById. unfold bind at 1.
    rewrite (bind_connect_unreachable _ _ _ Hr).
      destruct (MongoClient_new _); eexists; split; eauto.
  - unfold parsed. destruct (insertProductSchema_parse (body req)) as [v|].
    + unfold bind at 1. change (ret v w) with (Ok v, w). cbv beta iota.
      unfold createShopProduct. unfold bind at 1.
      rewrite (bind_connect_unreachable _ _ _ Hr).
      destruct (MongoClient_new _); eexists; split; eauto.
    + eexists; split; eauto.
  - unfold parsed. destruct (updateProductSchema_parse (body req)) as [v|].
    + unfold bind at 1. change (ret v w) with (Ok v, w). cbv beta iota.
      unfold updateShopProduct. unfold bind at 1.
      rewrite (bind_connect_unreachable _ _ _ Hr).
      destruct (MongoClient_new _); eexists; split; eauto.
    + eexists; split; eauto.
  - unfold deleteShopProduct. unfold bind at 1.
    rewrite (bind_connect_unreachable _ _ _ Hr).
      destruct (MongoClient_new _); eexists; split; eauto.
Qed.

(** X11: a catalog route never throws, and it answers 200 or 201 only when
    the shop asked for is registered to the requesting administrator and
    its store accepted the connection. *)
Theorem catalog_is_served_to_the_owner_only
    (route : CatalogRoute) (req : Request) (w : World) :
  exists res : Res,
    fst (serve route req w) = Ok res
    /\ (status res = 200 \/ status res = 201 ->
        exists (oid : ObjectId) (s : Shop.t ObjectId),
          ObjectId_new (params_id req) = Some oid
          /\ s ∈ shops w
          /\ Shop._id s = oid
          /\ Shop.ownerId s = userId req
          /\ is_Some (deployments w !! Shop.mongodbUri s)).
Proof.
  destruct (getShop (params_id req) (userId req) w) as [[[shop|]|e] w1] eqn:Hg.
  - assert (Hf : fst (getShop (params_id req) (userId req) w)
                 = Ok (Some shop)) by (rewrite Hg; reflexivity).
    destruct (getShop_resolved _ _ _ _ Hf) as (oid & s & H1 & H2 & H3 & H4 & H5).
    destruct (deployments w !! Shop.mongodbUri shop) as [dbs|] eqn:Hr.
    + destruct (serve_answers route req w) as [res Hres].
      exists res. split; [exact Hres|]. intros _.
      exists oid, s. rewrite <- H5, Hr. eauto.
    + destruct (serve_unreachable route req w shop Hf Hr) as (res & Hres & Hs).
      exists res. split; [exact Hres|]. intros [H|H]; rewrite H in Hs;
        destruct Hs; discriminate.
  - rewrite serve_after_getShop, Hg. eexists. split; [reflexivity|].
    simpl. intros [H|H]; discriminate.
  - rewrite serve_after_getShop, Hg. eexists. split; [reflexivity|].
    simpl. intros [H|H]; destruct route; discriminate.
Qed.

(** X12: a body that fails validation is answered 400 before the store of
    the shop is contacted: nothing changes, no connection is attempted. *)
Theorem invalid_body_is_rejected_before_connecting
    (req : Request) (w : World) (shop : Shop.t string) :
  fst (getShop (params_id req) (userId req) w) = Ok (Some shop) ->
  (insertProductSchema_parse (body req) = None ->
   serve PostProduct req w
   = (Ok (mkRes 400 (Message "Invalid product data")), w))
  /\ (updateProductSchema_parse (body req) = None ->
      serve PutProduct req w
      = (Ok (mkRes 400 (Message "Invalid product data")), w)).
Proof.
  intros Hg. apply getShop_found in Hg.
  split; intros Hp; unfold handle, post_product, put_product, try_catch;
    unfold bind at 1; rewrite Hg; unfold parsed; rewrite Hp; reflexivity.
Qed.

(** X13: on a reachable store, a well-formed product id that no product
    carries is answered 404 "Product not found" by the reading, the
    updating and the deleting route alike, and the store is left as it
    was. *)
Theorem missing_product_is_answered_404
    (route : CatalogRoute) (req : Request) (w : World)
    (shop : Shop.t string) (oid : ObjectId) :
  fst (getShop (params_id req) (userId req) w) = Ok (Some shop) ->
  is_Some (deployments w !! Shop.mongodbUri shop) ->
  ObjectId_new (params_productId req) = Some oid ->
  (forall d, d ∈ catalog (Shop.mongodbUri shop) w -> _id d <> oid) ->
  match route with
  | GetProduct | DeleteProduct => True
  | PutProduct => is_Some (updateProductSchema_parse (body req))
  | _ => False
  end ->
  serve route req w
  = (Ok (mkRes 404 (Message "Product not found")),
     connected (Shop.mongodbUri shop) w).
Proof.
  intros Hg [dbs Hr] Hoid Habs Hroute. apply getShop_found in Hg.
  destruct route; try contradiction;
    unfold handle, get_product, put_product, delete_product, try_catch;
    unfold bind at 1; rewrite Hg.
  - unfold bind at 1.
    rewrite (getShopProductById_reachable _ _ _ _ _ Hr Hoid).
    rewrite (find_has_id_absent _ _ Habs). reflexivity.
  - destruct Hroute as [v Hv]. unfold parsed. rewrite Hv.
    unfold bind at 1. change (ret v w) with (Ok v, w). cbv beta iota.
    unfold bind at 1.
    rewrite (updateShopProduct_reachable _ _ _ _ _ _ Hr Hoid).
    rewrite (update_first_absent _ _ _ Habs). reflexivity.
  - unfold bind at 1.
    rewrite (deleteShopProduct_reachable _ _ _ _ _ Hr Hoid).
    rewrite (delete_first_absent _ _ Habs). reflexivity.
Qed.

End RouteAnswers.

(* ===================================================================== *)
(** * The rate fetcher: expiry, error containment, unreadable pages *)
(* ===================================================================== *)

Section RateFetcherCalls.
Import Rates.

Lemma scrape_attempt e s :
  fresh s e = None ->
  exists r s',
    scrapeIBJARates e s = (Ok r, s')
    /\ requests s' = (requests s ++ [url])%list
    /\ match fetch_outcome e with
       | Ok (g24, g22) =>
           r = rates_of g24 g22 (builtAt e)
           /\ cachedRates s' = Some r /\ lastFetchTime s' = Some (fetchedAt e)
       | Throw _ =>
           r = default (not_available (builtAt e)) (cachedRates s)
           /\ cachedRates s' = cachedRates s
           /\ lastFetchTime s' = lastFetchTime s
       end.
Proof.
  intros Hf. rewrite (scrape_stale _ _ Hf). unfold try_catch.
  destruct (fetch_outcome e) as [[g24 g22]|msg] eqn:Ho.
  - destruct (try_body_success e (announced s) g24 g22 Ho)
      as (s1 & -> & Hc & Ht & Hr).
    eexists _, s1. split; [reflexivity|]. auto.
  - destruct (try_body_failure e (announced s) msg Ho)
      as (s1 & -> & Hc & Ht & Hr).
    simpl in Hc, Ht, Hr.
    unfold catch_body, bind, Rates.emit, modify, get, ret. simpl.
    rewrite Hc. destruct (cachedRates s) as [cached|]; simpl;
      eexists _, _; (split; [reflexivity|]); simpl; auto.
Qed.

(** X14: a call never throws, sends at most one request, and changes the
    two cache variables only together, to the value it returns and the
    time of a fetch it made. *)
Theorem scrapeIBJARates_contains_every_failure (e : Env) (s : State) :
  exists (r : IBJARates) (s' : State),
    scrapeIBJARates e s = (Ok r, s')
    /\ (requests s' = requests s
        \/ requests s' = (requests s ++ [url])%list)
    /\ (cachedRates s' = cachedRates s /\ lastFetchTime s' = lastFetchTime s
        \/ requests s' = (requests s ++ [url])%list
           /\ cachedRates s' = Some r
           /\ lastFetchTime s' = Some (fetchedAt e)).
Proof.
  destruct (fresh s e) as [cached|] eqn:Hf.
  - destruct (scrape_fresh _ _ _ Hf) as (s' & H & Hc & Ht & Hr).
    exists cached, s'. auto.
  - destruct (scrape_attempt e s Hf) as (r & s' & H & Hr & Ho).
    exists r, s'. split; [exact H|]. split; [by right|].
    destruct (fetch_outcome e) as [[g24 g22]|msg].
    + right. tauto.
    + left. tauto.
Qed.

(** X15: a cached value that is [CACHE_DURATION] old or older is not
    served: the call sends a request, and a successful fetch replaces the
    value and the time of the fetch. *)
Theorem expired_cache_is_refreshed
    (s : State) (e : Env) (old : IBJARates) (t : Z) (g24 g22 : float) :
  cachedRates s = Some old ->
  lastFetchTime s = Some t ->
  CACHE_DURATION <= now e - t ->
  fetch_outcome e = Ok (g24, g22) ->
  exists s',
    scrapeIBJARates e s = (Ok (rates_of g24 g22 (builtAt e)), s')
    /\ requests s' = (requests s ++ [url])%list
    /\ cachedRates s' = Some (rates_of g24 g22 (builtAt e))
    /\ lastFetchTime s' = Some (fetchedAt e).
Proof.
  intros Hc Ht Hage Ho.
  assert (Hf : fresh s e = None).
  { unfold fresh. rewrite Hc, Ht.
    destruct (Z.ltb_spec (now e - t) CACHE_DURATION); [lia|reflexivity]. }
  destruct (scrape_attempt e s Hf) as (r & s' & H & Hr & Hres).
  rewrite Ho in Hres. destruct Hres as (-> & Hc' & Ht').
  exists s'. auto.
Qed.

Lemma scan_item_keeps_24k acc text :
  JS.includes text "Fine Gold (999)" = false ->
  fst (scan_item acc text) = fst acc.
Proof.
  intros H. unfold scan_item. destruct acc as [a b]. rewrite H.
  destruct (JS.includes text "22 KT"); [|reflexivity].
  destruct (match_rupee text); reflexivity.
Qed.

Lemma scan_item_keeps_22k acc text :
  JS.includes text "22 KT" = false
  \/ JS.includes text "Fine Gold (999)" = true ->
  snd (scan_item acc text) = snd acc.
Proof.
  intros H. unfold scan_item. destruct acc as [a b].
  destruct (JS.includes text "Fine Gold (999)").
  - destruct (match_rupee text); reflexivity.
  - destruct H as [->|H]; [reflexivity|discriminate].
Qed.

Lemma fold_scan_keeps {A} (proj : float * float -> A) (ok : string -> Prop)
    items acc :
  (forall acc text, ok text -> proj (scan_item acc text) = proj acc) ->
  Forall ok items ->
  proj (fold_left scan_item items acc) = proj acc.
Proof.
  intros Hstep. revert acc.
  induction items as [|text items IH]; intros acc Hall; simpl; [reflexivity|].
  apply Forall_cons in Hall as [Ht Hall].
  rewrite (IH _ Hall). by apply Hstep.
Qed.

(** X16: a page that answers but carries no item for 24-carat gold, or
    whose every "22 KT" item also mentions "Fine Gold (999)", counts as a
    failed fetch: the call sends its request and ends in the [catch]
    block, so the cache is left alone and the caller gets the cached
    value, or "not available". *)
Theorem page_without_both_prices_is_a_failure
    (e : Env) (s : State) (status : Z) (items : list string) :
  page e = Response true status items ->
  Forall (fun text => JS.includes text "Fine Gold (999)" = false) items
  \/ Forall (fun text => JS.includes text "22 KT" = false
                         \/ JS.includes text "Fine Gold (999)" = true) items ->
  fetch_outcome e = Throw "Could not parse gold rates from IBJA website"
  /\ (fresh s e = None ->
      exists s',
        scrapeIBJARates e s
        = (Ok (default (not_available (builtAt e)) (cachedRates s)), s')
        /\ cachedRates s' = cachedRates s
        /\ lastFetchTime s' = lastFetchTime s).
Proof.
  intros Hp Hitems.
  assert (Ho : fetch_outcome e
               = Throw "Could not parse gold rates from IBJA website").
  { unfold fetch_outcome. rewrite Hp. simpl.
    destruct (scan items) as [a b] eqn:Hs. unfold scan in Hs.
    destruct Hitems as [H|H].
    - pose proof (fold_scan_keeps fst _ items (0%float, 0%float)
                    scan_item_keeps_24k H) as Hk.
      rewrite Hs in Hk. simpl in Hk. subst a. reflexivity.
    - pose proof (fold_scan_keeps snd _ items (0%float, 0%float)
                    scan_item_keeps_22k H) as Hk.
      rewrite Hs in Hk. simpl in Hk. subst b.
      rewrite orb_true_r. reflexivity. }
  split; [exact Ho|]. intros Hf.
  destruct (scrape_attempt e s Hf) as (r & s' & H & _ & Hres).
  rewrite Ho in Hres. destruct Hres as (-> & Hc & Ht).
  exists s'. auto.
Qed.

End RateFetcherCalls.

(* ===================================================================== *)
(** * Database names: what every connection string resolves to *)
(* ===================================================================== *)

Section DatabaseNames.
Context {driver : Driver}.

Lemma split_parts_lack c sep s :
  has_char c s = false ->
  Forall (fun p => has_char c p = false) (JS.split sep s).
Proof.
  induction s as [|a r IH]; simpl; intros H.
  - repeat constructor.
  - apply orb_false_iff in H as [Ha Hr]. specialize (IH Hr).
    destruct (Ascii.eqb a sep).
    + constructor; [reflexivity|exact IH].
    + destruct (JS.split sep r) as [|p parts]; simpl.
      * repeat constructor. simpl. rewrite Ha. reflexivity.
      * apply Forall_cons in IH as [Hp Hparts].
        constructor; [|exact Hparts]. simpl. rewrite Ha. exact Hp.
Qed.

Lemma split_parts_lack_separator sep s :
  Forall (fun p => has_char sep p = false) (JS.split sep s).
Proof.
  induction s as [|a r IH]; simpl.
  - repeat constructor.
  - destruct (Ascii.eqb a sep) eqn:Ha.
    + constructor; [reflexivity|exact IH].
    + destruct (JS.split sep r) as [|p parts]; simpl.
      * repeat constructor. simpl. rewrite Ha. reflexivity.
      * apply Forall_cons in IH as [Hp Hparts].
        constructor; [|exact Hparts]. simpl. rewrite Ha. exact Hp.
Qed.

Lemma last_part_Forall (P : string -> Prop) parts p :
  Forall P parts -> JS.last_part parts = Some p -> P p.
Proof.
  induction parts as [|q parts IH]; simpl; [discriminate|].
  intros Hall. apply Forall_cons in Hall as [Hq Hall].
  destruct parts as [|q' parts']; [by intros [= <-]|].
  by apply IH.
Qed.

Lemma hd_Forall (P : string -> Prop) parts :
  P EmptyString -> Forall P parts -> P (hd EmptyString parts).
Proof. intros H0 Hall. destruct Hall; assumption. Qed.

Lemma extractDbName_plain mongoUri :
  has_char "/" (extractDbName mongoUri) = false
  /\ has_char "?" (extractDbName mongoUri) = false.
Proof.
  unfold extractDbName.
  destruct (JS.last_part (JS.split "/" mongoUri)) as [lastPart|] eqn:Hl;
    [|split; reflexivity].
  pose proof (last_part_Forall _ _ _ (split_parts_lack_separator "/" mongoUri) Hl)
    as Hslash. simpl in Hslash.
  split.
  - apply (hd_Forall (fun p => has_char "/" p = false)); [reflexivity|].
    by apply split_parts_lack.
  - apply (hd_Forall (fun p => has_char "?" p = false)); [reflexivity|].
    apply split_parts_lack_separator.
Qed.

(** X17: whatever the connection string, the database that
    [connectToShopDB] opens has a name that is not blank and holds neither
    '/' nor '?'. *)
Theorem connectToShopDB_opens_a_named_database
    (mongoUri : string) (w : World) (db : Db) :
  fst (connectToShopDB mongoUri w) = Ok db ->
  client db = mongoUri
  /\ blank (databaseName db) = false
  /\ has_char "/" (databaseName db) = false
  /\ has_char "?" (databaseName db) = false.
Proof.
  destruct (deployments w !! mongoUri) as [dbs|] eqn:Hr.
  - rewrite (connectToShopDB_reachable _ _ _ Hr). simpl. intros [= <-]. simpl.
    split; [reflexivity|]. unfold resolvedDbName.
    destruct (blank (extractDbName mongoUri)) eqn:Hb.
    + repeat split; reflexivity.
    + destruct (extractDbName_plain mongoUri). auto.
  - rewrite (connectToShopDB_unreachable _ _ Hr).
    destruct (MongoClient_new mongoUri); discriminate.
Qed.

(** X18: for a connection string without a query, [connectToShopDB]
    opens the database named by what follows the last '/', and "test"
    when that is empty or white space only. *)
Theorem connectToShopDB_without_query
    (prefix name : string) (w : World) :
  has_char "/" name = false ->
  has_char "?" name = false ->
  is_Some (deployments w !! (prefix ++ "/" ++ name)%string) ->
  fst (connectToShopDB (prefix ++ "/" ++ name) w)
  = Ok (mkDb (prefix ++ "/" ++ name) (if blank name then "test" else name)).
Proof.
  intros Hs Hq [dbs Hr].
  rewrite (connectToShopDB_reachable _ _ _ Hr). simpl.
  assert (He : extractDbName (prefix ++ "/" ++ name) = name).
  { unfold extractDbName.
    change (prefix ++ "/" ++ name)%string
      with (prefix ++ String "/" name)%string.
    rewrite last_part_after_separator, (split_without_separator _ _ Hs).
    simpl. rewrite (split_without_separator _ _ Hq). reflexivity. }
  unfold resolvedDbName. rewrite He. reflexivity.
Qed.

End DatabaseNames.

(* ===================================================================== *)
(** * The directory connection *)
(* ===================================================================== *)

Section DirectoryConnection.
Import Connection.





Lemma getDatabase_disconnected s :
  db s = None -> getDatabase s = (Throw not_connected, s).
Proof. intros H. unfold getDatabase, bind, get. rewrite H. reflexivity. Qed.


Lemma connectToMongoDB_failure e s :
  db s = None ->
  connectable e = false ->
  exists msg s',
    connectToMongoDB e s = (Throw msg, s')
    /\ db s' = None /\ storageInstance s' = storageInstance s.
Proof.
  intros Hdb Hc. unfold connectable in Hc.
  unfold connectToMongoDB. unfold bind at 1, get. rewrite Hdb.
  destruct (env_or (ADMIN_MONGODB_URI e) (MONGODB_URI e)) as [mongoUri|];
    [|exists not_set, s; auto].
  destruct (JS.truthy mongoUri);
    [change (negb true) with false|change (negb false) with true];
    cbv iota; [|exists not_set, s; auto].
  unfold try_catch. simpl in Hc.
  destruct (parses e mongoUri); simpl in Hc.
  - rewrite Hc. eexists _, _. split; [reflexivity|]. simpl. auto.
  - eexists _, _. split; [reflexivity|]. simpl. auto.
Qed.

(** X20: where no connection string is set, or the driver rejects it, or
    the deployment does not answer, [connectToMongoDB] throws and leaves
    [db] unset: the start of [registerRoutes] throws the same error, and
    [getDatabase] and a first [getStorage] throw "Database not
    connected". *)
Theorem failed_connect_leaves_no_database (e : Env) (s : State) :
  db s = None ->
  storageInstance s = None ->
  connectable e = false ->
  exists (msg : string) (s' : State),
    connectToMongoDB e s = (Throw msg, s')
    /\ db s' = None
    /\ fst (registerRoutes_connect e s) = Throw msg
    /\ getDatabase s' = (Throw not_connected, s')
    /\ getStorage s' = (Throw not_connected, s').
Proof.
  intros Hdb Hst Hc.
  destruct (connectToMongoDB_failure e s Hdb Hc) as (msg & s' & H & Hdb' & Hst').
  exists msg, s'. split; [exact H|]. split; [exact Hdb'|].
  split.
  - unfold registerRoutes_connect, try_catch. unfold bind at 1.
    rewrite H. reflexivity.
  - split; [by apply getDatabase_disconnected|].
    unfold getStorage. unfold bind at 1, get. rewrite Hst', Hst.
    unfold bind at 1. rewrite (getDatabase_disconnected _ Hdb'). reflexivity.
Qed.

Lemma dbName_of_extractDbName mongoUri :
  dbName_of mongoUri
  = if JS.truthy (extractDbName mongoUri) then extractDbName mongoUri
    else "jewelry_admin_panel".
Proof.
  unfold dbName_of, extractDbName.
  destruct (JS.last_part (JS.split "/" mongoUri)); reflexivity.
Qed.

(** X21: for a connection string [scheme://host/dbName?query] the
    directory connection opens the database [dbName], and
    "jewelry_admin_panel" when [dbName] is empty; it agrees with
    [connectToShopDB] on every name that is not blank. *)
Theorem directory_database_name (scheme host dbName query : string) :
  has_char "/" dbName = false ->
  has_char "?" dbName = false ->
  has_char "/" query = false ->
  let mongoUri := connection_string scheme host dbName query in
  dbName_of mongoUri
  = (if JS.truthy dbName then dbName else "jewelry_admin_panel")
  /\ (blank dbName = false -> dbName_of mongoUri = resolvedDbName mongoUri).
Proof.
  intros Hd Hq Hs mongoUri.
  pose proof (extractDbName_connection_string scheme host dbName query Hd Hq Hs)
    as He. fold mongoUri in He.
  rewrite dbName_of_extractDbName. unfold resolvedDbName. rewrite He.
  split; [reflexivity|]. intros Hb. rewrite Hb.
  unfold blank in Hb. apply orb_false_iff in Hb as [Ht _].
  apply negb_false_iff in Ht. rewrite Ht. reflexivity.
Qed.

(** X22: [closeConnection] closes the client and unsets [client] and
    [db], so that [getDatabase] throws again; the storage that [getStorage]
    created before is not reset, and [getStorage] goes on returning it,
    bound to the handle of the closed connection. *)
Theorem closeConnection_keeps_the_storage
    (s : State) (c : string) (storage : Db) :
  client s = Some c ->
  storageInstance s = Some storage ->
  exists s' : State,
    closeConnection s = (Ok tt, s')
    /\ client s' = None /\ db s' = None
    /\ closed s' = (closed s ++ [c])%list
    /\ getDatabase s' = (Throw not_connected, s')
    /\ getStorage s' = (Ok storage, s')
    /\ closeConnection s' = (Ok tt, s').
Proof.
  intros Hc Hs. unfold closeConnection. unfold bind at 1, get. rewrite Hc.
  eexists. split; [reflexivity|]. simpl.
  repeat split.
  unfold getStorage, bind, get. simpl. rewrite Hs. reflexivity.
Qed.

End DirectoryConnection.

(* ===================================================================== *)
(** * The shop directory: each administrator sees and changes only their own
      shops *)
(* ===================================================================== *)

Section ShopDirectory.
Import Directory.
Context {driver : Driver}.

Lemma collection_up (s : Store) :
  up s = true -> collection s = (Ok (shop_docs s), s).
Proof. intros H. unfold collection, bind, get. rewrite H. reflexivity. Qed.

Lemma collection_state (s : Store) : snd (collection s) = s.
Proof. unfold collection, bind, get. destruct (up s); reflexivity. Qed.


Lemma update_first_others oid owner set now (docs : list (Shop ObjectId)) :
  List.filter (fun d => negb (of_owner owner d))
              (fst (update_first oid owner set now docs))
  = List.filter (fun d => negb (of_owner owner d)) docs.
Proof.
  induction docs as [|d docs IH]; simpl; [reflexivity|].
  destruct (is_shop oid owner d) eqn:Hd; simpl.
  - unfold is_shop in Hd. apply andb_true_iff in Hd as [_ Ho].
    unfold of_owner. simpl. rewrite Ho. reflexivity.
  - destruct (update_first oid owner set now docs) as [rest' found].
    simpl in *. rewrite IH. reflexivity.
Qed.

Lemma delete_first_others oid owner (docs : list (Shop ObjectId)) :
  List.filter (fun d => negb (of_owner owner d))
              (fst (delete_first oid owner docs))
  = List.filter (fun d => negb (of_owner owner d)) docs.
Proof.
  induction docs as [|d docs IH]; simpl; [reflexivity|].
  destruct (is_shop oid owner d) eqn:Hd; simpl.
  - unfold is_shop in Hd. apply andb_true_iff in Hd as [_ Ho].
    unfold of_owner. rewrite Ho. reflexivity.
  - destruct (delete_first oid owner docs) as [rest' n].
    simpl in *. rewrite IH. reflexivity.
Qed.

Lemma delete_first_none oid owner (docs : list (Shop ObjectId)) :
  snd (delete_first oid owner docs) = 0 ->
  fst (delete_first oid owner docs) = docs.
Proof.
  induction docs as [|d docs IH]; simpl; [reflexivity|].
  destruct (is_shop oid owner d); simpl; [discriminate|].
  destruct (delete_first oid owner docs) as [rest' n]. simpl in *.
  intros H. rewrite (IH H). reflexivity.
Qed.

(** X24: whatever an administrator creates, updates or deletes, with
    whatever identifier, the shops of every other administrator stay as
    they are. *)
Theorem shops_of_others_are_untouched (owner : string) (s : Store) :
  (forall shop now fresh,
     shops_of_others owner (snd (createShop shop owner now fresh s))
     = shops_of_others owner s)
  /\ (forall id shop now,
        shops_of_others owner (snd (updateShop id shop owner now s))
        = shops_of_others owner s)
  /\ (forall id,
        shops_of_others owner (snd (deleteShop id owner s))
        = shops_of_others owner s).
Proof.
  unfold shops_of_others. repeat split.
  - intros shop now fresh. unfold createShop. unfold bind at 1.
    unfold collection, bind, get. destruct (up s); [|reflexivity].
    simpl. destruct (existsb _ _); simpl; [reflexivity|].
    rewrite List.filter_app. simpl. unfold of_owner at 2. simpl.
    rewrite String.eqb_refl. simpl. apply app_nil_r.
  - intros id shop now. unfold updateShop. unfold bind at 1, lift.
    destruct (stringToObjectId id) as [oid|]; [|reflexivity].
    unfold bind at 1. unfold collection, bind, get.
    destruct (up s); [|reflexivity]. simpl.
    pose proof (update_first_others oid owner shop now (shop_docs s)) as H.
    destruct (update_first oid owner shop now (shop_docs s)) as [docs' [v|]];
      simpl in *; [exact H|reflexivity].
  - intros id. unfold deleteShop. unfold bind at 1, lift.
    destruct (stringToObjectId id) as [oid|]; [|reflexivity].
    unfold bind at 1. unfold collection, bind, get.
    destruct (up s); [|reflexivity]. simpl.
    pose proof (delete_first_others oid owner (shop_docs s)) as H.
    destruct (delete_first oid owner (shop_docs s)) as [docs' n].
    simpl in *. destruct (n =? 0); simpl; [reflexivity|exact H].
Qed.

Lemma update_first_foreign oid owner set now (docs : list (Shop ObjectId)) :
  (forall d, d ∈ docs -> _id d = oid -> ownerId d <> owner) ->
  update_first oid owner set now docs = (docs, None).
Proof.
  induction docs as [|d docs IH]; intros H; simpl; [reflexivity|].
  destruct (is_shop oid owner d) eqn:Hd.
  - exfalso. unfold is_shop in Hd. apply andb_true_iff in Hd as [H1 H2].
    apply bool_decide_eq_true in H1. apply String.eqb_eq in H2.
    apply (H d); [left|exact H1|exact H2].
  - rewrite IH; [reflexivity|]. intros x Hx. apply H. by right.
Qed.

Lemma delete_first_foreign oid owner (docs : list (Shop ObjectId)) :
  (forall d, d ∈ docs -> _id d = oid -> ownerId d <> owner) ->
  delete_first oid owner docs = (docs, 0).
Proof.
  induction docs as [|d docs IH]; intros H; simpl; [reflexivity|].
  destruct (is_shop oid owner d) eqn:Hd.
  - exfalso. unfold is_shop in Hd. apply andb_true_iff in Hd as [H1 H2].
    apply bool_decide_eq_true in H1. apply String.eqb_eq in H2.
    apply (H d); [left|exact H1|exact H2].
  - rewrite IH; [reflexivity|]. intros x Hx. apply H. by right.
Qed.

(** X25: an identifier that belongs to no shop of the caller, be it the
    shop of another administrator, is answered as if the shop did not
    exist: [updateShop] returns [null], [deleteShop] returns [false],
    and the store is unchanged. *)
Theorem foreign_shop_is_not_found
    (id : string) (oid : ObjectId) (owner : string) (s : Store) :
  up s = true ->
  ObjectId_new id = Some oid ->
  (forall d, d ∈ shop_docs s -> _id d = oid -> ownerId d <> owner) ->
  (forall shop now, updateShop id shop owner now s = (Ok None, s))
  /\ deleteShop id owner s = (Ok false, s).
Proof.
  intros Hup Hoid Hforeign. split.
  - intros shop now. unfold updateShop. unfold bind at 1, lift, stringToObjectId.
    rewrite Hoid. unfold bind at 1. rewrite (collection_up _ Hup).
    rewrite (update_first_foreign _ _ _ _ _ Hforeign). reflexivity.
  - unfold deleteShop. unfold bind at 1, lift, stringToObjectId.
    rewrite Hoid. unfold bind at 1. rewrite (collection_up _ Hup).
    rewrite (delete_first_foreign _ _ _ Hforeign). reflexivity.
Qed.

Lemma find_owned_app oid owner (l : list (Shop.t ObjectId)) x :
  (forall d, d ∈ l -> Shop._id d <> oid) ->
  List.find (owned_by oid owner) (l ++ [x])
  = if owned_by oid owner x then Some x else None.
Proof.
  induction l as [|d l IH]; intros H; simpl; [reflexivity|].
  assert (Hd : owned_by oid owner d = false).
  { unfold owned_by. rewrite bool_decide_eq_false_2; [reflexivity|].
    apply H. left. }
  rewrite Hd. apply IH. intros y Hy. apply H. by right.
Qed.

Lemma getShop_up id oid owner (w : World) :
  ObjectId_new id = Some oid ->
  directory_up w = true ->
  fst (getShop id owner w)
  = Ok (option_map
          (fun shop => Shop.mk (toHexString (Shop._id shop)) (Shop.ownerId shop)
                               (Shop.name shop) (Shop.imageUrl shop)
                               (Shop.mongodbUri shop))
          (List.find (owned_by oid owner) (shops w))).
Proof.
  intros Hoid Hup. unfold getShop, bind, lift, get, stringToObjectId.
  rewrite Hoid, Hup. destruct (List.find _ _); reflexivity.
Qed.

(** X26: a shop that was just created is found by [getShop] under the
    identifier [createShop] returned when its owner asks, with the data
    it was created with, and is not found when anyone else asks.  The
    driver must read back the identifiers it prints. *)
Theorem created_shop_is_found_by_its_owner_only
    (shop : InsertShop) (owner : string) (now : Z) (fresh : ObjectId)
    (s : Store) (w : World) :
  up s = true ->
  (forall d, d ∈ shop_docs s -> _id d <> fresh) ->
  ObjectId_new (toHexString fresh) = Some fresh ->
  exists (created : Shop string) (s' : Store),
    createShop shop owner now fresh s = (Ok created, s')
    /\ ownerId created = owner
    /\ data created = shop
    /\ createdAt created = now /\ updatedAt created = now
    /\ fst (getShop (_id created) owner (world_of s' w))
       = Ok (Some (Shop.mk (_id created) owner (name shop) (imageUrl shop)
                           (mongodbUri shop)))
    /\ forall other, other <> owner ->
         fst (getShop (_id created) other (world_of s' w)) = Ok None.
Proof.
  intros Hup Hfresh Hrt.
  unfold createShop. unfold bind at 1. rewrite (collection_up _ Hup).
  assert (He : existsb (fun d => bool_decide (_id d = fresh)) (shop_docs s)
               = false).
  { clear -Hfresh. induction (shop_docs s) as [|d l IH]; simpl; [reflexivity|].
    rewrite bool_decide_eq_false_2 by (apply Hfresh; left). simpl.
    apply IH. intros x Hx. apply Hfresh. by right. }
  rewrite He.
  set (doc := mkShop fresh owner shop now now).
  exists (mkShop (toHexString fresh) owner shop now now),
         (mkStore (shop_docs s ++ [doc]) (up s)).
  split; [reflexivity|].
  assert (Hfind : forall who,
            List.find (owned_by fresh who)
                      (shops (world_of (mkStore (shop_docs s ++ [doc]) (up s)) w))
            = if String.eqb owner who then Some (core doc) else None).
  { intros who. unfold world_of.
    change (shops _) with (map core (shop_docs s ++ [doc])).
    rewrite map_app. change (map core [doc]) with [core doc].
    rewrite find_owned_app.
    - unfold owned_by. change (Shop._id (core doc)) with fresh.
      change (Shop.ownerId (core doc)) with owner.
      rewrite bool_decide_eq_true_2 by reflexivity. reflexivity.
    - intros d Hd. apply list_elem_of_fmap in Hd as (x & -> & Hx).
      by apply Hfresh. }
  assert (Hup' : directory_up
                   (world_of (mkStore (shop_docs s ++ [doc]) (up s)) w) = true)
    by exact Hup.
  repeat split.
  - rewrite (getShop_up _ fresh _ _ Hrt Hup'), Hfind, String.eqb_refl.
    reflexivity.
  - intros other Hother.
    rewrite (getShop_up _ fresh _ _ Hrt Hup'), Hfind.
    destruct (String.eqb_spec owner other) as [->|_]; [congruence|].
    reflexivity.
Qed.




End ShopDirectory.

(* ===================================================================== *)
(** * Sessions *)
(* ===================================================================== *)

Section Sessions.
Import Auth.
Context {driver : Driver} {Body : Type}.
Variable loginSchema_parse : Body -> option LoginUser.
Variable bcrypt_compare : string -> string -> bool.

Lemma strip_prefix_append p s : Rates.strip_prefix p (p ++ s) = Some s.
Proof.
  induction p as [|a p IH]; [reflexivity|].
  rewrite append_cons. simpl. rewrite Ascii.eqb_refl. exact IH.
Qed.

Lemma remove_first_prefix p s : remove_first p (p ++ s) = s.
Proof.
  destruct (p ++ s)%string eqn:E; simpl; rewrite <- E, strip_prefix_append;
    reflexivity.
Qed.

Lemma strip_prefix_none p s :
  String.prefix p s = false -> Rates.strip_prefix p s = None.
Proof.
  revert s. induction p as [|a p IH]; intros [|b s]; simpl;
    try discriminate; try reflexivity.
  destruct (ascii_dec a b) as [->|Hab].
  - rewrite Ascii.eqb_refl. apply IH.
  - intros _. destruct (Ascii.eqb_spec a b); [contradiction|reflexivity].
Qed.

Lemma remove_first_absent p s :
  JS.includes s p = false -> remove_first p s = s.
Proof.
  induction s as [|a s IH]; intros H.
  - change (String.prefix p "" || false = false) in H.
    apply orb_false_iff in H as [Hp _].
    simpl. rewrite (strip_prefix_none _ _ Hp). reflexivity.
  - change (String.prefix p (String a s) || JS.includes s p = false) in H.
    apply orb_false_iff in H as [Hp Hr].
    change (remove_first p (String a s))
      with (match Rates.strip_prefix p (String a s) with
            | Some rest => rest
            | None => String a (remove_first p s)
            end).
    rewrite (strip_prefix_none _ _ Hp), (IH Hr). reflexivity.
Qed.

Lemma truthy_nonempty s : s <> "" -> JS.truthy s = true.
Proof.
  intros Hne. unfold JS.truthy.
  destruct (String.eqb_spec s ""); [contradiction|reflexivity].
Qed.

Lemma requireAuth_bearer (sessions : gmap string string) sessionId userId :
  sessions !! sessionId = Some userId ->
  sessionId <> "" ->
  requireAuth (Some ("Bearer " ++ sessionId)) sessions = Next userId.
Proof.
  intros Hs Hne. unfold requireAuth, sessionId_of, option_map.
  rewrite remove_first_prefix, (truthy_nonempty _ Hne), Hs. reflexivity.
Qed.

(** X27: the token of a live session is accepted after "Bearer ", and
    the request goes on as the user of that session; the bare token,
    without the scheme, is accepted as well. *)
Theorem requireAuth_accepts_a_live_session
    (sessions : gmap string string) (sessionId userId : string) :
  sessions !! sessionId = Some userId ->
  sessionId <> "" ->
  requireAuth (Some ("Bearer " ++ sessionId)) sessions = Next userId
  /\ (JS.includes sessionId "Bearer " = false ->
      requireAuth (Some sessionId) sessions = Next userId).
Proof.
  intros Hs Hne. split; [by apply requireAuth_bearer|]. intros Hinc.
  unfold requireAuth, sessionId_of, option_map.
  rewrite (remove_first_absent _ _ Hinc), (truthy_nonempty _ Hne), Hs.
  reflexivity.
Qed.

(** X28: logging out ends the session: the same header is answered 401
    from then on, and every other session is as before. *)
Theorem logout_ends_the_session
    (authorization : option string) (userId : string) (s : Server) :
  requireAuth authorization (sessions s) = Next userId ->
  exists s' : Server,
    logout authorization s = (Ok LoggedOut, s')
    /\ users s' = users s
    /\ requireAuth authorization (sessions s') = Unauthorized
    /\ forall other : option string,
         sessionId_of other <> sessionId_of authorization ->
         requireAuth other (sessions s') = requireAuth other (sessions s).
Proof.
  intros Hauth. unfold logout. unfold bind at 1, get. rewrite Hauth.
  unfold requireAuth in Hauth |- *.
  destruct (sessionId_of authorization) as [sid|] eqn:Hsid; [|discriminate].
  destruct (JS.truthy sid) eqn:Ht; [|discriminate].
  eexists. split; [reflexivity|]. simpl.
  split; [reflexivity|]. split.
  - rewrite lookup_delete_eq. reflexivity.
  - intros other Hother.
    destruct (sessionId_of other) as [sid2|]; [|reflexivity].
    destruct (JS.truthy sid2); [|reflexivity]. simpl.
    rewrite lookup_delete_ne by congruence. reflexivity.
Qed.

Local Abbreviation login_ := (login loginSchema_parse bcrypt_compare).

Lemma find_email_some email_ (l : list (User ObjectId)) u :
  List.find (fun u => String.eqb (email u) email_) l = Some u ->
  u ∈ l /\ email u = email_.
Proof.
  intros H. apply find_some in H as [Hin He].
  split; [by apply list_elem_of_In|by apply String.eqb_eq].
Qed.

(** X29: [login] never throws, and it opens a session only for a user of
    the collection who has the e-mail of the request and whose stored hash
    [bcrypt.compare] accepts for the password of the request; that
    session is then accepted by [requireAuth] as this user.  In every
    other case the sessions are as before. *)
Theorem login_opens_a_session_for_verified_credentials_only
    (body : Body) (uuid : string) (s : Server) :
  exists (reply : Reply) (s' : Server),
    login_ body uuid s = (Ok reply, s')
    /\ users s' = users s
    /\ match reply with
       | LoggedIn sessionId userId _ _ =>
           sessionId = uuid
           /\ sessions s' = <[uuid := userId]> (sessions s)
           /\ (uuid <> "" ->
               requireAuth (Some ("Bearer " ++ uuid)) (sessions s')
               = Next userId)
           /\ exists data user,
                loginSchema_parse body = Some data
                /\ user ∈ users s
                /\ email user = login_email data
                /\ bcrypt_compare (login_password data) (password user) = true
                /\ userId = toHexString (_id user)
       | _ => sessions s' = sessions s
       end.
Proof.
  unfold login, try_catch. unfold bind at 1.
  destruct (loginSchema_parse body) as [data|] eqn:Hparse;
    [|eexists _, _; split; [reflexivity|]; simpl; auto].
  change (ret data s) with (Ok data, s). cbv beta iota.
  unfold bind at 1, getUserByEmail. unfold bind at 1, get.
  destruct (up s); [|eexists _, _; split; [reflexivity|]; simpl; auto].
  destruct (List.find _ (users s)) as [u|] eqn:Hfind;
    [|eexists _, _; split; [reflexivity|]; simpl; auto].
  apply find_email_some in Hfind as [Hin Hemail].
  change (ret ?x s) with (Ok x, s). cbv beta iota.
  cbn [password Auth._id email name].
  destruct (bcrypt_compare (login_password data) (password u)) eqn:Hpw;
    [|eexists _, _; split; [reflexivity|]; simpl; auto].
  eexists _, _. split; [reflexivity|]. simpl.
  split; [reflexivity|]. split; [reflexivity|]. split; [reflexivity|].
  split.
  - intros Hne. apply requireAuth_bearer; [|exact Hne].
    apply lookup_insert_eq.
  - exists data, u. auto.
Qed.

End Sessions.

(* ===================================================================== *)
(** * Examples for the further properties *)
(* ===================================================================== *)

Module MoreExamples.
Import Sample Fixtures.
#[local] Existing Instance driver.

Local Abbreviation serve := (@handle driver unit no_body no_body).

Lemma sample_resolved_name : resolvedDbName mongoUri = "shop".
Proof. vm_compute. reflexivity. Qed.

Lemma sample_catalog : catalog mongoUri world = [ring; chain].
Proof.
  unfold catalog, database_of, shop_db. rewrite sample_resolved_name.
  change (client (mkDb mongoUri "shop")) with mongoUri.
  change (databaseName (mkDb mongoUri "shop")) with "shop".
  rewrite Examples.sample_reachable. simpl mbind.
  unfold mbind, option_bind.
  rewrite (lookup_singleton_eq (M := gmap string)). reflexivity.
Qed.

Lemma sample_unique : unique_ids (catalog mongoUri world).
Proof.
  rewrite sample_catalog. unfold unique_ids. simpl.
  apply NoDup_cons. split.
  - intros H. apply list_elem_of_singleton in H. discriminate.
  - apply NoDup_singleton.
Qed.

Lemma sample_shop_resolves :
  fst (getShop shop_hex "alice" world) = Ok (Some shop_found).
Proof. vm_compute. reflexivity. Qed.

Lemma ring_hex_reads : ObjectId_new ring_hex = Some ring_id.
Proof. vm_compute. reflexivity. Qed.

Lemma new_hex_reads : ObjectId_new new_hex = Some new_id.
Proof. vm_compute. reflexivity. Qed.

(** ** The catalog helpers *)

Lemma stocked_reachable :
  deployments stocked !! mongoUri
  = Some {[ "shop" := mkDatabase [rings_cat; chains_cat] [ring; chain] ]}.
Proof. exact (lookup_singleton_eq _ _). Qed.

Lemma stocked_categories :
  category_list mongoUri stocked = [rings_cat; chains_cat].
Proof.
  unfold category_list, database_of, shop_db. rewrite sample_resolved_name.
  change (client (mkDb mongoUri "shop")) with mongoUri.
  change (databaseName (mkDb mongoUri "shop")) with "shop".
  rewrite stocked_reachable. simpl mbind.
  unfold mbind, option_bind.
  rewrite (lookup_singleton_eq (M := gmap string)). reflexivity.
Qed.

(** The two categories of the stocked shop, listed by display order. *)
Lemma categories_are_listed_in_display_order :
  fst (getShopCategories mongoUri stocked)
  = Ok [stringify_id chains_cat; stringify_id rings_cat].
Proof.
  rewrite (getShopCategories_reachable _ _ _ stocked_reachable).
  rewrite stocked_categories. vm_compute. reflexivity.
Qed.

Lemma getShopCategories_witness :
  exists listing w',
    getShopCategories mongoUri stocked = (Ok listing, w')
    /\ listing ≡ₚ map stringify_id (category_list mongoUri stocked)
    /\ Sorted by_displayOrder listing
    /\ deployments w' = deployments stocked.
Proof.
  apply (getShopCategories_lists_all_sorted mongoUri stocked).
  eexists. exact stocked_reachable.
Defined.

Lemma getShopProductById_witness :
  (forall oid : ObjectId,
     ObjectId_new ring_hex = Some oid ->
     exists r : option Product,
       getShopProductById mongoUri ring_hex world
       = (Ok r, connected mongoUri world)
       /\ (forall before d after,
             catalog mongoUri world = (before ++ d :: after)%list ->
             (forall x, x ∈ before -> _id x <> oid) ->
             _id d = oid ->
             r = Some (mkWithId (toHexString oid) (fields d)))
       /\ ((forall x, x ∈ catalog mongoUri world -> _id x <> oid) -> r = None))
  /\ (ObjectId_new ring_hex = None ->
      getShopProductById mongoUri ring_hex world
      = (Throw "BSONError", connected mongoUri world)).
Proof.
  apply (getShopProductById_finds_by_id mongoUri ring_hex world).
  eexists. exact Examples.sample_reachable.
Defined.

Lemma deleteShopProduct_witness :
  exists (found : bool) (w' : World),
    deleteShopProduct mongoUri ring_hex world = (Ok found, w')
    /\ (forall before d after,
          catalog mongoUri world = (before ++ d :: after)%list ->
          (forall x, x ∈ before -> _id x <> ring_id) ->
          _id d = ring_id ->
          found = true /\ catalog mongoUri w' = (before ++ after)%list)
    /\ ((forall x, x ∈ catalog mongoUri world -> _id x <> ring_id) ->
        found = false /\ deployments w' = deployments world).
Proof.
  apply (deleteShopProduct_removes_one mongoUri ring_hex ring_id world).
  - eexists. exact Examples.sample_reachable.
  - exact ring_hex_reads.
Defined.

Lemma reading_changes_no_store_witness :
  deployments (snd (run_op (ListProducts (Some "rings")) mongoUri world))
  = deployments world.
Proof.
  apply (reading_changes_no_store (ListProducts (Some "rings")) mongoUri world).
  reflexivity.
Defined.


Lemma unreachable_store_witness :
  exists w',
    run_op (DeleteProduct_ ring_hex) mongoUri nowhere = (false, w')
    /\ attempts w'
       = (if MongoClient_new mongoUri then attempts nowhere ++ [mongoUri]
          else attempts nowhere)%list
    /\ open_clients w' = open_clients nowhere
    /\ deployments w' = deployments nowhere.
Proof.
  apply (unreachable_store_fails_cleanly (DeleteProduct_ ring_hex) mongoUri
           nowhere).
  exact (lookup_empty _).
Defined.

(** The sample string is accepted by the driver, so one attempt is made;
    [mongodb://] names no host, so none is. *)
Lemma attempts_on_an_unreachable_store :
  attempts (snd (run_op (DeleteProduct_ ring_hex) mongoUri nowhere))
  = [mongoUri]
  /\ run_op ListCategories "mongodb://" nowhere = (false, nowhere).
Proof. split; vm_compute; reflexivity. Qed.

Lemma ids_stay_unique_witness :
  unique_ids
    (catalog mongoUri (snd (run_op (CreateProduct bangle new_id) mongoUri world))).
Proof.
  apply (catalog_operations_keep_ids_unique (CreateProduct bangle new_id)
           mongoUri world).
  exact sample_unique.
Defined.


Lemma updated_product_is_read_back_witness :
  fst (getShopProductById mongoUri ring_hex
         (snd (updateShopProduct mongoUri ring_hex
                 {[ Field.price := VNum 4000 ]} world)))
  = fst (updateShopProduct mongoUri ring_hex {[ Field.price := VNum 4000 ]}
           world).
Proof.
  apply (updated_product_is_read_back mongoUri ring_hex
           {[ Field.price := VNum 4000 ]} world).
  eexists. exact Examples.sample_reachable.
Defined.

Lemma deleted_product_is_gone_witness :
  fst (getShopProductById mongoUri ring_hex
         (snd (deleteShopProduct mongoUri ring_hex world)))
  = Ok None.
Proof.
  apply (deleted_product_is_gone mongoUri ring_hex ring_id world).
  - eexists. exact Examples.sample_reachable.
  - exact ring_hex_reads.
  - exact sample_unique.
Defined.

(** ** The routes *)

Lemma invalid_body_witness :
  (no_body (body (request shop_hex "" "alice")) = None ->
   serve PostProduct (request shop_hex "" "alice") world
   = (Ok (mkRes 400 (Message "Invalid product data")), world))
  /\ (no_body (body (request shop_hex "" "alice")) = None ->
      serve PutProduct (request shop_hex "" "alice") world
      = (Ok (mkRes 400 (Message "Invalid product data")), world)).
Proof.
  apply (invalid_body_is_rejected_before_connecting no_body no_body
           (request shop_hex "" "alice") world shop_found).
  exact sample_shop_resolves.
Defined.

Lemma missing_product_witness :
  serve DeleteProduct (request shop_hex new_hex "alice") world
  = (Ok (mkRes 404 (Message "Product not found")),
     connected (Shop.mongodbUri shop_found) world).
Proof.
  apply (missing_product_is_answered_404 no_body no_body DeleteProduct
           (request shop_hex new_hex "alice") world shop_found new_id).
  - exact sample_shop_resolves.
  - eexists. exact Examples.sample_reachable.
  - exact new_hex_reads.
  - exact Examples.sample_ids_in_use.
  - exact I.
Defined.

(** ** The rate fetcher *)

Lemma expired_cache_witness :
  exists s',
    Rates.scrapeIBJARates an_hour_later old_cache
    = (Ok (Rates.rates_of (Num.of_Z 7000) (Num.of_Z 6412)
             (Rates.builtAt an_hour_later)), s')
    /\ Rates.requests s' = (Rates.requests old_cache ++ [url])%list
    /\ Rates.cachedRates s'
       = Some (Rates.rates_of (Num.of_Z 7000) (Num.of_Z 6412)
                 (Rates.builtAt an_hour_later))
    /\ Rates.lastFetchTime s' = Some (Rates.fetchedAt an_hour_later).
Proof.
  apply (expired_cache_is_refreshed old_cache an_hour_later old_rates 1001
           (Num.of_Z 7000) (Num.of_Z 6412)).
  - reflexivity.
  - reflexivity.
  - vm_compute. discriminate.
  - vm_compute. reflexivity.
Defined.

Lemma page_without_both_prices_witness :
  fetch_outcome page_22k_only
  = Throw "Could not parse gold rates from IBJA website"
  /\ exists s',
       Rates.scrapeIBJARates page_22k_only old_cache = (Ok old_rates, s')
       /\ Rates.cachedRates s' = Rates.cachedRates old_cache
       /\ Rates.lastFetchTime s' = Rates.lastFetchTime old_cache.
Proof.
  destruct (page_without_both_prices_is_a_failure page_22k_only old_cache 200
              ["22 KT ₹ 6,412"]) as [Ho Hs].
  - reflexivity.
  - left. constructor; [vm_compute; reflexivity|constructor].
  - split; [exact Ho|]. apply Hs. vm_compute. reflexivity.
Defined.

(** ** Database names *)

Lemma named_database_witness :
  client (mkDb mongoUri "shop") = mongoUri
  /\ blank (databaseName (mkDb mongoUri "shop")) = false
  /\ has_char "/" (databaseName (mkDb mongoUri "shop")) = false
  /\ has_char "?" (databaseName (mkDb mongoUri "shop")) = false.
Proof.
  apply (connectToShopDB_opens_a_named_database mongoUri world
           (mkDb mongoUri "shop")).
  rewrite (connectToShopDB_reachable _ _ _ Examples.sample_reachable).
  rewrite sample_resolved_name. reflexivity.
Defined.

Lemma without_query_witness :
  fst (connectToShopDB ("mongodb+srv://cluster0.example.net" ++ "/" ++ "jewels")
                       (world_with plain_uri))
  = Ok (mkDb ("mongodb+srv://cluster0.example.net" ++ "/" ++ "jewels")
             (if blank "jewels" then "test" else "jewels")).
Proof.
  apply (connectToShopDB_without_query "mongodb+srv://cluster0.example.net"
           "jewels" (world_with plain_uri)).
  - reflexivity.
  - reflexivity.
  - eexists. exact (lookup_insert_eq _ _ _).
Defined.

(** ** The directory connection *)


Lemma failed_connect_witness :
  exists (msg : string) (s' : Connection.State),
    Connection.connectToMongoDB env_unset Connection.initial = (Throw msg, s')
    /\ Connection.db s' = None
    /\ fst (Connection.registerRoutes_connect env_unset Connection.initial)
       = Throw msg
    /\ Connection.getDatabase s' = (Throw not_connected, s')
    /\ Connection.getStorage s' = (Throw not_connected, s').
Proof.
  apply (failed_connect_leaves_no_database env_unset Connection.initial).
  - reflexivity.
  - reflexivity.
  - reflexivity.
Defined.

(** A name of white space is kept by the directory connection. *)
Lemma directory_database_name_witness :
  Connection.dbName_of (connection_string "mongodb" "h" " " "w=1")
  = (if JS.truthy " " then " " else "jewelry_admin_panel")
  /\ (blank " " = false ->
      Connection.dbName_of (connection_string "mongodb" "h" " " "w=1")
      = resolvedDbName (connection_string "mongodb" "h" " " "w=1")).
Proof.
  apply (directory_database_name "mongodb" "h" " " "w=1").
  - reflexivity.
  - reflexivity.
  - reflexivity.
Defined.

Lemma closeConnection_witness :
  exists s' : Connection.State,
    Connection.closeConnection connected_state = (Ok tt, s')
    /\ Connection.client s' = None /\ Connection.db s' = None
    /\ Connection.closed s'
       = (Connection.closed connected_state ++ [admin_uri])%list
    /\ Connection.getDatabase s' = (Throw not_connected, s')
    /\ Connection.getStorage s' = (Ok admin_db, s')
    /\ Connection.closeConnection s' = (Ok tt, s').
Proof.
  apply (closeConnection_keeps_the_storage connected_state admin_uri admin_db).
  - reflexivity.
  - reflexivity.
Defined.

(** ** The shop directory *)


(** Alice asks for the shop of Bob. *)
Lemma foreign_shop_witness :
  (forall shop now,
     Directory.updateShop bob_hex shop "alice" now store = (Ok None, store))
  /\ Directory.deleteShop bob_hex "alice" store = (Ok false, store).
Proof.
  apply (foreign_shop_is_not_found bob_hex bob_id "alice" store).
  - reflexivity.
  - vm_compute. reflexivity.
  - intros d Hd Hid.
    apply elem_of_cons in Hd as [->|Hd]; [discriminate Hid|].
    apply list_elem_of_singleton in Hd as ->. discriminate.
Defined.

Lemma created_shop_witness :
  exists (created : Directory.Shop string) (s' : Directory.Store),
    Directory.createShop bob_data "bob" 300 new_id store = (Ok created, s')
    /\ Directory.ownerId created = "bob"
    /\ Directory.data created = bob_data
    /\ Directory.createdAt created = 300 /\ Directory.updatedAt created = 300
    /\ fst (getShop (Directory._id created) "bob" (Directory.world_of s' world))
       = Ok (Some (Shop.mk (Directory._id created) "bob"
                           (Directory.name bob_data)
                           (Directory.imageUrl bob_data)
                           (Directory.mongodbUri bob_data)))
    /\ forall other, other <> "bob" ->
         fst (getShop (Directory._id created) other
                      (Directory.world_of s' world))
         = Ok None.
Proof.
  apply (created_shop_is_found_by_its_owner_only bob_data "bob" 300 new_id
           store world).
  - reflexivity.
  - intros d Hd.
    apply elem_of_cons in Hd as [->|Hd]; [discriminate|].
    apply list_elem_of_singleton in Hd as ->. discriminate.
  - exact new_hex_reads.
Defined.


(** ** Sessions *)

Lemma requireAuth_witness :
  Auth.requireAuth (Some ("Bearer " ++ "tok")) one_session = Auth.Next "u1"
  /\ (JS.includes "tok" "Bearer " = false ->
      Auth.requireAuth (Some "tok") one_session = Auth.Next "u1").
Proof.
  apply (requireAuth_accepts_a_live_session one_session "tok" "u1").
  - exact (lookup_singleton_eq _ _).
  - discriminate.
Defined.

Lemma logout_witness :
  exists s' : Auth.Server,
    Auth.logout (Some "Bearer tok") server = (Ok Auth.LoggedOut, s')
    /\ Auth.users s' = Auth.users server
    /\ Auth.requireAuth (Some "Bearer tok") (Auth.sessions s')
       = Auth.Unauthorized
    /\ forall other : option string,
         Auth.sessionId_of other <> Auth.sessionId_of (Some "Bearer tok") ->
         Auth.requireAuth other (Auth.sessions s')
         = Auth.requireAuth other (Auth.sessions server).
Proof.
  apply (logout_ends_the_session (Some "Bearer tok") "u1" server).
  apply (requireAuth_bearer one_session "tok" "u1").
  - exact (lookup_singleton_eq _ _).
  - discriminate.
Defined.

End MoreExamples.
